(** * PanMK: the compile-and-preview supervisor of [panmk.py]

    A shallow embedding of [panmk.py] and the properties of its platform
    classifier, viewer strategies, override resolver and watch loop.

    Conventions of the embedding.
    - Python strings are Rocq strings (sequences of bytes); [str.lower]
      acts on the ASCII letters.
    - Python objects that the program passes around are the constructors
      of [value]; the functions and closures it builds ([send_signal(n)],
      [get_file_loader(platform)], [lambda x: None], ...) are the
      constructors of [callable], applied by [call].
    - Effects are explicit: a computation maps the table of viewer
      processes to an [outcome], which holds the result (a value, a raised
      exception, or "still running"), the new table and the library calls
      issued, in order.
    - The host (file system, environment variables, path functions, the
      [eval] of user expressions) is a [host] record.

    What the source leaves to its surroundings is fixed as follows.
    - A viewer process ends on [SIGKILL], and on [SIGTERM] if its program
      heeds that signal within the grace period; it does not exit of its
      own accord. What any other signal does to it is the host's answer:
      the number is no signal of the host ([OSError]), the program goes
      on, or the program exits.
    - [subprocess.run] and [subprocess.Popen] find the program they are
      given, once their argument is a well-formed command line.
    - The [while True] loop is observed for finitely many turns, one
      [tick] per turn; a tick gives the answer of [os.stat] (a result or
      an exception, [KeyboardInterrupt] among them) and the step of the
      reload sequence, if any, that the user interrupts as it starts. *)

From Stdlib Require Import ZArith Ascii String.
From stdpp Require Import base decidable option list strings gmap.

Local Open Scope string_scope.
Local Open Scope list_scope.
Local Open Scope Z_scope.

(** ** Strings: [str.lower] and the [in] operator *)

Module Str.

(** [c.lower()] on one character: the letters [A]..[Z] are moved to
    [a]..[z], everything else is kept. *)
Definition lower_ascii (c : ascii) : ascii :=
  let n := nat_of_ascii c in
  if (Nat.leb 65 n && Nat.leb n 90)%bool then ascii_of_nat (n + 32) else c.

(** [s.lower()] *)
Fixpoint lower (s : string) : string :=
  match s with
  | EmptyString => EmptyString
  | String c s' => String (lower_ascii c) (lower s')
  end.

(** [s.startswith(p)] *)
Fixpoint startswith (p s : string) : bool :=
  match p, s with
  | EmptyString, _ => true
  | String _ _, EmptyString => false
  | String a p', String b s' => if Ascii.eqb a b then startswith p' s' else false
  end.

(** [p in s] on strings: [p] occurs in [s] as a contiguous block. *)
Fixpoint contains (p s : string) : bool :=
  (startswith p s ||
   match s with
   | EmptyString => false
   | String _ s' => contains p s'
   end)%bool.

(** What [p in s] means. *)
Definition occurs_in (p s : string) : Prop :=
  ∃ before after : string, s = before +:+ p +:+ after.

(** [s[n:]] *)
Fixpoint drop (n : nat) (s : string) : string :=
  match n, s with
  | O, _ => s
  | S _, EmptyString => EmptyString
  | S n', String _ s' => drop n' s'
  end.

End Str.

(** ** The platform classifier *)

(** [platforms] of [get_platform], in the order the loop tries them. *)
Definition platforms : list string := ["windows"; "cygin"; "darwin"; "bsd"].

(** The [for plat in platforms: if plat in platform: return plat] loop;
    [None] when the loop runs to its end (the [else] branch). *)
Fixpoint first_platform (plats : list string) (platform : string) : option string :=
  match plats with
  | [] => None
  | plat :: rest =>
      if Str.contains plat platform then Some plat
      else first_platform rest platform
  end.

(** [get_platform()], as a function of what [platform.system()] gives. *)
Definition get_platform (system : string) : string :=
  let platform := Str.lower system in
  match first_platform platforms platform with
  | Some plat => plat
  | None => "linux"
  end.

(** ** Python objects, exceptions and effects *)

(** The exceptions the program can meet. [KeyboardInterrupt] and
    [SystemExit] derive from [BaseException] only; the others derive from
    [Exception]. *)
Inductive exn : Type :=
| KeyboardInterrupt
| SystemExit
| TimeoutExpired
| TypeError
| AttributeError
| IndexError
| NameError (name : string)
| UnboundLocalError (name : string)
| KeyError (key : string)
| ZeroDivisionError
| FileNotFoundError
| OSError
| UserError (msg : string).   (* any other exception, of the user's code *)

#[global] Instance exn_eq_dec : EqDecision exn.
Proof. solve_decision. Defined.

(** [isinstance(e, Exception)]: what [except Exception] catches. *)
Definition is_Exception (e : exn) : bool :=
  match e with
  | KeyboardInterrupt | SystemExit => false
  | _ => true
  end.

(** [isinstance(e, KeyboardInterrupt)]: what [except KeyboardInterrupt]
    catches. *)
Definition is_KeyboardInterrupt (e : exn) : bool :=
  match e with
  | KeyboardInterrupt => true
  | _ => false
  end.

(** The functions and closures of the program, and the functions a user
    expression may build from them. *)
Inductive callable : Type :=
| LoaderCmd (prefix : list string) (* lambda x: prefix + [x], of get_loader_cmd *)
| FileLoader (cmd : callable)      (* lambda x: subprocess.run(cmd(x)) *)
| DoNothing                        (* do_nothing *)
| SendSignal (signal : Z)          (* send_signal(signal) *)
| HardRestart                      (* hard_restart *)
| RunCommand (command : list string) (* run_command(command) *)
| PreReloadKillProc                (* pre_reload_kill_proc *)
| LambdaNone                       (* lambda x: None *)
| UserFun (name : string).         (* a function of the user's own *)

(** The objects the program handles. *)
#[warnings="-register-all"] Inductive value : Type :=
| VNone
| VBool (b : bool)
| VInt (n : Z)
| VStr (s : string)
| VList (l : list value)
| VProc (pid : nat)                  (* a subprocess.Popen object *)
| VCompleted (args : list string)    (* a subprocess.CompletedProcess *)
| VFun (f : callable)
| VObject (name : string).           (* any other object: a module, a class, ... *)

(** [bool(v)] *)
Definition truthy (v : value) : bool :=
  match v with
  | VNone => false
  | VBool b => b
  | VInt n => negb (n =? 0)
  | VStr s => negb (String.eqb s "")
  | VList l => match l with [] => false | _ => true end
  | VProc _ | VCompleted _ | VFun _ | VObject _ => true
  end.

(** [a or b] *)
Definition py_or (a b : value) : value := if truthy a then a else b.

(** The result of running a piece of the program: it returned [a], it
    raised [e], or it had not come back when the observation ended. *)
Inductive result (A : Type) : Type :=
| Ok (a : A)
| Raise (e : exn)
| Running.
Arguments Ok {A} a.
Arguments Raise {A} e.
Arguments Running {A}.

(** A viewer process: the command line it was started with, whether it is
    still alive, and whether it exits within the grace period when it is
    asked to ([SIGTERM]). *)
Record process : Type := Process {
  p_args : list string;
  p_alive : bool;
  p_heeds_term : bool
}.

(** The processes started so far; the index is the process id. *)
Abbreviation world := (list process).

(** The library calls of the program, as they are issued. *)
Inductive event : Type :=
| EStat (path : string)                    (* os.stat(path) *)
| ERun (cmd : list string)                 (* subprocess.run(cmd) *)
| EPopen (pid : nat) (cmd : list string)   (* subprocess.Popen(cmd) *)
| ETerminate (pid : nat)                   (* proc.terminate() *)
| EWait (pid : nat) (timeout : Z)          (* proc.wait(timeout=...) *)
| EKill (pid : nat)                        (* proc.kill() *)
| ESendSignal (pid : nat) (signal : Z)     (* proc.send_signal(signal) *)
| ESleep (seconds : Z)                     (* sleep(seconds) *)
| EPrint (text : string)                   (* print(...) *)
| EChdir (dir : string).                   (* os.chdir(dir) *)

(** The three steps the watch loop runs on a change, each with the hook
    and the argument it is called on. *)
Inductive step : Type :=
| PreReload (f arg : value)     (* pre_reload_file(proc) *)
| Recompile                     (* call_pandoc(...) *)
| Reload (f arg : value).       (* reload_file(proc) *)

(** An entry of the log: a library call, or the watch loop entering one
    of its three steps. *)
Inductive entry : Type :=
| Lib (e : event)
| Enter (s : step).

Record outcome (A : Type) : Type := Outcome {
  res : result A;
  final : world;
  log : list entry
}.
Arguments Outcome {A} res final log.
Arguments res {A} o.
Arguments final {A} o.
Arguments log {A} o.

(** Computations: from the process table to an outcome. *)
Definition M (A : Type) : Type := world → outcome A.

Definition ret {A} (a : A) : M A := λ w, Outcome (Ok a) w [].

Definition raise {A} (e : exn) : M A := λ w, Outcome (Raise e) w [].

(** A computation that is observed no further (a loop still turning). *)
Definition still_running {A} : M A := λ w, Outcome Running w [].

Definition bind {A B} (m : M A) (k : A → M B) : M B := λ w,
  let o := m w in
  match res o with
  | Ok a => let o' := k a (final o) in
            Outcome (res o') (final o') (log o ++ log o')
  | Raise e => Outcome (Raise e) (final o) (log o)
  | Running => Outcome Running (final o) (log o)
  end.

(** [try: m  except <catches>: handler] *)
Definition try_except {A} (m : M A) (catches : exn → bool) (handler : M A) : M A := λ w,
  let o := m w in
  match res o with
  | Raise e =>
      if catches e then
        let o' := handler (final o) in
        Outcome (res o') (final o') (log o ++ log o')
      else o
  | _ => o
  end.

Definition emit (e : event) : M unit := λ w, Outcome (Ok tt) w [Lib e].

Definition mark (s : step) : M unit := λ w, Outcome (Ok tt) w [Enter s].

Definition get_world : M world := λ w, Outcome (Ok w) w [].

Definition put_world (w' : world) : M unit := λ _, Outcome (Ok tt) w' [].

(** Lifting a host answer (a value or an exception) into a computation. *)
Definition lift {A} (r : result A) : M A := λ w, Outcome r w [].

Declare Scope py_scope.
Delimit Scope py_scope with py.
Notation "x <- m ;; k" := (bind m (λ x, k))
  (at level 100, m at next level, right associativity) : py_scope.
Notation "m ;;; k" := (bind m (λ _, k))
  (at level 100, right associativity) : py_scope.
Local Open Scope py_scope.

(** What a function of the user's own does when it is called: its result,
    its effect on the processes and its library calls. *)
Record user_outcome : Type := UserOutcome {
  u_res : result value;
  u_final : world;
  u_calls : list event
}.

Definition run_user (u : world → user_outcome) : M value := λ w,
  let o := u w in Outcome (u_res o) (u_final o) (Lib <$> u_calls o).

(** ** The host *)

(** A settings map: section name to (option name to text), as
    [read_config] builds it from a [ConfigParser]. *)
Abbreviation config := (gmap string (gmap string string)).

(** [os.stat_result]: compared as the tuple of its ten indexed fields. *)
Record stat_result : Type := Stat {
  st_mode : Z; st_ino : Z; st_dev : Z; st_nlink : Z; st_uid : Z;
  st_gid : Z; st_size : Z; st_atime : Z; st_mtime : Z; st_ctime : Z
}.

#[global] Instance stat_result_eq_dec : EqDecision stat_result.
Proof. solve_decision. Defined.

(** What the program asks of its surroundings. *)
Record host : Type := Host {
  h_system : string;                         (* platform.system() *)
  h_environ : gmap string string;            (* os.environ *)
  h_normalize_path : string → string;        (* normalize_path *)
  h_isfile : string → bool;                  (* os.path.isfile *)
  h_read_config : string → result config;    (* read_config *)
  h_join : list string → string;             (* os.path.join *)
  h_expanduser : string → string;            (* os.path.expanduser *)
  h_basename : string → string;              (* os.path.basename *)
  h_dirname : string → string;               (* os.path.dirname *)
  h_splitext : string → string * string;     (* os.path.splitext *)
  h_chdir : string → result unit;            (* os.chdir *)
  h_format : string → string → result string;(* output.format(filename=...) *)
  h_pandoc_stderr : list string → string;    (* what pandoc writes to stderr *)
  h_heeds_term : list string → bool;         (* does this program exit on SIGTERM *)
  h_signal : list string → Z → result bool;  (* os.kill on this program, alive:
                                                OSError for a number that is no
                                                signal, else whether it goes on *)
  h_eval : string → result value;            (* eval of a user expression *)
  h_user_call : string → value → world → user_outcome (* a user function, applied *)
}.

(** ** Dicts *)

(** [d.get(k)] *)
Definition dict_get (d : gmap string value) (k : string) : value :=
  default VNone (d !! k).

(** [d[k]] *)
Definition dict_index (d : gmap string value) (k : string) : M value :=
  match d !! k with
  | Some v => ret v
  | None => raise (KeyError k)
  end.

(** Use of an object where the library wants a [str]. *)
Definition as_str (v : value) : M string :=
  match v with
  | VStr s => ret s
  | _ => raise TypeError
  end.

(** [v == s] for a string literal [s] *)
Definition eq_str (v : value) (s : string) : bool :=
  match v with
  | VStr s' => String.eqb s' s
  | _ => false
  end.

(** ** The subprocess library *)

(** Number of seconds to wait between calling [terminate()] and [kill()]. *)
Definition DEATH_DELAY : Z := 5.

Definition SIGTERM : Z := 15.
Definition SIGKILL : Z := 9.

(** A command line: every element has to be a string. *)
Definition as_strings (l : list value) : option (list string) :=
  mapM (λ v, match v with VStr s => Some s | _ => None end) l.

(** The argument check of [subprocess.run] and [subprocess.Popen]. *)
Definition check_cmd (cmd : value) : M (list string) :=
  match cmd with
  | VStr s => ret [s]
  | VList l =>
      match as_strings l with
      | Some [] => raise IndexError
      | Some c => ret c
      | None => raise TypeError
      end
  | _ => raise TypeError
  end.

(** [subprocess.run(cmd)] *)
Definition subprocess_run (cmd : value) : M value :=
  c <- check_cmd cmd ;;
  emit (ERun c) ;;;
  ret (VCompleted c).

(** What [SIGKILL] does to a process: it ends it. *)
Definition killed (p : process) : process :=
  Process (p_args p) false (p_heeds_term p).

(** What [SIGTERM] does to a process: it ends it if the program heeds
    it. *)
Definition terminated (p : process) : process :=
  Process (p_args p) (p_alive p && negb (p_heeds_term p)) (p_heeds_term p).

(** What a signal does to a process. What a signal other than [SIGKILL]
    and [SIGTERM] does is up to the program: [goes_on] tells whether it
    is still running afterwards (it handles or ignores the signal) or has
    exited (the default action of [SIGHUP], [SIGUSR1] and the like). *)
Definition deliver (signal : Z) (goes_on : bool) (p : process) : process :=
  if signal =? SIGKILL then killed p
  else if signal =? SIGTERM then terminated p
  else Process (p_args p) (p_alive p && goes_on) (p_heeds_term p).

Definition signal_process (pid : nat) (f : process → process) : M unit :=
  w <- get_world ;;
  put_world (alter f pid w).

(** The entry of a handle; a handle without an entry counts as a process
    that has exited (handles are made by [popen] only). *)
Definition process_of (w : world) (pid : nat) : process :=
  default (Process [] false false) (w !! pid).

(** [proc.args] *)
Definition proc_args (proc : value) : M value :=
  match proc with
  | VProc pid => w <- get_world ;; ret (VList (VStr <$> p_args (process_of w pid)))
  | _ => raise AttributeError
  end.

(** [proc.terminate()] *)
Definition proc_terminate (proc : value) : M unit :=
  match proc with
  | VProc pid => emit (ETerminate pid) ;;; signal_process pid terminated
  | _ => raise AttributeError
  end.

(** [proc.wait(timeout=timeout)]: returns once the process has exited,
    raises [TimeoutExpired] when it is still alive after [timeout]. *)
Definition proc_wait (proc : value) (timeout : Z) : M unit :=
  match proc with
  | VProc pid =>
      emit (EWait pid timeout) ;;;
      w <- get_world ;;
      if p_alive (process_of w pid) then raise TimeoutExpired else ret tt
  | _ => raise AttributeError
  end.

(** [proc.kill()] *)
Definition proc_kill (proc : value) : M unit :=
  match proc with
  | VProc pid => emit (EKill pid) ;;; signal_process pid killed
  | _ => raise AttributeError
  end.

Section Program.

Context (H : host).

(** [subprocess.Popen(cmd)]: a new process, at the next free id. *)
Definition popen (cmd : value) : M value :=
  c <- check_cmd cmd ;;
  w <- get_world ;;
  let pid := length w in
  put_world (w ++ [Process c true (h_heeds_term H c)]) ;;;
  emit (EPopen pid c) ;;;
  ret (VProc pid).

(** [proc.send_signal(signal)]: nothing is sent to a process that has
    exited; for a live one [os.kill] raises [OSError] when the number is
    no signal of the host. *)
Definition proc_send_signal (proc : value) (signal : Z) : M unit :=
  match proc with
  | VProc pid =>
      emit (ESendSignal pid signal) ;;;
      w <- get_world ;;
      let p := process_of w pid in
      if p_alive p then
        goes_on <- lift (h_signal H (p_args p) signal) ;;
        signal_process pid (deliver signal goes_on)
      else ret tt
  | _ => raise AttributeError
  end.

(** ** Viewer strategies *)

(** [get_loader_cmd(platform)] *)
Definition get_loader_cmd (platform : string) : callable :=
  if decide (platform = "windows") then LoaderCmd ["start"]
  else if decide (platform = "cygin") then LoaderCmd ["cmd"; "/c"; "start"]
  else if decide (platform = "darwin") then LoaderCmd ["open"]
  else LoaderCmd ["xdg-open"].

(** [get_file_loader(platform)] *)
Definition get_file_loader (platform : string) : value :=
  let cmd := get_loader_cmd platform in
  VFun (FileLoader cmd).

(** [hard_restart(proc)]. The last line binds the new process to the
    local name [proc]; the function returns [None]. *)
Definition hard_restart (proc : value) : M value :=
  args <- proc_args proc ;;
  proc_terminate proc ;;;
  proc_wait proc DEATH_DELAY ;;;
  proc_kill proc ;;;
  proc <- popen args ;;
  ret VNone.

(** [pre_reload_kill_proc(proc)] *)
Definition pre_reload_kill_proc (proc : value) : M value :=
  proc_kill proc ;;; ret VNone.

(** [get_file_reloader(platform)]; a platform outside the three branches
    falls off the end of the function, which returns [None]. *)
Definition get_file_reloader (platform : string) : value :=
  if decide (platform = "windows") then VFun HardRestart
  else if decide (platform ∈ ["darwin"; "bsd"]) then VFun (SendSignal 29)
  else if decide (platform ∈ ["linux"; "cygin"]) then VFun (SendSignal 1)
  else VNone.

(** Applying a function of the program to one argument. *)
Fixpoint call_fun (f : callable) (x : value) : M value :=
  match f with
  | LoaderCmd prefix => ret (VList ((VStr <$> prefix) ++ [x]))
  | FileLoader cmd => c <- call_fun cmd x ;; subprocess_run c
  | DoNothing => ret VNone
  | SendSignal signal => proc_send_signal x signal ;;; ret VNone
  | HardRestart => hard_restart x
  | RunCommand command => subprocess_run (VList (VStr <$> command))
  | PreReloadKillProc => pre_reload_kill_proc x
  | LambdaNone => ret VNone
  | UserFun name => run_user (h_user_call H name x)
  end.

(** [f(x)]: only functions can be called. *)
Definition call (f : value) (x : value) : M value :=
  match f with
  | VFun c => call_fun c x
  | _ => raise TypeError
  end.

(** ** Loading the rc files *)

(** The names bound at the top level of [panmk.py]: its imports,
    constants and functions, and the names every module has. *)
Definition module_globals : list string :=
  [ "__name__"; "__doc__"; "__package__"; "__loader__"; "__spec__";
    "__file__"; "__cached__"; "__builtins__"; "__annotations__";
    "argparse"; "asyncio"; "configparser"; "os"; "subprocess"; "sys";
    "suppress"; "get_system"; "sleep";
    "PROGRAM_NAME"; "VERSION"; "DEATH_DELAY";
    "get_platform"; "get_cmd_args"; "normalize_path"; "read_config";
    "load_rc"; "load_default_rc"; "call_pandoc"; "get_loader_cmd";
    "get_file_loader"; "get_reloadable"; "do_nothing"; "send_signal";
    "hard_restart"; "run_command"; "get_file_reloader";
    "pre_reload_kill_proc"; "continuous"; "main" ].

(** The names of Python's [builtins] module. *)
Definition python_builtins : list string :=
  [ "abs"; "aiter"; "all"; "anext"; "any"; "ascii"; "bin"; "bool";
    "breakpoint"; "bytearray"; "bytes"; "callable"; "chr"; "classmethod";
    "compile"; "complex"; "copyright"; "credits"; "delattr"; "dict"; "dir";
    "divmod"; "enumerate"; "eval"; "exec"; "exit"; "filter"; "float";
    "format"; "frozenset"; "getattr"; "globals"; "hasattr"; "hash"; "help";
    "hex"; "id"; "input"; "int"; "isinstance"; "issubclass"; "iter"; "len";
    "license"; "list"; "locals"; "map"; "max"; "memoryview"; "min"; "next";
    "object"; "oct"; "open"; "ord"; "pow"; "print"; "property"; "quit";
    "range"; "repr"; "reversed"; "round"; "set"; "setattr"; "slice";
    "sorted"; "staticmethod"; "str"; "sum"; "super"; "tuple"; "type";
    "vars"; "zip"; "__import__"; "__build_class__"; "__debug__";
    "None"; "True"; "False"; "Ellipsis"; "NotImplemented";
    "BaseException"; "BaseExceptionGroup"; "Exception"; "ExceptionGroup";
    "ArithmeticError"; "AssertionError"; "AttributeError";
    "BlockingIOError"; "BrokenPipeError"; "BufferError"; "BytesWarning";
    "ChildProcessError"; "ConnectionAbortedError"; "ConnectionError";
    "ConnectionRefusedError"; "ConnectionResetError"; "DeprecationWarning";
    "EOFError"; "EncodingWarning"; "EnvironmentError"; "FileExistsError";
    "FileNotFoundError"; "FloatingPointError"; "FutureWarning";
    "GeneratorExit"; "IOError"; "ImportError"; "ImportWarning";
    "IndentationError"; "IndexError"; "InterruptedError";
    "IsADirectoryError"; "KeyError"; "KeyboardInterrupt"; "LookupError";
    "MemoryError"; "ModuleNotFoundError"; "NameError";
    "NotADirectoryError"; "NotImplementedError"; "OSError";
    "OverflowError"; "PendingDeprecationWarning"; "PermissionError";
    "ProcessLookupError"; "PythonFinalizationError"; "RecursionError";
    "ReferenceError"; "ResourceWarning"; "RuntimeError"; "RuntimeWarning";
    "StopAsyncIteration"; "StopIteration"; "SyntaxError"; "SyntaxWarning";
    "SystemError"; "SystemExit"; "TabError"; "TimeoutError"; "TypeError";
    "UnboundLocalError"; "UnicodeDecodeError"; "UnicodeEncodeError";
    "UnicodeError"; "UnicodeTranslateError"; "UnicodeWarning";
    "UserWarning"; "ValueError"; "Warning"; "WindowsError";
    "ZeroDivisionError" ].

(** Reading a name that is not a local of the function: the module's
    globals, then the builtins, else [NameError]. None of these objects
    is a settings dict, so the object is known by its name only. *)
Definition load_global (name : string) : M value :=
  if decide (name ∈ module_globals) then ret (VObject name)
  else if decide (name ∈ python_builtins) then ret (VObject name)
  else raise (NameError name).

(** [os.environ[key]] *)
Definition environ_index (key : string) : M string :=
  match h_environ H !! key with
  | Some v => ret v
  | None => raise (KeyError key)
  end.

(** The part of [load_rc] before [conf.update]: the settings read from
    [rc], or nothing ([return]) when [rc] is not a file. *)
Definition read_rc (rc : string) : M (option config) :=
  let rc := h_normalize_path H rc in
  if negb (h_isfile H rc) then ret None
  else
    config <- lift (h_read_config H rc) ;;
    ret (Some config).

(** [load_rc(rc, conf)] on a settings dict: [conf.update(config)], the
    sections of [config] replacing those of [conf]. The new [conf] is
    returned. *)
Definition load_rc (rc : string) (conf : config) : M config :=
  r <- read_rc rc ;;
  match r with
  | None => ret conf
  | Some config => ret (config ∪ conf)
  end.

(** [load_rc(rc, obj)] on an object that has no [update]. *)
Definition load_rc_object (rc : string) (obj : value) : M unit :=
  r <- read_rc rc ;;
  match r with
  | None => ret tt
  | Some _ => raise AttributeError
  end.

(** [load_default_rc(platform, conf)]. In the windows branch the first
    call names [args], which is not a local of this function. *)
Definition load_default_rc (platform : string) (conf : config) : M config :=
  if decide (platform = "windows") then
    sysdrive <- environ_index "systemdrive" ;;
    let path := h_join H [sysdrive; "panmk"; "panmkrc"] in
    args <- load_global "args" ;;
    load_rc_object path args ;;;
    let path := h_expanduser H (h_join H ["~user"; ".panmkrc"]) in
    load_rc path conf
  else
    let paths := ["/opt/local/share/panmk"; "/usr/local/share/panmk";
                  "/usr/local/lib/panmk"; "~"] in
    foldl (λ (acc : M config) path,
             conf <- acc ;; load_rc (h_join H [path; ".panmk"]) conf)
          (ret conf) paths.

(** ** Compiling and launching *)

(** [call_pandoc(path, output, args)] *)
Definition call_pandoc (path output : string) (args : list string) : M string :=
  let basename := fst (h_splitext H (h_basename H path)) in
  output_file <- lift (h_format H output basename) ;;
  let cmd := ["pandoc"; path; "-o"; output_file] ++ args in
  emit (ERun cmd) ;;;
  let stderr := h_pandoc_stderr H cmd in
  (if negb (String.eqb stderr "") then emit (EPrint stderr) else ret tt) ;;;
  ret output_file.

(** [get_reloadable(path, load_file)] *)
Definition get_reloadable (path : string) (load_file : value) : M value :=
  cmd <- call load_file (VStr path) ;;
  popen cmd.

(** ** The watch loop *)

(** The three steps run on a change. *)
Inductive phase : Type := InPreReload | InRecompile | InReload.

#[global] Instance phase_eq_dec : EqDecision phase.
Proof. solve_decision. Defined.

(** What the surroundings do during one turn of the loop: the answer of
    [os.stat], and whether the user interrupts one of the three steps. *)
Record tick : Type := Tick {
  t_stat : result stat_result;
  t_interrupt : option phase
}.

(** A step that the user may interrupt as it starts. *)
Definition interruptible {A} (t : tick) (ph : phase) (m : M A) : M A :=
  if decide (t_interrupt t = Some ph) then raise KeyboardInterrupt else m.

(** [os.stat(path)] *)
Definition os_stat (path : string) (t : tick) : M stat_result :=
  emit (EStat path) ;;; lift (t_stat t).

(** The body of the inner [try]: pre-reload, recompile, reload. Each step
    is entered in the log as it starts. *)
Definition reload_sequence (args : gmap string value) (pandoc_args : list string)
    (pre_reload_file reload_file proc : value) (t : tick) : M unit :=
  mark (PreReload pre_reload_file proc) ;;;
  interruptible t InPreReload (call pre_reload_file proc) ;;;
  mark Recompile ;;;
  interruptible t InRecompile
    (filename <- (v <- dict_index args "filename" ;; as_str v) ;;
     output <- (v <- dict_index args "output" ;; as_str v) ;;
     call_pandoc filename output pandoc_args) ;;;
  mark (Reload reload_file proc) ;;;
  interruptible t InReload (call reload_file proc) ;;;
  ret tt.

(** The body of [while True], from the value of [pre] to its new value. *)
Definition loop_body (args : gmap string value) (pandoc_args : list string)
    (pre_reload_file reload_file proc : value)
    (t : tick) (pre : option stat_result) : M (option stat_result) :=
  filename <- (v <- dict_index args "filename" ;; as_str v) ;;
  cur <- os_stat filename t ;;
  if decide (Some cur ≠ pre) then
    let pre := Some cur in
    try_except
      (reload_sequence args pandoc_args pre_reload_file reload_file proc t)
      is_KeyboardInterrupt
      (ret tt) ;;;
    ret pre
  else ret pre.

(** The turns of a loop that the observation covers, one per tick. *)
Fixpoint run_ticks {S} (body : tick → S → M S) (ticks : list tick) (s : S) : M S :=
  match ticks with
  | [] => ret s
  | t :: ts => s' <- body t s ;; run_ticks body ts s'
  end.

(** [while True: body]: the loop has no [break]; after the observed turns
    it is still running, unless a turn raised. *)
Definition while_true {S} (body : tick → S → M S) (ticks : list tick) (s : S) : M unit :=
  _ <- run_ticks body ticks s ;; still_running.

(** [sleep(seconds)] *)
Definition sleep (seconds : Z) : M unit := emit (ESleep seconds).

(** The start of [continuous]: the first compilation and the launch of
    the viewer; the result is [proc]. *)
Definition first_launch (args : gmap string value) (pandoc_args : list string)
    (load_file : value) : M value :=
  filename <- (v <- dict_index args "filename" ;; as_str v) ;;
  output <- (v <- dict_index args "output" ;; as_str v) ;;
  output <- call_pandoc filename output pandoc_args ;;
  get_reloadable output load_file.

(** The outer [try] of [continuous]: the loop, then [sleep(1)], which
    stands after the [while] loop, and [except KeyboardInterrupt: pass]. *)
Definition watch (args : gmap string value) (pandoc_args : list string)
    (pre_reload_file reload_file proc : value) (ticks : list tick) : M unit :=
  let pre : option stat_result := None in
  try_except
    (while_true (loop_body args pandoc_args pre_reload_file reload_file proc)
                ticks pre ;;;
     sleep 1)
    is_KeyboardInterrupt
    (ret tt).

(** [continuous(platform, args, pandoc_args, load_file, pre_reload_file,
    reload_file)] *)
Definition continuous (platform : string) (args : gmap string value)
    (pandoc_args : list string) (load_file pre_reload_file reload_file : value)
    (ticks : list tick) : M unit :=
  proc <- first_launch args pandoc_args load_file ;;
  watch args pandoc_args pre_reload_file reload_file proc ticks.

(** ** The main function *)

(** The namespace [get_cmd_args] parses from the command line. *)
Record cmd_args : Type := CmdArgs {
  a_cd : bool;                 (* --cd / --no-cd *)
  a_exec : option string;      (* -e <code> *)
  a_g : bool;                  (* -g / -g- *)
  a_new_viewer : bool;         (* --new-viewer / --no-new-viewer *)
  a_norc : bool;               (* --norc *)
  a_action : string;           (* -p, -pv, -pvc: "p", "pv", "pvc" *)
  a_rc : option string;        (* --rc *)
  a_output : string;           (* -o *)
  a_filename : string
}.

Definition opt_str (o : option string) : value :=
  match o with
  | Some s => VStr s
  | None => VNone
  end.

(** [vars(args)] *)
Definition vars (a : cmd_args) : gmap string value :=
  list_to_map
    [ ("cd", VBool (a_cd a)); ("exec", opt_str (a_exec a));
      ("g", VBool (a_g a)); ("new-viewer", VBool (a_new_viewer a));
      ("norc", VBool (a_norc a)); ("action", VStr (a_action a));
      ("rc", opt_str (a_rc a)); ("output", VStr (a_output a));
      ("filename", VStr (a_filename a)) ].

(** [v is not None] *)
Definition is_not_none (v : value) : bool :=
  match v with
  | VNone => false
  | _ => true
  end.

(** [os.chdir(dir)] *)
Definition os_chdir (dir : string) : M unit :=
  emit (EChdir dir) ;;; lift (h_chdir H dir).

(** What [eval(code)] gives: [None] evaluates to [None]; any other
    expression is the user's. *)
Definition eval_answer (code : string) : result value :=
  if String.eqb code "None" then Ok VNone else h_eval H code.

(** [eval(code)] *)
Definition py_eval (code : string) : M value := lift (eval_answer code).

(** [conf.get(ext)], where [ext] may be [None]. *)
Definition conf_get (conf : config) (ext : option string) : option (gmap string string) :=
  e ← ext; conf !! e.

(** The section [conf[ext]] when [conf.get(ext)] is true: the section
    is there and has an option. *)
Definition conf_section (conf : config) (ext : option string) : option (gmap string string) :=
  match conf_get conf ext with
  | Some d => if decide (d = ∅) then None else Some d
  | None => None
  end.

(** [d.get(key, 'None')] *)
Definition option_text (d : gmap string string) (key : string) : string :=
  default "None" (d !! key).

(** [try: hook = eval(d.get(key, 'None')) or default
    except Exception: hook = default] *)
Definition eval_hook (d : gmap string string) (key : string) (default : value) : M value :=
  try_except
    (v <- py_eval (option_text d key) ;; ret (py_or v default))
    is_Exception
    (ret default).

(** Reading a local that may not have been assigned. *)
Definition read_local (name : string) (v : option value) : M value :=
  match v with
  | Some x => ret x
  | None => raise (UnboundLocalError name)
  end.

(** The number of items of a 2-tuple. *)
Definition len2 {A B} (p : A * B) : Z := 2.

(** The extension of the output file: [ext] of [main]. *)
Definition output_ext (output : string) : option string :=
  let ext := h_splitext H (h_basename H output) in
  if len2 ext <? 2 then None
  else Some (Str.drop 1 (snd ext)).

(** The choice of [load_file] in [main]; [None] when the name is left
    unassigned. *)
Definition resolve_load_file (platform : string) (conf : config)
    (ext : option string) : M (option value) :=
  match ext with
  | Some _ =>
      match conf_section conf ext with
      | Some d =>
          load_file <- eval_hook d "load_file" (get_file_loader platform) ;;
          ret (Some load_file)
      | None => ret (Some (get_file_loader platform))
      end
  | None => ret None
  end.

(** The choice of [reload_file] and [pre_reload_file] in [main], as the
    pair [(reload_file, pre_reload_file)]. *)
Definition resolve_reload_hooks (platform : string) (conf : config)
    (ext : option string) (args : gmap string value)
    (load_file : option value) : M (value * value) :=
  new_viewer <- dict_index args "new-viewer" ;;
  if truthy new_viewer then
    reload_file <- read_local "load_file" load_file ;;
    let pre_reload_file := VFun PreReloadKillProc in
    ret (reload_file, pre_reload_file)
  else
    match conf_section conf ext with
    | Some d =>
        reload_file <- eval_hook d "reload_file" (get_file_reloader platform) ;;
        pre_reload_file <- eval_hook d "pre_reload_file" (VFun LambdaNone) ;;
        ret (reload_file, pre_reload_file)
    | None =>
        ret (get_file_reloader platform, VFun LambdaNone)
    end.

(** The hooks [main] settles on, from the settings and the arguments:
    [load_file] (if assigned) and the pair
    [(reload_file, pre_reload_file)]. *)
Definition resolve_hooks (platform : string) (conf : config)
    (args : gmap string value) : M (option value * (value * value)) :=
  output <- (v <- dict_index args "output" ;; as_str v) ;;
  let ext := output_ext output in
  load_file <- resolve_load_file platform conf ext ;;
  hooks <- resolve_reload_hooks platform conf ext args load_file ;;
  ret (load_file, hooks).

(** The rc stage of [main]: the settings [conf]. *)
Definition load_conf (platform : string) (args : gmap string value) : M config :=
  let conf : config := ∅ in
  if truthy (dict_get args "rc") then
    rc <- as_str (dict_get args "rc") ;;
    load_rc rc conf
  else if negb (truthy (dict_get args "norc")) then
    load_default_rc platform conf
  else ret conf.

(** The end of [main]: the action asked for, then [return 0]. *)
Definition run_action (platform : string) (args : gmap string value)
    (pandoc_args : list string) (load_file : option value)
    (pre_reload_file reload_file : value) (ticks : list tick) : M Z :=
  action <- dict_index args "action" ;;
  (if eq_str action "p" then
     filename <- (v <- dict_index args "filename" ;; as_str v) ;;
     output <- (v <- dict_index args "output" ;; as_str v) ;;
     call_pandoc filename output pandoc_args ;;;
     ret tt
   else if eq_str action "pv" then
     filename <- (v <- dict_index args "filename" ;; as_str v) ;;
     output <- (v <- dict_index args "output" ;; as_str v) ;;
     output <- call_pandoc filename output pandoc_args ;;
     load_file <- read_local "load_file" load_file ;;
     call load_file (VStr output) ;;;
     ret tt
   else if eq_str action "pvc" then
     load_file <- read_local "load_file" load_file ;;
     continuous platform args pandoc_args load_file pre_reload_file reload_file ticks
   else ret tt) ;;;
  ret 0.

(** [main()], from the parsed command line to the exit status. *)
Definition main (a : cmd_args) (pandoc_args : list string) (ticks : list tick) : M Z :=
  let args := vars a in
  let platform := get_platform (h_system H) in
  (if truthy (dict_get args "cd") then
     filename <- (v <- dict_index args "filename" ;; as_str v) ;;
     os_chdir (h_dirname H filename)
   else ret tt) ;;;
  (if is_not_none (dict_get args "exec") then
     (* exec(args.exec): args is a dict by now *)
     try_except (raise AttributeError) is_Exception
       (emit (EPrint "'dict' object has no attribute 'exec'"))
   else ret tt) ;;;
  conf <- load_conf platform args ;;
  let args := (VStr <$> default ∅ (conf !! "args")) ∪ args in
  hooks <- resolve_hooks platform conf args ;;
  let load_file := fst hooks in
  let reload_file := fst (snd hooks) in
  let pre_reload_file := snd (snd hooks) in
  run_action platform args pandoc_args load_file pre_reload_file reload_file ticks.

End Program.

(** ** A POSIX host *)

Module Posix.

(** [s.rfind(c)]: the last index of [c] in [s], or [-1]. *)
Fixpoint rfind (c : ascii) (s : string) : Z :=
  match s with
  | EmptyString => -1
  | String a s' =>
      let r := rfind c s' in
      if 0 <=? r then r + 1
      else if Ascii.eqb a c then 0 else -1
  end.

(** [s[:n]] *)
Definition take (n : nat) (s : string) : string := String.substring 0 n s.

(** Does [s] hold a character other than [c]? *)
Fixpoint has_other (c : ascii) (s : string) : bool :=
  match s with
  | EmptyString => false
  | String a s' => (negb (Ascii.eqb a c) || has_other c s')%bool
  end.

(** [posixpath.basename] *)
Definition basename (p : string) : string :=
  Str.drop (Z.to_nat (rfind "/" p + 1)) p.

(** [posixpath.splitext]: the last dot after the last slash splits the
    name, unless only dots stand before it. *)
Definition splitext (p : string) : string * string :=
  let sepIndex := rfind "/" p in
  let dotIndex := rfind "." p in
  if sepIndex <? dotIndex then
    let filenameIndex := Z.to_nat (sepIndex + 1) in
    if has_other "." (String.substring filenameIndex (Z.to_nat dotIndex - filenameIndex) p)
    then (take (Z.to_nat dotIndex) p, Str.drop (Z.to_nat dotIndex) p)
    else (p, "")
  else (p, "").

(** [posixpath.dirname], for a path without doubled slashes. *)
Definition dirname (p : string) : string :=
  let i := Z.to_nat (rfind "/" p + 1) in
  let head := take i p in
  if has_other "/" head then take (i - 1) head else head.

(** [posixpath.join] *)
Definition join (parts : list string) : string :=
  foldl (λ path b,
           if Str.startswith "/" b then b
           else if (String.eqb path "" || (0 <=? rfind "/" path) && (rfind "/" path =? Z.of_nat (String.length path) - 1))%bool
                then path +:+ b
                else path +:+ "/" +:+ b)
        "" parts.

(** [template.format(filename=name)] for templates whose only braces are
    the field [{filename}]; other braces are reported as an error. *)
Fixpoint format_fuel (fuel : nat) (template name : string) : result string :=
  match fuel with
  | O => Ok template
  | S fuel' =>
      if Str.startswith "{filename}" template then
        match format_fuel fuel' (Str.drop 10 template) name with
        | Ok rest => Ok (name +:+ rest)
        | r => r
        end
      else
        match template with
        | EmptyString => Ok EmptyString
        | String c rest =>
            if (Ascii.eqb c "{" || Ascii.eqb c "}")%bool then Raise (KeyError "format")
            else
              match format_fuel fuel' rest name with
              | Ok r => Ok (String c r)
              | r => r
              end
        end
  end.

Definition format (template name : string) : result string :=
  format_fuel (S (String.length template)) template name.

(** The user expressions this host can evaluate, in the scope of [main]
    (where [platform] is bound); anything else is an unknown name. *)
Definition eval_expr (system : string) (code : string) : result value :=
  let platform := get_platform system in
  if String.eqb code "hard_restart" then Ok (VFun HardRestart)
  else if String.eqb code "do_nothing" then Ok (VFun DoNothing)
  else if String.eqb code "pre_reload_kill_proc" then Ok (VFun PreReloadKillProc)
  else if String.eqb code "get_loader_cmd(platform)" then Ok (VFun (get_loader_cmd platform))
  else if String.eqb code "get_file_loader(platform)" then Ok (get_file_loader platform)
  else if String.eqb code "send_signal(10)" then Ok (VFun (SendSignal 10))
  else if String.eqb code "0" then Ok (VInt 0)
  else if String.eqb code "1/0" then Raise ZeroDivisionError
  else if String.eqb code "sys.exit(1)" then Raise SystemExit
  else Raise (NameError code).

(** The numbers [os.kill] takes on Linux: the signals 1 to 64, and 0,
    which sends nothing. *)
Definition valid_signal (signal : Z) : bool := (0 <=? signal) && (signal <=? 64).

(** A host with POSIX paths and no user functions. [rc_file] is the one
    rc file of the file system, with the settings read from it; [heeds]
    tells whether viewers exit when asked to. The viewers handle every
    other signal and go on. *)
Definition make (system : string) (environ : gmap string string)
    (rc_file : option (string * config)) (heeds : bool) : host :=
  {| h_system := system;
     h_environ := environ;
     h_normalize_path := λ p, p;
     h_isfile := λ p, match rc_file with
                      | Some (path, _) => String.eqb p path
                      | None => false
                      end;
     h_read_config := λ _, match rc_file with
                           | Some (_, conf) => Ok conf
                           | None => Raise FileNotFoundError
                           end;
     h_join := join;
     h_expanduser := λ p, p;
     h_basename := basename;
     h_dirname := dirname;
     h_splitext := splitext;
     h_chdir := λ _, Ok tt;
     h_format := format;
     h_pandoc_stderr := λ _, "";
     h_heeds_term := λ _, heeds;
     h_signal := λ _ signal, if valid_signal signal then Ok true else Raise OSError;
     h_eval := eval_expr system;
     h_user_call := λ _ _ w, UserOutcome (Raise TypeError) w [] |}.

(** No rc file, an empty environment, viewers that exit when asked to. *)
Definition host_of (system : string) : host := make system ∅ None true.

End Posix.

(** A [stat] answer whose three times are [m]. *)
Definition stat_at (m : Z) : stat_result := Stat 33188 1 2 1 1000 1000 10 m m m.

(** ** Sessions used as examples *)

Module Example.

(** [panmk -pvc -o out.pdf doc.md], with or without [--new-viewer]. *)
Definition pvc (new_viewer : bool) : cmd_args :=
  CmdArgs false None false new_viewer false "pvc" None "out.pdf" "doc.md".

(** An rc file [~/.panmk] whose section [pdf] makes [load_file] build the
    viewer's command line, so that [get_reloadable] can start it. *)
Definition rc_loader : config :=
  {[ "pdf" := {[ "load_file" := "get_loader_cmd(platform)" ]} ]}.

(** The same, with [hard_restart] as the reload function. *)
Definition rc_hard_restart : config :=
  {[ "pdf" := {[ "load_file" := "get_loader_cmd(platform)";
                 "reload_file" := "hard_restart" ]} ]}.

(** A section [pdf] whose [reload_file] cannot be evaluated. *)
Definition rc_broken : config :=
  {[ "pdf" := {[ "reload_file" := "1/0" ]} ]}.

(** A section [pdf] whose [load_file] leaves the interpreter. *)
Definition rc_exit : config :=
  {[ "pdf" := {[ "load_file" := "sys.exit(1)" ]} ]}.

(** A Linux host with the rc file [~/.panmk]. *)
Definition linux (rc : config) (heeds : bool) : host :=
  Posix.make "Linux" ∅ (Some ("~/.panmk", rc)) heeds.

(** A poll that reads the metadata [stat_at m], with no interruption. *)
Definition poll (m : Z) : tick := Tick (Ok (stat_at m)) None.

(** The user interrupts the poll. *)
Definition interrupt : tick := Tick (Raise KeyboardInterrupt) None.

(** The viewer's command line and pandoc's, in these sessions. *)
Definition viewer : list string := ["xdg-open"; "out.pdf"].
Definition pandoc : list string := ["pandoc"; "doc.md"; "-o"; "out.pdf"].

End Example.

(** ** What the log shows *)

(** The steps of the watch loop entered in a log, in order. *)
Definition step_of (e : entry) : option step :=
  match e with
  | Enter s => Some s
  | Lib _ => None
  end.

Definition steps (l : list entry) : list step := omap step_of l.

(** The library calls of a log, in order. *)
Definition lib_of (e : entry) : option event :=
  match e with
  | Lib c => Some c
  | Enter _ => None
  end.

Definition calls (l : list entry) : list event := omap lib_of l.

Definition is_sleep (e : event) : bool :=
  match e with
  | ESleep _ => true
  | _ => false
  end.

Definition is_popen (e : event) : bool :=
  match e with
  | EPopen _ _ => true
  | _ => false
  end.

Definition is_kill (e : event) : bool :=
  match e with
  | EKill _ => true
  | _ => false
  end.

Definition is_send_signal (e : event) : bool :=
  match e with
  | ESendSignal _ _ => true
  | _ => false
  end.

Definition is_run (e : event) : bool :=
  match e with
  | ERun _ => true
  | _ => false
  end.

(** The process a library call acts on, if it acts on one. *)
Definition target (e : event) : option nat :=
  match e with
  | ETerminate pid | EWait pid _ | EKill pid | ESendSignal pid _ => Some pid
  | _ => None
  end.

(** The argument a step hands to its hook. *)
Definition step_arg (s : step) : option value :=
  match s with
  | PreReload _ arg | Reload _ arg => Some arg
  | Recompile => None
  end.

(** The three cases in which a hook entry of a section gives way to the
    default: the entry is absent, its evaluation raises an error (an
    exception derived from [Exception]), or it evaluates to a false
    value. *)
Definition falls_back (H : host) (d : gmap string string) (key : string) : Prop :=
  d !! key = None ∨
  (∃ code e, d !! key = Some code ∧ eval_answer H code = Raise e ∧
             is_Exception e = true) ∨
  (∃ code v, d !! key = Some code ∧ eval_answer H code = Ok v ∧
             truthy v = false).

(** The functions of the program itself: no function of the user's. *)
Fixpoint own_function (f : callable) : bool :=
  match f with
  | UserFun _ => false
  | FileLoader cmd => own_function cmd
  | _ => true
  end.

(** A hook that is no function of the user's. *)
Definition own_hook (f : value) : bool :=
  match f with
  | VFun c => own_function c
  | _ => true
  end.

(** ** Properties of transitions *)

(** [keeps I m]: every run of [m] is a transition in [I], a relation
    between the processes before, the processes after and the log. *)
Definition keeps (I : world → world → list entry → Prop) {A} (m : M A) : Prop :=
  ∀ w, I w (final (m w)) (log (m w)).

(** No step of the watch loop is entered. *)
Definition no_step (w w' : world) (l : list entry) : Prop := steps l = [].

(** The transitions of a loop that holds the handle [p] and calls only
    functions of the program on it: the other processes are left as they
    are, [p] keeps its command line and is not revived, every step is
    handed [p], every library call on a process is on [p], and a new
    process is a copy of [p] launched when [p] was already dead. *)
Definition handle_kept (p : nat) (w w' : world) (l : list entry) : Prop :=
  (p < length w)%nat →
  (length w ≤ length w')%nat ∧
  (∀ q, q ≠ p → (q < length w)%nat → w' !! q = w !! q) ∧
  p_args (process_of w' p) = p_args (process_of w p) ∧
  (p_alive (process_of w p) = false → p_alive (process_of w' p) = false) ∧
  (∀ s, Enter s ∈ l → step_arg s = None ∨ step_arg s = Some (VProc p)) ∧
  (∀ e, Lib e ∈ l → target e = None ∨ target e = Some p) ∧
  (∀ q cmd, Lib (EPopen q cmd) ∈ l →
     (length w ≤ q < length w')%nat ∧ cmd = p_args (process_of w p) ∧
     p_alive (process_of w' p) = false) ∧
  (∀ q, (length w ≤ q < length w')%nat →
     ∃ heeds, w' !! q = Some (Process (p_args (process_of w p)) true heeds)).

(** ** Vocabulary for the rc files, the sessions and the polls *)

(** The settings of the rc file [rc]: what [load_rc] merges, when [rc] is
    a file and reads without error. *)
Definition rc_settings (H : host) (rc : string) : option config :=
  let rc := h_normalize_path H rc in
  if h_isfile H rc then
    match h_read_config H rc with
    | Ok config => Some config
    | _ => None
    end
  else None.

(** The section [s] of the rc file [rc]. *)
Definition rc_section (H : host) (rc : string) (s : string) : option (gmap string string) :=
  config ← rc_settings H rc; config !! s.

(** The rc file [rc] is absent, or it reads without error. *)
Definition rc_reads (H : host) (rc : string) : Prop :=
  h_isfile H (h_normalize_path H rc) = true →
  ∃ config, h_read_config H (h_normalize_path H rc) = Ok config.

(** The default rc file of the directory [dir]. *)
Definition default_rc (H : host) (dir : string) : string := h_join H [dir; ".panmk"].

(** The command line with [-e] replaced. *)
Definition set_exec (a : cmd_args) (code : option string) : cmd_args :=
  CmdArgs (a_cd a) code (a_g a) (a_new_viewer a) (a_norc a) (a_action a)
          (a_rc a) (a_output a) (a_filename a).

(** Polls that read the metadata [obs], one after the other, with no
    interruption. *)
Definition observe (obs : list stat_result) : list tick :=
  (λ cur, Tick (Ok cur) None) <$> obs.

(** How many of the metadata [obs] differ from the one read before
    ([pre] at first). *)
Fixpoint changes (pre : option stat_result) (obs : list stat_result) : nat :=
  match obs with
  | [] => 0
  | cur :: rest =>
      ((if decide (Some cur = pre) then 0 else 1) + changes (Some cur) rest)%nat
  end.

(** The metadata kept after the polls [obs]. *)
Definition last_seen (pre : option stat_result) (obs : list stat_result) : option stat_result :=
  match last obs with
  | Some cur => Some cur
  | None => pre
  end.

(** The command line [call_pandoc] runs, and its library calls: the run
    of pandoc, then the print of what pandoc wrote to stderr, if
    anything. *)
Definition pandoc_cmd (path output_file : string) (args : list string) : list string :=
  ["pandoc"; path; "-o"; output_file] ++ args.

Definition pandoc_calls (H : host) (cmd : list string) : list event :=
  ERun cmd ::
  (if String.eqb (h_pandoc_stderr H cmd) "" then []
   else [EPrint (h_pandoc_stderr H cmd)]).

(** The five platform tags [get_platform] can give. *)
Definition known_platforms : list string :=
  ["windows"; "cygin"; "darwin"; "bsd"; "linux"].

(** The stages of [main], in order: the change of directory, the [-e]
    stage, and all that follows. *)
Definition cd_stage (H : host) (args : gmap string value) : M unit :=
  if truthy (dict_get args "cd") then
    filename <- (v <- dict_index args "filename" ;; as_str v) ;;
    os_chdir H (h_dirname H filename)
  else ret tt.

Definition exec_stage (args : gmap string value) : M unit :=
  if is_not_none (dict_get args "exec") then
    try_except (raise AttributeError) is_Exception
      (emit (EPrint "'dict' object has no attribute 'exec'"))
  else ret tt.

Definition after_exec (H : host) (args : gmap string value)
    (pandoc_args : list string) (ticks : list tick) : M Z :=
  let platform := get_platform (h_system H) in
  conf <- load_conf H platform args ;;
  let args := (VStr <$> default ∅ (conf !! "args")) ∪ args in
  hooks <- resolve_hooks H platform conf args ;;
  let load_file := fst hooks in
  let reload_file := fst (snd hooks) in
  let pre_reload_file := snd (snd hooks) in
  run_action H platform args pandoc_args load_file pre_reload_file reload_file ticks.

(** Two dicts that agree on every key but [key]. *)
Definition same_but (key : string) (d1 d2 : gmap string value) : Prop :=
  ∀ k, k ≠ key → d1 !! k = d2 !! k.

(** The directories [load_default_rc] searches outside windows, in
    order. *)
Definition default_rc_dirs : list string :=
  ["/opt/local/share/panmk"; "/usr/local/share/panmk"; "/usr/local/lib/panmk"; "~"].

(** The host [H] with one more file, [path], whose read as an rc file
    raises [e]. *)
Definition with_unreadable (H : host) (path : string) (e : exn) : host :=
  {| h_system := h_system H;
     h_environ := h_environ H;
     h_normalize_path := h_normalize_path H;
     h_isfile := λ p, (String.eqb p path || h_isfile H p)%bool;
     h_read_config := λ p, if String.eqb p path then Raise e else h_read_config H p;
     h_join := h_join H;
     h_expanduser := h_expanduser H;
     h_basename := h_basename H;
     h_dirname := h_dirname H;
     h_splitext := h_splitext H;
     h_chdir := h_chdir H;
     h_format := h_format H;
     h_pandoc_stderr := h_pandoc_stderr H;
     h_heeds_term := h_heeds_term H;
     h_signal := h_signal H;
     h_eval := h_eval H;
     h_user_call := h_user_call H |}.

(** The host [H] with viewers that answer the signals as [react] says. *)
Definition with_signal (H : host) (react : list string → Z → result bool) : host :=
  {| h_system := h_system H;
     h_environ := h_environ H;
     h_normalize_path := h_normalize_path H;
     h_isfile := h_isfile H;
     h_read_config := h_read_config H;
     h_join := h_join H;
     h_expanduser := h_expanduser H;
     h_basename := h_basename H;
     h_dirname := h_dirname H;
     h_splitext := h_splitext H;
     h_chdir := h_chdir H;
     h_format := h_format H;
     h_pandoc_stderr := h_pandoc_stderr H;
     h_heeds_term := h_heeds_term H;
     h_signal := react;
     h_eval := h_eval H;
     h_user_call := h_user_call H |}.

(** Viewers without a handler for [SIGHUP] (1) and [SIGUSR1] (10), the
    reload signals the source names for Linux: either ends them, as is
    its default action; they go on after any other signal. *)
Definition no_handlers (cmd : list string) (signal : Z) : result bool :=
  if Posix.valid_signal signal then Ok (negb ((signal =? 1) || (signal =? 10)))
  else Raise OSError.


(** * Properties *)

(** ** Strings *)

Lemma startswith_app (p rest : string) : Str.startswith p (p +:+ rest) = true.
Proof.
  induction p as [|a p IH]; simpl; [done|].
  by rewrite Ascii.eqb_refl.
Qed.

Lemma startswith_inv (p s : string) :
  Str.startswith p s = true → ∃ rest, s = p +:+ rest.
Proof.
  revert s. induction p as [|a p IH]; intros s Hs.
  - by exists s.
  - destruct s as [|b s]; simpl in Hs; [done|].
    destruct (Ascii.eqb_spec a b) as [->|]; [|done].
    destruct (IH s Hs) as [rest ->]. by exists rest.
Qed.

Lemma contains_unfold (p s : string) :
  Str.contains p s =
  (Str.startswith p s ||
   match s with
   | EmptyString => false
   | String _ s' => Str.contains p s'
   end)%bool.
Proof. by destruct s. Qed.

Lemma contains_occurs (p s : string) :
  Str.contains p s = true ↔ Str.occurs_in p s.
Proof.
  split.
  - induction s as [|b s IH]; simpl; intros Hc.
    + rewrite orb_false_r in Hc.
      destruct (startswith_inv _ _ Hc) as [rest ->]. by exists "", rest.
    + apply orb_true_iff in Hc as [Hc|Hc].
      * destruct (startswith_inv _ _ Hc) as [rest ->]. by exists "", rest.
      * destruct (IH Hc) as (before & after & ->).
        by exists (String b before), after.
  - intros (before & after & ->).
    induction before as [|b before IH].
    + change ("" +:+ p +:+ after) with (p +:+ after).
      rewrite contains_unfold, startswith_app. done.
    + change (String b before +:+ p +:+ after)
        with (String b (before +:+ p +:+ after)).
      rewrite contains_unfold, IH. apply orb_true_r.
Qed.

Lemma lower_ascii_idemp (c : ascii) :
  Str.lower_ascii (Str.lower_ascii c) = Str.lower_ascii c.
Proof.
  destruct c as [[] [] [] [] [] [] [] []]; reflexivity.
Qed.

Lemma lower_idemp (s : string) : Str.lower (Str.lower s) = Str.lower s.
Proof.
  induction s as [|c s IH]; simpl; [done|].
  by rewrite lower_ascii_idemp, IH.
Qed.

(** ** The platform classifier *)

Lemma first_platform_some (plats : list string) (name plat : string) :
  first_platform plats name = Some plat ↔
  ∃ i, plats !! i = Some plat ∧ Str.occurs_in plat name ∧
       ∀ j earlier, (j < i)%nat → plats !! j = Some earlier →
                    ¬ Str.occurs_in earlier name.
Proof.
  induction plats as [|q plats IH]; simpl.
  - split; [done|]. by intros (i & Hi & _).
  - destruct (Str.contains q name) eqn:Hq.
    + apply contains_occurs in Hq. split.
      * intros [= <-]. exists 0%nat. split_and!; [done|done|]. intros; lia.
      * intros (i & Hi & Hocc & Hmin). destruct i as [|i]; [by simplify_eq/=|].
        exfalso. apply (Hmin 0%nat q); [lia|done|done].
    + assert (¬ Str.occurs_in q name) as Hnq.
      { rewrite <- contains_occurs. by rewrite Hq. }
      rewrite IH. split.
      * intros (i & Hi & Hocc & Hmin). exists (S i). split_and!; [done|done|].
        intros [|j] earlier Hj Hl; simplify_eq/=; [done|].
        apply (Hmin j); [lia|done].
      * intros (i & Hi & Hocc & Hmin). destruct i as [|i]; [by simplify_eq/=|].
        exists i. split_and!; [done|done|].
        intros j earlier Hj Hl. apply (Hmin (S j)); [lia|done].
Qed.

Lemma first_platform_none (plats : list string) (name : string) :
  first_platform plats name = None ↔
  ∀ plat, plat ∈ plats → ¬ Str.occurs_in plat name.
Proof.
  induction plats as [|q plats IH]; simpl.
  - split; [|done]. intros _ plat Hin. by apply elem_of_nil in Hin.
  - destruct (Str.contains q name) eqn:Hq.
    + apply contains_occurs in Hq. split; [done|].
      intros Hall. exfalso. apply (Hall q); [left|done].
    + rewrite IH. split.
      * intros Hall plat [->|Hin]%elem_of_cons; [|by apply Hall].
        rewrite <- contains_occurs. by rewrite Hq.
      * intros Hall plat Hin. apply Hall. by right.
Qed.

(** C8. For every operating-system name, [get_platform] gives one tag:
    it lower-cases the name and returns the first tag of
    [windows, cygin, darwin, bsd] that occurs in it as a substring (no
    earlier tag of the list occurring), and [linux] exactly when no tag
    occurs; the answer depends on the name up to case only, and
    [Darwin-21.0], [Some-BSD-Variant] and [Unknown-OS] are classified as
    [darwin], [bsd] and [linux]. *)
Theorem get_platform_first_match (system : string) :
  let name := Str.lower system in
  get_platform system ∈ platforms ++ ["linux"] ∧
  (∀ plat : string,
     get_platform system = plat ↔
     (∃ i, platforms !! i = Some plat ∧ Str.occurs_in plat name ∧
           ∀ j earlier, (j < i)%nat → platforms !! j = Some earlier →
                        ¬ Str.occurs_in earlier name) ∨
     (plat = "linux" ∧ ∀ tag, tag ∈ platforms → ¬ Str.occurs_in tag name)) ∧
  get_platform name = get_platform system ∧
  get_platform "Darwin-21.0" = "darwin" ∧
  get_platform "Some-BSD-Variant" = "bsd" ∧
  get_platform "Unknown-OS" = "linux".
Proof.
  intros name. split_and!; try reflexivity.
  - unfold get_platform. fold name.
    destruct (first_platform platforms name) as [plat|] eqn:E.
    + apply first_platform_some in E as (i & Hi & _).
      apply elem_of_app. left. by eapply list_elem_of_lookup_2.
    + apply elem_of_app. right. by left.
  - intros plat. unfold get_platform. fold name.
    destruct (first_platform platforms name) as [q|] eqn:E.
    + split.
      * intros <-. left. by apply first_platform_some.
      * intros [Hex|[-> Hall]].
        -- apply first_platform_some in Hex. congruence.
        -- apply first_platform_none in Hall. congruence.
    + split.
      * intros <-. right. split; [done|]. by apply first_platform_none.
      * intros [Hex|[-> _]]; [|done].
        apply first_platform_some in Hex. congruence.
  - unfold get_platform, name. by rewrite lower_idemp.
Qed.
(** ** Computations *)

Lemma outcome_eta {A} (o : outcome A) : Outcome (res o) (final o) (log o) = o.
Proof. by destruct o. Qed.

Lemma bind_ret {A B} (a : A) (k : A → M B) (w : world) : bind (ret a) k w = k a w.
Proof. unfold bind, ret; simpl. apply outcome_eta. Qed.

Lemma bind_raise {A B} (e : exn) (k : A → M B) (w : world) :
  bind (raise e) k w = raise e w.
Proof. reflexivity. Qed.

Lemma bind_assoc {A B C} (m : M A) (k : A → M B) (k' : B → M C) (w : world) :
  bind (bind m k) k' w = bind m (λ a, bind (k a) k') w.
Proof.
  unfold bind. destruct (m w) as [[a|e|] w1 l1]; simpl; [|done..].
  destruct (k a w1) as [[b|e|] w2 l2]; simpl; [|done..].
  by rewrite app_assoc.
Qed.

Lemma steps_app (l1 l2 : list entry) : steps (l1 ++ l2) = steps l1 ++ steps l2.
Proof. apply omap_app. Qed.


(** A property of the transitions of a computation: [I w w' l] relates
    the processes before, the processes after and the log. A property that
    holds of no step and composes holds of every computation built from
    computations that have it. *)
Section Transitions.

Context (I : world → world → list entry → Prop).
Hypothesis I_refl : ∀ w, I w w [].
Hypothesis I_trans : ∀ w1 w2 w3 l1 l2, I w1 w2 l1 → I w2 w3 l2 → I w1 w3 (l1 ++ l2).

Lemma keeps_ret {A} (a : A) : keeps I (ret a).
Proof. intros w. apply I_refl. Qed.

Lemma keeps_raise {A} (e : exn) : keeps I (@raise A e).
Proof. intros w. apply I_refl. Qed.

Lemma keeps_lift {A} (r : result A) : keeps I (lift r).
Proof. intros w. apply I_refl. Qed.

Lemma keeps_still_running {A} : keeps I (@still_running A).
Proof. intros w. apply I_refl. Qed.

Lemma keeps_get_world : keeps I get_world.
Proof. intros w. apply I_refl. Qed.

Lemma keeps_bind {A B} (m : M A) (k : A → M B) :
  keeps I m → (∀ a, keeps I (k a)) → keeps I (bind m k).
Proof.
  intros Hm Hk w. unfold bind. specialize (Hm w).
  destruct (m w) as [[a|e|] w1 l1]; simpl in *; [|done..].
  eapply I_trans; [done|apply Hk].
Qed.

Lemma keeps_try_except {A} (m h : M A) (catches : exn → bool) :
  keeps I m → keeps I h → keeps I (try_except m catches h).
Proof.
  intros Hm Hh w. unfold try_except. specialize (Hm w).
  destruct (m w) as [[a|e|] w1 l1]; simpl in *; [done| |done].
  destruct (catches e); simpl; [|done].
  eapply I_trans; [done|apply Hh].
Qed.

Lemma keeps_interruptible {A} (t : tick) (ph : phase) (m : M A) :
  keeps I m → keeps I (interruptible t ph m).
Proof. intros Hm. unfold interruptible. case_decide; [apply keeps_raise|done]. Qed.

Lemma keeps_run_ticks {S} (body : tick → S → M S) (ticks : list tick) (s : S) :
  (∀ t s, keeps I (body t s)) → keeps I (run_ticks body ticks s).
Proof.
  intros Hb. revert s. induction ticks as [|t ts IH]; intros s; simpl.
  - apply keeps_ret.
  - apply keeps_bind; [apply Hb|apply IH].
Qed.

End Transitions.

Ltac keeps_with R T :=
  repeat first
    [ apply (keeps_ret _ R) | apply (keeps_raise _ R) | apply (keeps_lift _ R)
    | apply (keeps_get_world _ R) | apply (keeps_still_running _ R)
    | apply (keeps_bind _ T) | apply (keeps_try_except _ T)
    | apply (keeps_interruptible _ R) | apply (keeps_run_ticks _ R T)
    | progress intros ].

Lemma res_bind {A B} (m : M A) (k : A → M B) (w : world) :
  res (bind m k w) =
  match res (m w) with
  | Ok a => res (k a (final (m w)))
  | Raise e => Raise e
  | Running => Running
  end.
Proof. unfold bind. by destruct (res (m w)). Qed.


Lemma log_bind {A B} (m : M A) (k : A → M B) (w : world) :
  log (bind m k w) =
  log (m w) ++ match res (m w) with
               | Ok a => log (k a (final (m w)))
               | _ => []
               end.
Proof. unfold bind. destruct (res (m w)); simpl; by rewrite ?app_nil_r. Qed.

Lemma dict_index_some (d : gmap string value) (key : string) (v : value) :
  d !! key = Some v → dict_index d key = ret v.
Proof. intros Hk. unfold dict_index. by rewrite Hk. Qed.

Lemma index_str {B} (args : gmap string value) (key s : string)
    (k : string → M B) (w : world) :
  args !! key = Some (VStr s) →
  bind (bind (dict_index args key) as_str) k w = k s w.
Proof.
  intros Hk. unfold dict_index. rewrite Hk.
  rewrite bind_assoc, bind_ret. simpl. apply bind_ret.
Qed.

(** ** No hook enters a step of the watch loop *)

Lemma no_step_refl (w : world) : no_step w w [].
Proof. reflexivity. Qed.

Lemma no_step_trans (w1 w2 w3 : world) (l1 l2 : list entry) :
  no_step w1 w2 l1 → no_step w2 w3 l2 → no_step w1 w3 (l1 ++ l2).
Proof. unfold no_step. intros H1 H2. by rewrite steps_app, H1, H2. Qed.

Ltac quiet := keeps_with no_step_refl no_step_trans.

Lemma steps_lib (l : list event) : steps (Lib <$> l) = [].
Proof. induction l; [done|]. simpl. done. Qed.

Lemma quiet_emit (e : event) : keeps no_step (emit e).
Proof. by intros w. Qed.

Lemma quiet_put_world (w' : world) : keeps no_step (put_world w').
Proof. by intros w. Qed.

Lemma quiet_run_user (u : world → user_outcome) : keeps no_step (run_user u).
Proof. intros w. apply steps_lib. Qed.

Create HintDb quiet.

#[local] Hint Resolve quiet_emit quiet_put_world quiet_run_user : quiet.

Ltac quiet_auto := quiet; auto with quiet.

Lemma quiet_signal_process (pid : nat) (f : process → process) :
  keeps no_step (signal_process pid f).
Proof. unfold signal_process. quiet_auto. Qed.

Lemma quiet_check_cmd (cmd : value) : keeps no_step (check_cmd cmd).
Proof.
  unfold check_cmd. destruct cmd; quiet.
  destruct (as_strings l) as [[|]|]; quiet.
Qed.

#[local] Hint Resolve quiet_signal_process quiet_check_cmd : quiet.

Lemma quiet_subprocess_run (cmd : value) : keeps no_step (subprocess_run cmd).
Proof. unfold subprocess_run. quiet_auto. Qed.

Lemma quiet_popen (H : host) (cmd : value) : keeps no_step (popen H cmd).
Proof. unfold popen. quiet_auto. Qed.

Lemma quiet_proc_wait (proc : value) (timeout : Z) :
  keeps no_step (proc_wait proc timeout).
Proof.
  unfold proc_wait. destruct proc; quiet_auto.
  destruct (p_alive _); quiet.
Qed.

Lemma quiet_proc_kill (proc : value) : keeps no_step (proc_kill proc).
Proof. unfold proc_kill. destruct proc; quiet_auto. Qed.

Lemma quiet_proc_terminate (proc : value) : keeps no_step (proc_terminate proc).
Proof. unfold proc_terminate. destruct proc; quiet_auto. Qed.

Lemma quiet_proc_send_signal (H : host) (proc : value) (signal : Z) :
  keeps no_step (proc_send_signal H proc signal).
Proof.
  unfold proc_send_signal. destruct proc; quiet_auto.
  destruct (p_alive _); quiet_auto.
Qed.

Lemma quiet_proc_args (proc : value) : keeps no_step (proc_args proc).
Proof. unfold proc_args. destruct proc; quiet_auto. Qed.

#[local] Hint Resolve quiet_subprocess_run quiet_popen quiet_proc_wait
  quiet_proc_kill quiet_proc_terminate quiet_proc_send_signal
  quiet_proc_args : quiet.

Lemma quiet_hard_restart (H : host) (proc : value) :
  keeps no_step (hard_restart H proc).
Proof.
  unfold hard_restart.
  apply (keeps_bind _ no_step_trans); [auto with quiet|intros args].
  apply (keeps_bind _ no_step_trans); [auto with quiet|intros _].
  apply (keeps_bind _ no_step_trans); [auto with quiet|intros _].
  apply (keeps_bind _ no_step_trans); [auto with quiet|intros _].
  apply (keeps_bind _ no_step_trans); [auto with quiet|intros _].
  apply (keeps_ret _ no_step_refl).
Qed.

Lemma quiet_call_fun (H : host) (f : callable) (x : value) :
  keeps no_step (call_fun H f x).
Proof.
  revert x. induction f; intros x; simpl.
  - apply (keeps_ret _ no_step_refl).
  - apply (keeps_bind _ no_step_trans); [apply IHf|auto with quiet].
  - apply (keeps_ret _ no_step_refl).
  - apply (keeps_bind _ no_step_trans); [auto with quiet|intros _].
    apply (keeps_ret _ no_step_refl).
  - apply quiet_hard_restart.
  - auto with quiet.
  - unfold pre_reload_kill_proc.
    apply (keeps_bind _ no_step_trans); [auto with quiet|intros _].
    apply (keeps_ret _ no_step_refl).
  - apply (keeps_ret _ no_step_refl).
  - auto with quiet.
Qed.

Lemma quiet_call (H : host) (f x : value) : keeps no_step (call H f x).
Proof.
  destruct f; simpl; try apply (keeps_raise _ no_step_refl).
  apply quiet_call_fun.
Qed.

Lemma quiet_index_str (args : gmap string value) (key : string) :
  keeps no_step (bind (dict_index args key) as_str).
Proof.
  apply (keeps_bind _ no_step_trans).
  - unfold dict_index. destruct (args !! key); quiet.
  - intros a. unfold as_str. destruct a; quiet.
Qed.

Lemma quiet_call_pandoc (H : host) (path output : string) (args : list string) :
  keeps no_step (call_pandoc H path output args).
Proof.
  unfold call_pandoc.
  apply (keeps_bind _ no_step_trans); [apply (keeps_lift _ no_step_refl)|intros f].
  apply (keeps_bind _ no_step_trans); [auto with quiet|intros _].
  apply (keeps_bind _ no_step_trans); [|intros _; apply (keeps_ret _ no_step_refl)].
  destruct (negb _); [auto with quiet|apply (keeps_ret _ no_step_refl)].
Qed.

#[local] Hint Resolve quiet_call quiet_call_pandoc quiet_index_str : quiet.

(** ** One turn of the watch loop *)

Lemma bind_emit {B} (e : event) (k : unit → M B) (w : world) :
  bind (emit e) k w = Outcome (res (k tt w)) (final (k tt w)) (Lib e :: log (k tt w)).
Proof. reflexivity. Qed.

Lemma bind_mark {B} (s : step) (k : unit → M B) (w : world) :
  bind (mark s) k w = Outcome (res (k tt w)) (final (k tt w)) (Enter s :: log (k tt w)).
Proof. reflexivity. Qed.

Lemma bind_lift_ok {A B} (a : A) (k : A → M B) (w : world) :
  bind (lift (Ok a)) k w = k a w.
Proof. apply (bind_ret a k w). Qed.

Lemma bind_then_ret {A B} (m : M A) (b : B) (w : world) :
  bind m (λ _, ret b) w
  = Outcome (match res (m w) with
             | Ok _ => Ok b
             | Raise e => Raise e
             | Running => Running
             end) (final (m w)) (log (m w)).
Proof. unfold bind. destruct (res (m w)); simpl; by rewrite ?app_nil_r. Qed.

Lemma loop_body_same (H : host) (args : gmap string value) (pandoc_args : list string)
    (pre_reload_file reload_file proc : value) (t : tick)
    (filename : string) (cur : stat_result) (w : world) :
  args !! "filename" = Some (VStr filename) →
  t_stat t = Ok cur →
  loop_body H args pandoc_args pre_reload_file reload_file proc t (Some cur) w
  = Outcome (Ok (Some cur)) w [Lib (EStat filename)].
Proof.
  intros Hf Hs. unfold loop_body. rewrite (index_str _ _ _ _ _ Hf).
  unfold os_stat. rewrite bind_assoc, bind_emit, Hs, bind_lift_ok.
  destruct (decide (Some cur ≠ Some cur)) as [Hn|Hn]; [by destruct Hn|].
  reflexivity.
Qed.

Lemma loop_body_differs (H : host) (args : gmap string value) (pandoc_args : list string)
    (pre_reload_file reload_file proc : value) (t : tick)
    (filename : string) (cur : stat_result) (pre : option stat_result) (w : world) :
  args !! "filename" = Some (VStr filename) →
  t_stat t = Ok cur →
  Some cur ≠ pre →
  let o := try_except
             (reload_sequence H args pandoc_args pre_reload_file reload_file proc t)
             is_KeyboardInterrupt (ret tt) w in
  loop_body H args pandoc_args pre_reload_file reload_file proc t pre w
  = Outcome (match res o with
             | Ok _ => Ok (Some cur)
             | Raise e => Raise e
             | Running => Running
             end) (final o) (Lib (EStat filename) :: log o).
Proof.
  intros Hf Hs Hd o. unfold loop_body. rewrite (index_str _ _ _ _ _ Hf).
  unfold os_stat. rewrite bind_assoc, bind_emit, Hs, bind_lift_ok.
  destruct (decide (Some cur ≠ pre)) as [Hn|Hn]; [|done].
  by rewrite bind_then_ret.
Qed.

Lemma steps_enter (s : step) (l : list entry) : steps (Enter s :: l) = s :: steps l.
Proof. reflexivity. Qed.

Lemma steps_lib_cons (e : event) (l : list entry) : steps (Lib e :: l) = steps l.
Proof. reflexivity. Qed.

Lemma try_except_ok {A} (m h : M A) (catches : exn → bool) (w : world) (a : A) :
  res (m w) = Ok a → try_except m catches h w = m w.
Proof. intros Hok. unfold try_except. by rewrite Hok. Qed.

Lemma try_except_caught {A} (m h : M A) (catches : exn → bool) (w : world) (e : exn) :
  res (m w) = Raise e → catches e = true →
  try_except m catches h w
  = Outcome (res (h (final (m w)))) (final (h (final (m w))))
            (log (m w) ++ log (h (final (m w)))).
Proof. intros Hr Hc. unfold try_except. by rewrite Hr, Hc. Qed.


Lemma try_pass_steps {A} (m : M A) (catches : exn → bool) (a : A) (w : world) :
  steps (log (try_except m catches (ret a) w)) = steps (log (m w)).
Proof.
  unfold try_except. destruct (res (m w)) as [|e|]; [done| |done].
  destruct (catches e); simpl; [|done]. by rewrite app_nil_r.
Qed.

(** The steps entered by one run of the three-step sequence: always the
    pre-reload step first, then the next ones as long as nothing raises. *)
Lemma reload_sequence_steps (H : host) (args : gmap string value)
    (pandoc_args : list string) (pre_reload_file reload_file proc : value)
    (t : tick) (w : world) :
  let o := reload_sequence H args pandoc_args pre_reload_file reload_file proc t w in
  let P := PreReload pre_reload_file proc in
  let L := Reload reload_file proc in
  (steps (log o) = [P] ∨ steps (log o) = [P; Recompile] ∨
   steps (log o) = [P; Recompile; L]) ∧
  (res o = Ok tt → steps (log o) = [P; Recompile; L]).
Proof.
  intros o P L. subst o. unfold reload_sequence.
  set (m1 := interruptible t InPreReload (call H pre_reload_file proc)).
  set (m2 := interruptible t InRecompile _).
  set (m3 := interruptible t InReload (call H reload_file proc)).
  assert (keeps no_step m1) as Q1 by (apply (keeps_interruptible _ no_step_refl); auto with quiet).
  assert (keeps no_step m2) as Q2.
  { apply (keeps_interruptible _ no_step_refl).
    apply (keeps_bind _ no_step_trans); [auto with quiet|intros f].
    apply (keeps_bind _ no_step_trans); [auto with quiet|intros f']. auto with quiet. }
  assert (keeps no_step m3) as Q3 by (apply (keeps_interruptible _ no_step_refl); auto with quiet).
  rewrite bind_mark. cbn [res log].
  rewrite log_bind, res_bind, steps_enter, steps_app.
  rewrite (Q1 w). cbn [app].
  destruct (res (m1 w)) as [v1|e1|] eqn:E1.
  2,3: split; [by left|done].
  rewrite bind_mark. cbn [res log].
  rewrite log_bind, res_bind, steps_enter, steps_app.
  rewrite (Q2 (final (m1 w))). cbn [app].
  destruct (res (m2 (final (m1 w)))) as [v2|e2|] eqn:E2.
  2,3: split; [by right; left|done].
  rewrite bind_mark. cbn [res log].
  rewrite bind_then_ret. cbn [res log].
  rewrite steps_enter, (Q3 (final (m2 (final (m1 w))))).
  split; [by right; right|done].
Qed.

Lemma bind_raises {A B} (m : M A) (k : A → M B) (w : world) (e : exn) :
  res (m w) = Raise e → bind m k w = Outcome (Raise e) (final (m w)) (log (m w)).
Proof. intros Hr. unfold bind. by rewrite Hr. Qed.

Lemma bind_returns {A B} (m : M A) (k : A → M B) (w : world) (a : A) :
  res (m w) = Ok a →
  bind m k w = Outcome (res (k a (final (m w)))) (final (k a (final (m w))))
                       (log (m w) ++ log (k a (final (m w)))).
Proof. intros Hr. unfold bind. by rewrite Hr. Qed.

Lemma interruptible_none {A} (t : tick) (ph : phase) (m : M A) :
  t_interrupt t = None → interruptible t ph m = m.
Proof. intros Hi. unfold interruptible. rewrite Hi. by destruct (decide _). Qed.

Lemma call_pandoc_ok (H : host) (path output out : string) (args : list string)
    (w : world) :
  h_format H output (fst (h_splitext H (h_basename H path))) = Ok out →
  call_pandoc H path output args w
  = Outcome (Ok out) w (Lib <$> pandoc_calls H (pandoc_cmd path out args)).
Proof.
  intros Hf. unfold call_pandoc, pandoc_calls. rewrite Hf, bind_lift_ok, bind_emit.
  fold (pandoc_cmd path out args).
  destruct (String.eqb (h_pandoc_stderr H (pandoc_cmd path out args)) ""); reflexivity.
Qed.

Lemma calls_app (l1 l2 : list entry) : calls (l1 ++ l2) = calls l1 ++ calls l2.
Proof. apply omap_app. Qed.

Lemma calls_lib (l : list event) : calls (Lib <$> l) = l.
Proof. induction l as [|e l IH]; [done|]. cbn. by rewrite <- IH at 2. Qed.

(** One run of the sequence that nobody interrupts and in which nothing
    raises: the pre-reload hook is called on the handle, pandoc is run on
    the source file, the reload hook is called on the handle, in that
    order and once each. *)
Lemma reload_sequence_calls (H : host) (args : gmap string value)
    (pandoc_args : list string) (pre_reload_file reload_file proc : value)
    (t : tick) (filename output out : string) (v1 v3 : value) (w : world) :
  args !! "filename" = Some (VStr filename) →
  args !! "output" = Some (VStr output) →
  h_format H output (fst (h_splitext H (h_basename H filename))) = Ok out →
  t_interrupt t = None →
  let o1 := call H pre_reload_file proc w in
  let o3 := call H reload_file proc (final o1) in
  res o1 = Ok v1 →
  res o3 = Ok v3 →
  reload_sequence H args pandoc_args pre_reload_file reload_file proc t w
  = Outcome (Ok tt) (final o3)
      (Enter (PreReload pre_reload_file proc) :: log o1 ++
       Enter Recompile ::
       (Lib <$> pandoc_calls H (pandoc_cmd filename out pandoc_args)) ++
       Enter (Reload reload_file proc) :: log o3).
Proof.
  intros Hf Ho Hfmt Hi o1 o3 H1 H3. unfold reload_sequence.
  rewrite !(interruptible_none _ _ _ Hi).
  rewrite bind_mark, (bind_returns _ _ _ v1 H1). fold o1. cbn [res final log].
  rewrite bind_mark.
  rewrite bind_assoc, (index_str _ _ _ _ _ Hf).
  rewrite bind_assoc, (index_str _ _ _ _ _ Ho).
  rewrite (bind_returns _ _ _ out); rewrite (call_pandoc_ok _ _ _ _ _ _ Hfmt); [|done].
  cbn [res final log]. rewrite bind_mark, (bind_returns _ _ _ v3 H3). fold o3.
  cbn [res final log ret]. by rewrite app_nil_r.
Qed.

(** C4. One turn of the watch loop, with the source file's metadata [cur]
    read by [os.stat] and [pre] the value kept from before ([None] at
    first): a step of the pre-reload, recompile, reload sequence is
    entered if and only if [cur] differs from [pre]; the steps entered are
    always an initial part of that one sequence, in that order; with equal
    metadata the turn does nothing but the [stat] call; with differing
    metadata, and no exception cutting the sequence short, exactly the
    three steps are entered, in order, and each step does its work: the
    turn calls the pre-reload hook on the handle, runs pandoc on the
    source file and the output path, and calls the reload hook on the
    handle, once each and in that order, and nothing else but the [stat]
    call; the turn records [cur], so that a following poll that reads the
    same metadata triggers nothing. *)
Theorem reload_iff_metadata_differs (H : host) (args : gmap string value)
    (pandoc_args : list string) (pre_reload_file reload_file proc : value)
    (t : tick) (pre : option stat_result) (filename : string)
    (cur : stat_result) (w : world) :
  args !! "filename" = Some (VStr filename) →
  t_stat t = Ok cur →
  let o := loop_body H args pandoc_args pre_reload_file reload_file proc t pre w in
  let full := [PreReload pre_reload_file proc; Recompile; Reload reload_file proc] in
  (steps (log o) ≠ [] ↔ Some cur ≠ pre) ∧
  (pre = None → steps (log o) ≠ []) ∧
  steps (log o) `prefix_of` full ∧
  (Some cur = pre → o = Outcome (Ok pre) w [Lib (EStat filename)]) ∧
  (Some cur ≠ pre →
   res (reload_sequence H args pandoc_args pre_reload_file reload_file proc t w) = Ok tt →
   steps (log o) = full ∧ res o = Ok (Some cur)) ∧
  (∀ pre', res o = Ok pre' → pre' = Some cur) ∧
  (∀ t' pre', res o = Ok pre' → t_stat t' = Ok cur →
     loop_body H args pandoc_args pre_reload_file reload_file proc t' pre' (final o)
     = Outcome (Ok (Some cur)) (final o) [Lib (EStat filename)]) ∧
  (∀ output out v1 v3,
     Some cur ≠ pre →
     t_interrupt t = None →
     args !! "output" = Some (VStr output) →
     h_format H output (fst (h_splitext H (h_basename H filename))) = Ok out →
     let o1 := call H pre_reload_file proc w in
     let o3 := call H reload_file proc (final o1) in
     res o1 = Ok v1 →
     res o3 = Ok v3 →
     o = Outcome (Ok (Some cur)) (final o3)
           (Lib (EStat filename) ::
            Enter (PreReload pre_reload_file proc) :: log o1 ++
            Enter Recompile ::
            (Lib <$> pandoc_calls H (pandoc_cmd filename out pandoc_args)) ++
            Enter (Reload reload_file proc) :: log o3) ∧
     calls (log o)
     = EStat filename :: calls (log o1)
       ++ pandoc_calls H (pandoc_cmd filename out pandoc_args) ++ calls (log o3)).
Proof.
  intros Hf Hs o full.
  assert (∀ pre', res o = Ok pre' → pre' = Some cur) as Hrec.
  { intros pre'. subst o. destruct (decide (Some cur = pre)) as [<-|Hd].
    - rewrite (loop_body_same _ _ _ _ _ _ _ _ _ _ Hf Hs). cbn. congruence.
    - rewrite (loop_body_differs _ _ _ _ _ _ _ _ _ _ _ Hf Hs Hd). cbn.
      destruct (res _); congruence. }
  assert (Some cur ≠ pre → steps (log o) ≠ [] ∧ steps (log o) `prefix_of` full ∧
          (res (reload_sequence H args pandoc_args pre_reload_file reload_file proc t w) = Ok tt →
           steps (log o) = full ∧ res o = Ok (Some cur))) as Hdiff.
  { intros Hd. subst o. rewrite (loop_body_differs _ _ _ _ _ _ _ _ _ _ _ Hf Hs Hd).
    cbn [log res]. rewrite steps_lib_cons, try_pass_steps.
    destruct (reload_sequence_steps H args pandoc_args pre_reload_file reload_file proc t w)
      as [Hshape Hfull].
    cbn zeta in Hshape, Hfull. split_and!.
    - destruct Hshape as [->|[->| ->]]; done.
    - destruct Hshape as [->|[->| ->]]; subst full.
      + by exists [Recompile; Reload reload_file proc].
      + by exists [Reload reload_file proc].
      + by exists [].
    - intros Hok. split; [by apply Hfull|].
      by rewrite (try_except_ok _ _ _ _ _ Hok), Hok. }
  assert (Some cur = pre → o = Outcome (Ok pre) w [Lib (EStat filename)]) as Hsame.
  { intros <-. apply (loop_body_same _ _ _ _ _ _ _ _ _ _ Hf Hs). }
  split_and!.
  - split; [|by intros Hd; apply Hdiff].
    intros Hne Heq. apply Hne. by rewrite (Hsame Heq).
  - intros ->. by apply Hdiff.
  - destruct (decide (Some cur = pre)) as [Heq|Hd]; [|by apply Hdiff].
    rewrite (Hsame Heq). by exists full.
  - done.
  - intros Hd. by apply Hdiff.
  - done.
  - intros t' pre' Hok Hs'. rewrite (Hrec _ Hok).
    apply (loop_body_same _ _ _ _ _ _ _ _ _ _ Hf Hs').
  - intros output out v1 v3 Hd Hi Ho Hfmt o1 o3 H1 H3.
    pose proof (reload_sequence_calls H args pandoc_args pre_reload_file reload_file
                  proc t filename output out v1 v3 w Hf Ho Hfmt Hi H1 H3) as Hseq.
    cbn zeta in Hseq. fold o1 in Hseq. fold o3 in Hseq.
    assert (o = Outcome (Ok (Some cur)) (final o3)
                  (Lib (EStat filename) ::
                   Enter (PreReload pre_reload_file proc) :: log o1 ++
                   Enter Recompile ::
                   (Lib <$> pandoc_calls H (pandoc_cmd filename out pandoc_args)) ++
                   Enter (Reload reload_file proc) :: log o3)) as Heq.
    { subst o. rewrite (loop_body_differs _ _ _ _ _ _ _ _ _ _ _ Hf Hs Hd). cbn zeta.
      rewrite (try_except_ok _ _ _ _ tt); by rewrite Hseq. }
    split; [exact Heq|]. rewrite Heq. cbn [log].
    change (calls (Lib ?a :: Enter ?s1 :: ?l)) with (a :: calls l).
    rewrite calls_app.
    change (calls (Enter ?s1 :: ?l)) with (calls l).
    rewrite calls_app, calls_lib. reflexivity.
Qed.

Lemma reload_iff_metadata_differs_witness :
  let H := Posix.host_of "Linux" in
  let args := vars (CmdArgs false None false false false "pvc" None "out.pdf" "doc.md") in
  let hook := VFun (SendSignal 1) in
  let t := Tick (Ok (stat_at 1)) None in
  let w := [Process ["xdg-open"; "out.pdf"] true true] in
  let o := loop_body H args [] (VFun PreReloadKillProc) hook (VProc 0) t None w in
  args !! "filename" = Some (VStr "doc.md") ∧
  t_stat t = Ok (stat_at 1) ∧
  steps (log o)
  = [PreReload (VFun PreReloadKillProc) (VProc 0); Recompile; Reload hook (VProc 0)] ∧
  calls (log o)
  = [EStat "doc.md"; EKill 0; ERun ["pandoc"; "doc.md"; "-o"; "out.pdf"];
     ESendSignal 0 1] ∧
  loop_body H args [] (VFun PreReloadKillProc) hook (VProc 0) t (Some (stat_at 1)) (final o)
  = Outcome (Ok (Some (stat_at 1))) (final o) [Lib (EStat "doc.md")].
Proof.
  intros H args hook t w o.
  assert (args !! "filename" = Some (VStr "doc.md")) as Hf by reflexivity.
  assert (t_stat t = Ok (stat_at 1)) as Hs by reflexivity.
  destruct (reload_iff_metadata_differs H args [] (VFun PreReloadKillProc) hook (VProc 0)
              t None "doc.md" (stat_at 1) w Hf Hs)
    as (_ & _ & _ & _ & Hfull & _ & Hnext & Hcalls).
  split_and!; [done|done| | |].
  - apply Hfull; [done|reflexivity].
  - exact (proj2 (Hcalls "out.pdf" "out.pdf" VNone VNone ltac:(discriminate) eq_refl
                    eq_refl eq_refl eq_refl eq_refl)).
  - apply (Hnext t (Some (stat_at 1))); reflexivity.
Defined.

(** ** The loop as a whole *)

Lemma bind_ext {A B} (m : M A) (k k' : A → M B) (w : world) :
  (∀ a w', k a w' = k' a w') → bind m k w = bind m k' w.
Proof.
  intros Hk. unfold bind. destruct (res (m w)); [|done..]. by rewrite Hk.
Qed.

Lemma run_ticks_app {S} (body : tick → S → M S) (ts1 ts2 : list tick) (s : S) (w : world) :
  run_ticks body (ts1 ++ ts2) s w
  = bind (run_ticks body ts1 s) (run_ticks body ts2) w.
Proof.
  revert s w. induction ts1 as [|t ts1 IH]; intros s w; simpl.
  - by rewrite bind_ret.
  - rewrite bind_assoc. apply bind_ext. intros s' w'. apply IH.
Qed.

Lemma while_true_never_returns {S} (body : tick → S → M S) (ticks : list tick)
    (s : S) (w : world) (u : unit) :
  res (while_true body ticks s w) ≠ Ok u.
Proof.
  unfold while_true. rewrite res_bind.
  by destruct (res (run_ticks body ticks s w)).
Qed.

Lemma after_while_true {S} (body : tick → S → M S) (ticks : list tick)
    (s : S) (k : unit → M unit) (w : world) :
  bind (while_true body ticks s) k w = while_true body ticks s w.
Proof.
  pose proof (while_true_never_returns body ticks s w) as Hn.
  unfold bind at 1. destruct (while_true body ticks s w) as [[u|e|] w' l]; simpl in *.
  - by destruct (Hn u).
  - done.
  - done.
Qed.

Lemma loop_body_poll_raises (H : host) (args : gmap string value) (pandoc_args : list string)
    (pre_reload_file reload_file proc : value) (t : tick)
    (filename : string) (e : exn) (pre : option stat_result) (w : world) :
  args !! "filename" = Some (VStr filename) →
  t_stat t = Raise e →
  loop_body H args pandoc_args pre_reload_file reload_file proc t pre w
  = Outcome (Raise e) w [Lib (EStat filename)].
Proof.
  intros Hf Hs. unfold loop_body. rewrite (index_str _ _ _ _ _ Hf).
  unfold os_stat. rewrite bind_assoc, bind_emit, Hs. reflexivity.
Qed.

Lemma watch_no_sleep (H : host) (args : gmap string value) (pandoc_args : list string)
    (pre_reload_file reload_file proc : value) (ticks : list tick) (w : world) :
  watch H args pandoc_args pre_reload_file reload_file proc ticks w
  = try_except
      (while_true (loop_body H args pandoc_args pre_reload_file reload_file proc)
                  ticks None)
      is_KeyboardInterrupt (ret tt) w.
Proof. unfold watch, try_except. by rewrite after_while_true. Qed.

(** C5 (the code does otherwise). The [sleep(1)] of [continuous] stands
    after the [while True] loop, which never ends normally: whatever
    follows the loop is never run, so the outer [try] behaves as the loop
    alone, and no delay separates two polls. In the session
    [panmk -pvc -o out.pdf doc.md] with three polls of an unchanged file,
    the library calls are the first compilation and launch, the first
    poll with its recompilation and reload signal, and two more polls,
    with no [sleep] between them. *)
Theorem poll_delay_never_runs :
  (∀ (H : host) (args : gmap string value) (pandoc_args : list string)
     (pre_reload_file reload_file proc : value) (ticks : list tick) (w : world),
     (∀ k : unit → M unit,
        bind (while_true (loop_body H args pandoc_args pre_reload_file reload_file proc)
                         ticks None) k w
        = while_true (loop_body H args pandoc_args pre_reload_file reload_file proc)
                     ticks None w) ∧
     watch H args pandoc_args pre_reload_file reload_file proc ticks w
     = try_except
         (while_true (loop_body H args pandoc_args pre_reload_file reload_file proc)
                     ticks None)
         is_KeyboardInterrupt (ret tt) w) ∧
  (let o := main (Example.linux Example.rc_loader true) (Example.pvc false) []
                 [Example.poll 1; Example.poll 1; Example.poll 1] [] in
   res o = Running ∧
   calls (log o) =
     [ ERun Example.pandoc; EPopen 0 Example.viewer;
       EStat "doc.md"; ERun Example.pandoc; ESendSignal 0 1;
       EStat "doc.md"; EStat "doc.md" ] ∧
   filter (λ e, is_sleep e = true) (calls (log o)) = []).
Proof.
  split.
  - intros. split; [intros k; apply after_while_true|apply watch_no_sleep].
  - vm_compute. done.
Qed.

(** ** Interruptions *)

Lemma loop_body_interrupted (H : host) (args : gmap string value) (pandoc_args : list string)
    (pre_reload_file reload_file proc : value) (t : tick)
    (filename : string) (cur : stat_result) (pre : option stat_result) (w : world) :
  args !! "filename" = Some (VStr filename) →
  t_stat t = Ok cur →
  Some cur ≠ pre →
  let seq := reload_sequence H args pandoc_args pre_reload_file reload_file proc t w in
  res seq = Raise KeyboardInterrupt →
  loop_body H args pandoc_args pre_reload_file reload_file proc t pre w
  = Outcome (Ok (Some cur)) (final seq) (Lib (EStat filename) :: log seq).
Proof.
  intros Hf Hs Hd seq Hi.
  rewrite (loop_body_differs _ _ _ _ _ _ _ _ _ _ _ Hf Hs Hd). cbn zeta.
  rewrite (try_except_caught _ _ _ _ _ Hi eq_refl). cbn.
  by rewrite app_nil_r.
Qed.

Lemma interrupt_at_pre_reload (H : host) (args : gmap string value)
    (pandoc_args : list string) (pre_reload_file reload_file proc : value)
    (t : tick) (w : world) :
  t_interrupt t = Some InPreReload →
  reload_sequence H args pandoc_args pre_reload_file reload_file proc t w
  = Outcome (Raise KeyboardInterrupt) w [Enter (PreReload pre_reload_file proc)].
Proof.
  intros Hi. unfold reload_sequence. rewrite bind_mark.
  assert (interruptible t InPreReload (call H pre_reload_file proc)
          = raise KeyboardInterrupt) as ->.
  { unfold interruptible. rewrite Hi. by destruct (decide _). }
  reflexivity.
Qed.

Lemma watch_poll_interrupted (H : host) (args : gmap string value) (pandoc_args : list string)
    (pre_reload_file reload_file proc : value) (ticks1 ticks2 : list tick) (t : tick)
    (filename : string) (pre : option stat_result) (w : world) :
  args !! "filename" = Some (VStr filename) →
  t_stat t = Raise KeyboardInterrupt →
  let body := loop_body H args pandoc_args pre_reload_file reload_file proc in
  res (run_ticks body ticks1 None w) = Ok pre →
  watch H args pandoc_args pre_reload_file reload_file proc (ticks1 ++ t :: ticks2) w
  = Outcome (Ok tt) (final (run_ticks body ticks1 None w))
            (log (run_ticks body ticks1 None w) ++ [Lib (EStat filename)]).
Proof.
  intros Hf Hs body Hr. rewrite watch_no_sleep. fold body.
  assert (while_true body (ticks1 ++ t :: ticks2) None w
          = Outcome (Raise KeyboardInterrupt) (final (run_ticks body ticks1 None w))
                    (log (run_ticks body ticks1 None w) ++ [Lib (EStat filename)])) as Hw.
  { unfold while_true.
    assert (run_ticks body (ticks1 ++ t :: ticks2) None w
            = Outcome (Raise KeyboardInterrupt) (final (run_ticks body ticks1 None w))
                      (log (run_ticks body ticks1 None w) ++ [Lib (EStat filename)])) as Hrun.
    { rewrite run_ticks_app, (bind_returns _ _ _ _ Hr). simpl.
      rewrite (bind_raises _ _ _ KeyboardInterrupt);
        unfold body; rewrite (loop_body_poll_raises _ _ _ _ _ _ _ _ _ _ _ Hf Hs); done. }
    rewrite (bind_raises _ _ _ KeyboardInterrupt); by rewrite Hrun. }
  unfold try_except. rewrite Hw. cbn. by rewrite app_nil_r.
Qed.

Lemma run_action_pvc (H : host) (platform : string) (args : gmap string value)
    (pandoc_args : list string) (load_file pre_reload_file reload_file : value)
    (ticks : list tick) (w : world) :
  args !! "action" = Some (VStr "pvc") →
  run_action H platform args pandoc_args (Some load_file) pre_reload_file reload_file ticks w
  = bind (continuous H platform args pandoc_args load_file pre_reload_file reload_file ticks)
         (λ _, ret 0) w.
Proof.
  intros Ha. unfold run_action, dict_index. rewrite Ha, bind_ret. cbn [eq_str].
  change (String.eqb "pvc" "p") with false. change (String.eqb "pvc" "pv") with false.
  change (String.eqb "pvc" "pvc") with true. cbn [read_local].
  by rewrite bind_assoc, bind_ret.
Qed.

(** C6. With the watch loop running: a [KeyboardInterrupt] raised while
    the pre-reload, recompile, reload sequence runs is caught; the turn
    ends normally with the new metadata recorded, and the loop goes on
    with the next poll (an interruption at the start of the pre-reload
    step is such a case): the outer [try] of [continuous] then holds,
    after what that turn did, all that the later turns do. A
    [KeyboardInterrupt] raised by the poll ([os.stat]) ends the loop,
    after the turns before it have run and with that one [stat] call as
    the last thing done: [continuous] returns normally and the session
    returns the exit status 0. *)
Theorem interrupt_handling (H : host) (platform : string) (args : gmap string value)
    (pandoc_args : list string) (load_file pre_reload_file reload_file : value)
    (filename : string) :
  args !! "filename" = Some (VStr filename) →
  args !! "action" = Some (VStr "pvc") →
  let body := loop_body H args pandoc_args pre_reload_file reload_file in
  let seq := reload_sequence H args pandoc_args pre_reload_file reload_file in
  let watch := watch H args pandoc_args pre_reload_file reload_file in
  (∀ proc t pre cur w,
     t_stat t = Ok cur → Some cur ≠ pre →
     res (seq proc t w) = Raise KeyboardInterrupt →
     body proc t pre w
     = Outcome (Ok (Some cur)) (final (seq proc t w))
               (Lib (EStat filename) :: log (seq proc t w)) ∧
     ∀ ticks,
       run_ticks (body proc) (t :: ticks) pre w
       = let o := run_ticks (body proc) ticks (Some cur) (final (seq proc t w)) in
         Outcome (res o) (final o)
                 ((Lib (EStat filename) :: log (seq proc t w)) ++ log o)) ∧
  (∀ proc t w,
     t_interrupt t = Some InPreReload →
     res (seq proc t w) = Raise KeyboardInterrupt) ∧
  (∀ proc t cur ticks stop later pre' w,
     let turn := seq proc t w in
     let turns := run_ticks (body proc) ticks (Some cur) (final turn) in
     t_stat t = Ok cur →
     res turn = Raise KeyboardInterrupt →
     res turns = Ok pre' →
     t_stat stop = Raise KeyboardInterrupt →
     watch proc (t :: ticks ++ stop :: later) w
     = Outcome (Ok tt) (final turns)
               ((Lib (EStat filename) :: log turn) ++ log turns
                ++ [Lib (EStat filename)])) ∧
  (∀ proc ticks1 t ticks2 pre w,
     let start := first_launch H args pandoc_args load_file w in
     let turns := run_ticks (body proc) ticks1 None (final start) in
     res start = Ok proc →
     res turns = Ok pre →
     t_stat t = Raise KeyboardInterrupt →
     watch proc (ticks1 ++ t :: ticks2) (final start)
     = Outcome (Ok tt) (final turns) (log turns ++ [Lib (EStat filename)]) ∧
     continuous H platform args pandoc_args load_file pre_reload_file
                reload_file (ticks1 ++ t :: ticks2) w
     = Outcome (Ok tt) (final turns)
               (log start ++ log turns ++ [Lib (EStat filename)]) ∧
     run_action H platform args pandoc_args (Some load_file) pre_reload_file
                reload_file (ticks1 ++ t :: ticks2) w
     = Outcome (Ok 0) (final turns)
               (log start ++ log turns ++ [Lib (EStat filename)])).
Proof.
  intros Hf Ha body seq watch'. 
  assert (∀ proc t pre cur w,
            t_stat t = Ok cur → Some cur ≠ pre →
            res (seq proc t w) = Raise KeyboardInterrupt →
            body proc t pre w
            = Outcome (Ok (Some cur)) (final (seq proc t w))
                      (Lib (EStat filename) :: log (seq proc t w)) ∧
            ∀ ticks,
              run_ticks (body proc) (t :: ticks) pre w
              = let o := run_ticks (body proc) ticks (Some cur) (final (seq proc t w)) in
                Outcome (res o) (final o)
                        ((Lib (EStat filename) :: log (seq proc t w)) ++ log o)) as Hturn.
  { intros proc t pre cur w Hs Hd Hi.
    pose proof (loop_body_interrupted H args pandoc_args pre_reload_file reload_file
                  proc t filename cur pre w Hf Hs Hd Hi) as Hb.
    split; [exact Hb|]. intros ticks. cbn [run_ticks].
    rewrite (bind_returns _ _ _ (Some cur)); unfold body; rewrite Hb; done. }
  split_and!.
  - exact Hturn.
  - intros proc t w Hi. unfold seq.
    by rewrite (interrupt_at_pre_reload _ _ _ _ _ _ _ _ Hi).
  - intros proc t cur ticks stop later pre' w turn turns Hs Hi Hr Hstop.
    assert (Some cur ≠ (None : option stat_result)) as Hd by done.
    destruct (Hturn proc t None cur w Hs Hd Hi) as [_ Hrun].
    specialize (Hrun ticks). cbn zeta in Hrun. fold turn in Hrun. fold turns in Hrun.
    assert (res (run_ticks (body proc) (t :: ticks) None w) = Ok pre') as Hr'
      by (by rewrite Hrun).
    pose proof (watch_poll_interrupted H args pandoc_args pre_reload_file reload_file
                  proc (t :: ticks) later stop filename pre' w Hf Hstop Hr') as Hw.
    fold body in Hw. unfold watch'.
    change (t :: ticks ++ stop :: later) with ((t :: ticks) ++ stop :: later).
    rewrite Hw, Hrun. cbn [final log]. by rewrite <- app_assoc.
  - intros proc ticks1 t ticks2 pre w start turns Hstart Hrun Hs.
    pose proof (watch_poll_interrupted H args pandoc_args pre_reload_file reload_file
                  proc ticks1 ticks2 t filename pre (final start) Hf Hs Hrun) as Hw.
    fold body in Hw. fold turns in Hw.
    assert (continuous H platform args pandoc_args load_file pre_reload_file
              reload_file (ticks1 ++ t :: ticks2) w
            = Outcome (Ok tt) (final turns)
                      (log start ++ log turns ++ [Lib (EStat filename)])) as Hc.
    { unfold continuous. rewrite (bind_returns _ _ _ proc Hstart). fold start.
      by rewrite Hw. }
    split_and!; [exact Hw|exact Hc|].
    rewrite (run_action_pvc _ _ _ _ _ _ _ _ _ Ha).
    rewrite (bind_returns _ _ _ tt); rewrite Hc; [|done].
    cbn [res final log ret]. by rewrite app_nil_r.
Qed.

Lemma interrupt_handling_witness :
  let H := Example.linux Example.rc_loader true in
  let args := vars (Example.pvc false) in
  let load_file := VFun (LoaderCmd ["xdg-open"]) in
  let reload_file := VFun (SendSignal 1) in
  let ticks := [Example.poll 1; Tick (Ok (stat_at 2)) (Some InRecompile); Example.poll 2] in
  let o := run_action H "linux" args [] (Some load_file) (VFun LambdaNone) reload_file
             (ticks ++ Example.interrupt :: [Example.poll 3]) [] in
  args !! "filename" = Some (VStr "doc.md") ∧
  args !! "action" = Some (VStr "pvc") ∧
  res o = Ok 0 ∧
  calls (log o)
  = [ERun Example.pandoc; EPopen 0 Example.viewer;
     EStat "doc.md"; ERun Example.pandoc; ESendSignal 0 1;
     EStat "doc.md";
     EStat "doc.md";
     EStat "doc.md"].
Proof.
  intros H args load_file reload_file ticks o.
  assert (args !! "filename" = Some (VStr "doc.md")) as Hf by reflexivity.
  assert (args !! "action" = Some (VStr "pvc")) as Ha by reflexivity.
  split_and!; [done..| |].
  - destruct (interrupt_handling H "linux" args [] load_file (VFun LambdaNone)
                reload_file "doc.md" Hf Ha) as (_ & _ & _ & Hstop).
    destruct (Hstop (VProc 0) ticks Example.interrupt [Example.poll 3]
                (Some (stat_at 2)) [] eq_refl eq_refl eq_refl) as (_ & _ & Hrun).
    exact (f_equal res Hrun).
  - reflexivity.
Defined.

(** ** Hard restart *)

(** C1 (the code does otherwise). [hard_restart] on a live viewer that
    has not exited five seconds after [terminate()]: [proc.wait] raises
    [TimeoutExpired], so the function ends there; [proc.kill()] is not
    called, no viewer is launched again and the process stays alive. In
    the session [panmk -pvc -o out.pdf doc.md] whose rc file makes
    [hard_restart] the reload function, the first reload ends the whole
    session with that exception. *)
Theorem hard_restart_timeout_escapes :
  (∀ (H : host) (args : list string),
     hard_restart H (VProc 0) [Process args true false]
     = Outcome (Raise TimeoutExpired) [Process args true false]
               [Lib (ETerminate 0); Lib (EWait 0 5)]) ∧
  (let o := main (Example.linux Example.rc_hard_restart false) (Example.pvc false) []
                 [Example.poll 1; Example.poll 2] [] in
   res o = Raise TimeoutExpired ∧
   final o = [Process Example.viewer true false] ∧
   calls (log o) =
     [ ERun Example.pandoc; EPopen 0 Example.viewer;
       EStat "doc.md"; ERun Example.pandoc; ETerminate 0; EWait 0 5 ] ∧
   filter (λ e, is_kill e = true) (calls (log o)) = []).
Proof.
  split.
  - intros H args. reflexivity.
  - vm_compute. done.
Qed.

(** ** The new-viewer mode *)

(** C2 (the code does otherwise). With [--new-viewer], [main] makes
    [pre_reload_file] the kill function and [reload_file] the load
    function, but the watch loop calls [reload_file(proc)]: the load
    function receives the process handle, not the output path. The
    platform's file loader raises [TypeError] on a handle; with the
    default settings the session ends with [TypeError] already at the
    first launch. With an rc file whose load function builds the viewer's
    command line, two changes of the source file give two kills of the
    first viewer and two reload calls on its handle, which launch
    nothing: the only launch of the session is the first one. *)
Theorem new_viewer_launches_nothing :
  (∀ (H : host) (platform : string) (pid : nat) (w : world),
     call H (get_file_loader platform) (VProc pid) w = Outcome (Raise TypeError) w []) ∧
  (let H := Posix.host_of "Linux" in
   res (resolve_hooks H "linux" ∅ (vars (Example.pvc true)) [])
   = Ok (Some (get_file_loader "linux"), (get_file_loader "linux", VFun PreReloadKillProc)) ∧
   let o := main H (Example.pvc true) [] [Example.poll 1; Example.poll 2] [] in
   res o = Raise TypeError ∧
   calls (log o) = [ERun Example.pandoc; ERun Example.viewer] ∧
   steps (log o) = []) ∧
  (let o := main (Example.linux Example.rc_loader true) (Example.pvc true) []
                 [Example.poll 1; Example.poll 2] [] in
   res o = Running ∧
   final o = [Process Example.viewer false true] ∧
   steps (log o) =
     [ PreReload (VFun PreReloadKillProc) (VProc 0); Recompile;
       Reload (VFun (LoaderCmd ["xdg-open"])) (VProc 0);
       PreReload (VFun PreReloadKillProc) (VProc 0); Recompile;
       Reload (VFun (LoaderCmd ["xdg-open"])) (VProc 0) ] ∧
   calls (log o) =
     [ ERun Example.pandoc; EPopen 0 Example.viewer;
       EStat "doc.md"; EKill 0; ERun Example.pandoc;
       EStat "doc.md"; EKill 0; ERun Example.pandoc ] ∧
   filter (λ e, is_popen e = true) (calls (log o)) = [EPopen 0 Example.viewer] ∧
   filter (λ e, is_send_signal e = true) (calls (log o)) = []).
Proof.
  split_and!.
  - intros H platform pid w. unfold get_file_loader, get_loader_cmd.
    repeat case_decide; reflexivity.
  - vm_compute. done.
  - vm_compute. done.
Qed.

(** ** The override resolver *)

Lemma output_ext_some (H : host) (output : string) :
  output_ext H output = Some (Str.drop 1 (snd (h_splitext H (h_basename H output)))).
Proof. reflexivity. Qed.

Lemma resolve_hooks_eq (H : host) (platform : string) (conf : config)
    (args : gmap string value) (output : string) (w : world) :
  args !! "output" = Some (VStr output) →
  resolve_hooks H platform conf args w
  = bind (resolve_load_file H platform conf (output_ext H output))
         (λ load_file,
            bind (resolve_reload_hooks H platform conf (output_ext H output) args load_file)
                 (λ hooks, ret (load_file, hooks))) w.
Proof. intros Ho. unfold resolve_hooks. by rewrite (index_str _ _ _ _ _ Ho). Qed.

Lemma eval_hook_falls_back (H : host) (d : gmap string string) (key : string)
    (default : value) (w : world) :
  falls_back H d key →
  eval_hook H d key default w = Outcome (Ok default) w [].
Proof.
  unfold eval_hook, option_text, py_eval, try_except, bind, lift.
  intros [Hn|[(code & e & Hk & He & Hc)|(code & v & Hk & Hv & Ht)]].
  - rewrite Hn. cbn. reflexivity.
  - rewrite Hk. cbn. rewrite He. cbn. by rewrite Hc.
  - rewrite Hk. cbn. rewrite Hv. cbn. unfold py_or. by rewrite Ht.
Qed.

Lemma no_section_no_settings (conf : config) (ext : string) :
  conf !! ext = None → conf_section conf (Some ext) = None.
Proof. intros Hn. unfold conf_section, conf_get. cbn. by rewrite Hn. Qed.

(** C3 (as amended). When the output path has no extension and the
    settings hold no section with an empty name, no override of the
    settings is applied and the resolution of the hooks ends without
    error, whatever the action: [load_file] is the platform's file
    loader, and [reload_file] and [pre_reload_file] are the platform's
    reloader and the no-op when [--new-viewer] is off, the load function
    and the kill function when it is on. *)
Theorem no_extension_hooks (H : host) (platform : string) (conf : config)
    (args : gmap string value) (output : string) (new_viewer : value) (w : world) :
  args !! "output" = Some (VStr output) →
  args !! "new-viewer" = Some new_viewer →
  snd (h_splitext H (h_basename H output)) = "" →
  conf !! "" = None →
  resolve_hooks H platform conf args w
  = Outcome
      (Ok (Some (get_file_loader platform),
           if truthy new_viewer
           then (get_file_loader platform, VFun PreReloadKillProc)
           else (get_file_reloader platform, VFun LambdaNone)))
      w [].
Proof.
  intros Ho Hnv Hext Hnone.
  pose proof (no_section_no_settings conf "" Hnone) as Hsec.
  assert (output_ext H output = Some "") as He.
  { by rewrite output_ext_some, Hext. }
  rewrite (resolve_hooks_eq _ _ _ _ _ _ Ho), He.
  unfold resolve_load_file. rewrite Hsec, bind_ret.
  unfold resolve_reload_hooks. rewrite (dict_index_some _ _ _ Hnv), bind_assoc, bind_ret.
  destruct (truthy new_viewer).
  - reflexivity.
  - rewrite Hsec. reflexivity.
Qed.

Lemma no_extension_hooks_witness :
  let H := Posix.host_of "Linux" in
  let args := vars (CmdArgs false None false false false "pv" None "out" "doc.md") in
  args !! "output" = Some (VStr "out") ∧
  args !! "new-viewer" = Some (VBool false) ∧
  snd (h_splitext H (h_basename H "out")) = "" ∧
  Example.rc_loader !! "" = None ∧
  resolve_hooks H "linux" Example.rc_loader args []
  = Outcome (Ok (Some (VFun (FileLoader (LoaderCmd ["xdg-open"]))),
                 (VFun (SendSignal 1), VFun LambdaNone))) [] [].
Proof.
  intros H args.
  split_and!; [reflexivity..|].
  apply (no_extension_hooks H "linux" Example.rc_loader args "out" (VBool false) []);
    reflexivity.
Defined.

(** C3, as stated, fails: [panmk --new-viewer -pvc -o out doc.md] has an
    output path without extension, and the reload and pre-reload hooks are
    the file loader and the kill function, not the platform's reloader
    and the no-op. *)
Lemma no_extension_new_viewer_counterexample :
  let H := Posix.host_of "Linux" in
  let args := vars (CmdArgs false None false true false "pvc" None "out" "doc.md") in
  snd (h_splitext H (h_basename H "out")) = "" ∧
  res (resolve_hooks H "linux" ∅ args [])
  = Ok (Some (get_file_loader "linux"), (get_file_loader "linux", VFun PreReloadKillProc)) ∧
  res (resolve_hooks H "linux" ∅ args [])
  ≠ Ok (Some (get_file_loader "linux"), (get_file_reloader "linux", VFun LambdaNone)).
Proof.
  intros H args. split_and!; [reflexivity|reflexivity|].
  vm_compute. intros Heq. discriminate Heq.
Qed.

(** C7 (as amended). For an output extension whose section [d] of the
    settings is present and not empty: a hook entry of [d] that is
    absent, or whose evaluation raises an error, or that evaluates to a
    false value, resolves to the default it is given, without raising.
    [load_file] is resolved that way in every case, against the
    platform's file loader. [reload_file] and [pre_reload_file] are
    resolved that way, against the platform's reloader and the no-op,
    when [--new-viewer] is off; when it is on they are the load function
    and the kill function, and their entries are not looked at. *)
Theorem hook_fallback (H : host) (platform : string) (conf : config)
    (args : gmap string value) (output ext : string) (d : gmap string string)
    (new_viewer : value) (w : world) :
  args !! "output" = Some (VStr output) →
  args !! "new-viewer" = Some new_viewer →
  output_ext H output = Some ext →
  conf_section conf (Some ext) = Some d →
  (∀ key default, falls_back H d key →
     eval_hook H d key default w = Outcome (Ok default) w []) ∧
  (truthy new_viewer = false →
   resolve_hooks H platform conf args w
   = bind (eval_hook H d "load_file" (get_file_loader platform))
       (λ load_file,
          bind (eval_hook H d "reload_file" (get_file_reloader platform))
            (λ reload_file,
               bind (eval_hook H d "pre_reload_file" (VFun LambdaNone))
                 (λ pre_reload_file,
                    ret (Some load_file, (reload_file, pre_reload_file))))) w) ∧
  (truthy new_viewer = false →
   falls_back H d "load_file" → falls_back H d "reload_file" →
   falls_back H d "pre_reload_file" →
   resolve_hooks H platform conf args w
   = Outcome (Ok (Some (get_file_loader platform),
                  (get_file_reloader platform, VFun LambdaNone))) w []) ∧
  (truthy new_viewer = true →
   resolve_hooks H platform conf args w
   = bind (eval_hook H d "load_file" (get_file_loader platform))
       (λ load_file, ret (Some load_file, (load_file, VFun PreReloadKillProc))) w) ∧
  (truthy new_viewer = true →
   falls_back H d "load_file" →
   resolve_hooks H platform conf args w
   = Outcome (Ok (Some (get_file_loader platform),
                  (get_file_loader platform, VFun PreReloadKillProc))) w []).
Proof.
  intros Ho Hnv He Hsec.
  assert (truthy new_viewer = false →
          resolve_hooks H platform conf args w
          = bind (eval_hook H d "load_file" (get_file_loader platform))
              (λ load_file,
                 bind (eval_hook H d "reload_file" (get_file_reloader platform))
                   (λ reload_file,
                      bind (eval_hook H d "pre_reload_file" (VFun LambdaNone))
                        (λ pre_reload_file,
                           ret (Some load_file, (reload_file, pre_reload_file))))) w)
    as Hoff.
  { intros Hf. rewrite (resolve_hooks_eq _ _ _ _ _ _ Ho), He.
    unfold resolve_load_file. rewrite Hsec, bind_assoc.
    apply bind_ext. intros load_file w1. rewrite bind_ret.
    unfold resolve_reload_hooks.
    rewrite (dict_index_some _ _ _ Hnv), bind_assoc, bind_ret, Hf.
    rewrite Hsec, bind_assoc. apply bind_ext. intros reload_file w2.
    rewrite bind_assoc. apply bind_ext. intros pre_reload_file w3.
    by rewrite bind_ret. }
  assert (truthy new_viewer = true →
          resolve_hooks H platform conf args w
          = bind (eval_hook H d "load_file" (get_file_loader platform))
              (λ load_file, ret (Some load_file, (load_file, VFun PreReloadKillProc))) w)
    as Hon.
  { intros Ht. rewrite (resolve_hooks_eq _ _ _ _ _ _ Ho), He.
    unfold resolve_load_file. rewrite Hsec, bind_assoc.
    apply bind_ext. intros load_file w1. rewrite bind_ret.
    unfold resolve_reload_hooks.
    rewrite (dict_index_some _ _ _ Hnv), bind_assoc, bind_ret, Ht.
    cbn [read_local]. by rewrite bind_assoc, !bind_ret. }
  split_and!.
  - intros key default. apply eval_hook_falls_back.
  - exact Hoff.
  - intros Hf Hl Hr Hp. rewrite (Hoff Hf).
    rewrite (bind_returns _ _ _ (get_file_loader platform));
      rewrite (eval_hook_falls_back _ _ _ _ _ Hl); [|done]. cbn [final log app].
    rewrite (bind_returns _ _ _ (get_file_reloader platform));
      rewrite (eval_hook_falls_back _ _ _ _ _ Hr); [|done]. cbn [final log app].
    rewrite (bind_returns _ _ _ (VFun LambdaNone));
      rewrite (eval_hook_falls_back _ _ _ _ _ Hp); [|done]. reflexivity.
  - exact Hon.
  - intros Ht Hl. rewrite (Hon Ht).
    rewrite (bind_returns _ _ _ (get_file_loader platform));
      rewrite (eval_hook_falls_back _ _ _ _ _ Hl); [|done]. reflexivity.
Qed.

Lemma hook_fallback_witness :
  let H := Example.linux Example.rc_broken true in
  let args := vars (Example.pvc false) in
  let d : gmap string string := {[ "reload_file" := "1/0" ]} in
  args !! "output" = Some (VStr "out.pdf") ∧
  args !! "new-viewer" = Some (VBool false) ∧
  output_ext H "out.pdf" = Some "pdf" ∧
  conf_section Example.rc_broken (Some "pdf") = Some d ∧
  falls_back H d "load_file" ∧
  falls_back H d "reload_file" ∧
  falls_back H d "pre_reload_file" ∧
  resolve_hooks H "linux" Example.rc_broken args []
  = Outcome (Ok (Some (VFun (FileLoader (LoaderCmd ["xdg-open"]))),
                 (VFun (SendSignal 1), VFun LambdaNone))) [] [].
Proof.
  intros H args d.
  assert (falls_back H d "load_file") as Hl by (left; reflexivity).
  assert (falls_back H d "reload_file") as Hr.
  { right; left. exists "1/0", ZeroDivisionError. split_and!; reflexivity. }
  assert (falls_back H d "pre_reload_file") as Hp by (left; reflexivity).
  split_and!; [reflexivity..|done|done|done|].
  destruct (hook_fallback H "linux" Example.rc_broken args "out.pdf" "pdf" d
              (VBool false) []) as (_ & _ & Hall & _); [reflexivity..|].
  apply Hall; [reflexivity|done..].
Defined.

(** C7, as stated, fails: with [--new-viewer], a section [pdf] whose
    [reload_file] entry raises an error and whose [pre_reload_file] entry
    is absent does not give the platform's reloader and the no-op: the
    reload and pre-reload hooks are the file loader and the kill
    function. Besides, an entry whose evaluation raises [SystemExit],
    which [except Exception] does not catch, ends the resolution with
    that exception. *)
Lemma hook_fallback_new_viewer_counterexample :
  let H := Example.linux Example.rc_broken true in
  let args := vars (Example.pvc true) in
  let d : gmap string string := {[ "reload_file" := "1/0" ]} in
  conf_section Example.rc_broken (output_ext H "out.pdf") = Some d ∧
  eval_answer H "1/0" = Raise ZeroDivisionError ∧
  d !! "pre_reload_file" = None ∧
  res (resolve_hooks H "linux" Example.rc_broken args [])
  = Ok (Some (get_file_loader "linux"), (get_file_loader "linux", VFun PreReloadKillProc)) ∧
  res (resolve_hooks H "linux" Example.rc_broken args [])
  ≠ Ok (Some (get_file_loader "linux"), (get_file_reloader "linux", VFun LambdaNone)) ∧
  res (resolve_hooks (Example.linux Example.rc_exit true) "linux" Example.rc_exit
         (vars (Example.pvc false)) [])
  = Raise SystemExit.
Proof.
  intros H args d. split_and!; [reflexivity..| |reflexivity].
  vm_compute. intros Heq. discriminate Heq.
Qed.

(** ** The default rc files on windows *)

Lemma load_default_rc_windows (H : host) (conf : config) (w : world) :
  load_default_rc H "windows" conf w
  = Outcome (Raise (match h_environ H !! "systemdrive" with
                    | Some _ => NameError "args"
                    | None => KeyError "systemdrive"
                    end)) w [].
Proof.
  unfold load_default_rc, environ_index.
  destruct (decide ("windows" = "windows")); [|done].
  destruct (h_environ H !! "systemdrive") as [drive|]; [|reflexivity].
  rewrite bind_ret. reflexivity.
Qed.

(** C10 (as amended). On a host classified as windows, with no rc path
    given and rc loading not turned off, the rc stage of [main] always
    fails before any settings are read or merged: with [NameError] for
    the unbound name [args] when the environment has [systemdrive], and
    with [KeyError] from [os.environ['systemdrive']] when it has not. *)
Theorem windows_default_rc_fails (H : host) (args : gmap string value) (w : world) :
  get_platform (h_system H) = "windows" →
  truthy (dict_get args "rc") = false →
  truthy (dict_get args "norc") = false →
  (∀ conf,
     load_default_rc H (get_platform (h_system H)) conf w
     = Outcome (Raise (match h_environ H !! "systemdrive" with
                       | Some _ => NameError "args"
                       | None => KeyError "systemdrive"
                       end)) w []) ∧
  load_conf H (get_platform (h_system H)) args w
  = Outcome (Raise (match h_environ H !! "systemdrive" with
                    | Some _ => NameError "args"
                    | None => KeyError "systemdrive"
                    end)) w [] ∧
  (is_Some (h_environ H !! "systemdrive") →
   res (load_conf H (get_platform (h_system H)) args w) = Raise (NameError "args")).
Proof.
  intros Hp Hrc Hnorc. rewrite Hp.
  assert (load_conf H "windows" args w
          = Outcome (Raise (match h_environ H !! "systemdrive" with
                            | Some _ => NameError "args"
                            | None => KeyError "systemdrive"
                            end)) w []) as Hc.
  { unfold load_conf. rewrite Hrc, Hnorc. cbn [negb]. apply load_default_rc_windows. }
  split_and!.
  - intros conf. apply load_default_rc_windows.
  - exact Hc.
  - intros [drive Hd]. by rewrite Hc, Hd.
Qed.

Lemma windows_default_rc_fails_witness :
  let H := Posix.make "Windows" {[ "systemdrive" := "C:" ]} None true in
  let args := vars (Example.pvc false) in
  get_platform (h_system H) = "windows" ∧
  truthy (dict_get args "rc") = false ∧
  truthy (dict_get args "norc") = false ∧
  res (load_conf H (get_platform (h_system H)) args []) = Raise (NameError "args").
Proof.
  intros H args. split_and!; [reflexivity..|].
  destruct (windows_default_rc_fails H args []) as (_ & _ & Hname); [reflexivity..|].
  apply Hname. by exists "C:".
Defined.

(** C10, as stated, fails: on a windows host whose environment has no
    [systemdrive], the rc stage fails with [KeyError], not with
    [NameError]. *)
Lemma windows_without_systemdrive_counterexample :
  let H := Posix.make "Windows" ∅ None true in
  let args := vars (Example.pvc false) in
  get_platform (h_system H) = "windows" ∧
  truthy (dict_get args "rc") = false ∧
  truthy (dict_get args "norc") = false ∧
  load_conf H (get_platform (h_system H)) args []
  = Outcome (Raise (KeyError "systemdrive")) [] [] ∧
  res (main H (Example.pvc false) [] [] []) = Raise (KeyError "systemdrive") ∧
  ∀ name, res (load_conf H (get_platform (h_system H)) args []) ≠ Raise (NameError name).
Proof.
  intros H args. split_and!; [reflexivity..|].
  intros name. vm_compute. intros Heq. discriminate Heq.
Qed.

(** ** The handle of the watch loop *)

Lemma as_strings_fmap (cmd : list string) : as_strings (VStr <$> cmd) = Some cmd.
Proof.
  unfold as_strings. induction cmd as [|c cmd IH]; [done|].
  cbn. cbn in IH. by rewrite IH.
Qed.

Lemma bind_get_world {B} (k : world → M B) (w : world) :
  bind get_world k w = k w w.
Proof. apply (bind_ret w k w). Qed.

Lemma bind_put_world {B} (w' : world) (k : unit → M B) (w : world) :
  bind (put_world w') k w = k tt w'.
Proof. unfold bind, put_world. cbn. apply outcome_eta. Qed.

Ltac mstep :=
  repeat first
    [ rewrite bind_assoc | rewrite bind_emit | rewrite bind_mark
    | rewrite bind_get_world | rewrite bind_put_world | rewrite bind_ret
    | rewrite bind_raise ];
  cbn [res final log].

Lemma hard_restart_eq (H : host) (p : nat) (w : world) :
  hard_restart H (VProc p) w =
  let cmd := p_args (process_of w p) in
  let w1 := alter (terminated) p w in
  let w2 := alter (killed) p w1 in
  if p_alive (process_of w1 p) then
    Outcome (Raise TimeoutExpired) w1 [Lib (ETerminate p); Lib (EWait p DEATH_DELAY)]
  else
    match cmd with
    | [] => Outcome (Raise IndexError) w2
              [Lib (ETerminate p); Lib (EWait p DEATH_DELAY); Lib (EKill p)]
    | _ :: _ =>
        Outcome (Ok VNone) (w2 ++ [Process cmd true (h_heeds_term H cmd)])
          [Lib (ETerminate p); Lib (EWait p DEATH_DELAY); Lib (EKill p);
           Lib (EPopen (length w2) cmd)]
    end.
Proof.
  cbn zeta. unfold hard_restart, proc_args, proc_terminate, proc_wait, proc_kill,
    popen, signal_process.
  mstep.
  destruct (p_alive (process_of (alter (terminated) p w) p)) eqn:Ealive.
  - reflexivity.
  - mstep. unfold check_cmd. rewrite as_strings_fmap.
    destruct (p_args (process_of w p)) as [|c cmd] eqn:Ecmd.
    + reflexivity.
    + mstep. reflexivity.
Qed.

Lemma process_of_alter (f : process → process) (p : nat) (w : world) :
  (p < length w)%nat → process_of (alter f p w) p = f (process_of w p).
Proof.
  intros Hp. unfold process_of. rewrite list_lookup_alter_eq.
  destruct (lookup_lt_is_Some_2 w p Hp) as [pr ->]. reflexivity.
Qed.

Lemma process_of_app (p : nat) (w extra : world) :
  (p < length w)%nat → process_of (w ++ extra) p = process_of w p.
Proof. intros Hp. unfold process_of. by rewrite lookup_app_l. Qed.

Lemma deliver_args (signal : Z) (goes_on : bool) (pr : process) :
  p_args (deliver signal goes_on pr) = p_args pr.
Proof. unfold deliver. by repeat case_match. Qed.

Lemma deliver_dead (signal : Z) (goes_on : bool) (pr : process) :
  p_alive pr = false → p_alive (deliver signal goes_on pr) = false.
Proof. unfold deliver. intros Hd. repeat case_match; cbn; by rewrite ?Hd. Qed.

Lemma terminated_dead (pr : process) :
  p_alive pr = false → p_alive (terminated pr) = false.
Proof. intros Hd. cbn. by rewrite Hd. Qed.


Lemma handle_kept_refl (p : nat) (w : world) : handle_kept p w w [].
Proof.
  intros Hp. split_and!; try done.
  - intros s Hs. by apply elem_of_nil in Hs.
  - intros e He. by apply elem_of_nil in He.
  - intros q cmd He. by apply elem_of_nil in He.
  - intros q Hq. lia.
Qed.

Lemma handle_kept_trans (p : nat) (w1 w2 w3 : world) (l1 l2 : list entry) :
  handle_kept p w1 w2 l1 → handle_kept p w2 w3 l2 → handle_kept p w1 w3 (l1 ++ l2).
Proof.
  intros K1 K2 Hp.
  destruct (K1 Hp) as (L1 & O1 & A1 & D1 & S1 & T1 & P1 & N1).
  assert (p < length w2)%nat as Hp2 by lia.
  destruct (K2 Hp2) as (L2 & O2 & A2 & D2 & S2 & T2 & P2 & N2).
  split_and!.
  - lia.
  - intros q Hq Hlt. rewrite O2; [by apply O1|done|lia].
  - by rewrite A2.
  - intros Hd. by apply D2, D1.
  - intros s [Hs|Hs]%elem_of_app; [by apply S1|by apply S2].
  - intros e [He|He]%elem_of_app; [by apply T1|by apply T2].
  - intros q cmd [He|He]%elem_of_app.
    + destruct (P1 q cmd He) as (Hr & Hc & Hd). split_and!; [lia|lia|done|by apply D2].
    + destruct (P2 q cmd He) as (Hr & Hc & Hd). split_and!; [lia|lia|by rewrite Hc|done].
  - intros q Hq. destruct (decide (q < length w2)%nat) as [Hlt|Hge].
    + destruct (N1 q) as [heeds Hn]; [lia|]. exists heeds.
      rewrite O2; [done|lia|done].
    + destruct (N2 q) as [heeds Hn]; [lia|]. exists heeds. by rewrite Hn, A1.
Qed.

(** Library calls that leave the processes as they are. *)
Lemma handle_kept_calls (p : nat) (w : world) (l : list event) :
  (∀ e, e ∈ l → (target e = None ∨ target e = Some p) ∧ is_popen e = false) →
  handle_kept p w w (Lib <$> l).
Proof.
  intros Hl Hp. split_and!; try done.
  - intros s (e & Heq & _)%list_elem_of_fmap. done.
  - intros e (e' & [= <-] & He)%list_elem_of_fmap. by apply Hl.
  - intros q cmd (e' & [= <-] & He)%list_elem_of_fmap.
    by destruct (Hl _ He) as [_ Hn].
  - intros q Hq. lia.
Qed.

Lemma handle_kept_alter (p : nat) (f : process → process) (w : world) :
  (∀ pr, p_args (f pr) = p_args pr) →
  (∀ pr, p_alive pr = false → p_alive (f pr) = false) →
  handle_kept p w (alter f p w) [].
Proof.
  intros Hargs Hdead Hp. split_and!.
  - by rewrite length_alter.
  - intros q Hq _. by rewrite list_lookup_alter_ne.
  - by rewrite process_of_alter, Hargs.
  - intros Hd. rewrite process_of_alter; [by apply Hdead|done].
  - intros s Hs. by apply elem_of_nil in Hs.
  - intros e He. by apply elem_of_nil in He.
  - intros q cmd He. by apply elem_of_nil in He.
  - intros q Hq. rewrite length_alter in Hq. lia.
Qed.

(** The launch of a copy of [p] once [p] is dead. *)
Lemma handle_kept_spawn (p : nat) (w : world) (heeds : bool) :
  p_alive (process_of w p) = false →
  let cmd := p_args (process_of w p) in
  handle_kept p w (w ++ [Process cmd true heeds]) [Lib (EPopen (length w) cmd)].
Proof.
  intros Hd cmd Hp. split_and!.
  - rewrite length_app. lia.
  - intros q _ Hq. by rewrite lookup_app_l.
  - by rewrite process_of_app.
  - intros _. by rewrite process_of_app.
  - intros s Hs%list_elem_of_singleton. done.
  - intros e [= ->]%list_elem_of_singleton. by left.
  - intros q c [= -> ->]%list_elem_of_singleton.
    rewrite length_app, process_of_app; [|done]. cbn. split_and!; [lia..|done|done].
  - intros q Hq. rewrite length_app in Hq. cbn in Hq.
    assert (q = length w) as -> by lia. exists heeds.
    by rewrite list_lookup_middle.
Qed.

Lemma handle_kept_hard_restart (H : host) (p : nat) :
  keeps (handle_kept p) (hard_restart H (VProc p)).
Proof.
  intros w. rewrite hard_restart_eq. cbn zeta.
  set (w1 := alter (terminated) p w).
  set (w2 := alter (killed) p w1).
  pose proof (handle_kept_alter p terminated w (λ _, eq_refl) terminated_dead) as K1.
  fold w1 in K1.
  pose proof (handle_kept_alter p killed w1 (λ _, eq_refl) (λ _ _, eq_refl)) as K2.
  fold w2 in K2.
  assert (∀ w', handle_kept p w' w' (Lib <$> [ETerminate p; EWait p DEATH_DELAY])) as C1.
  { intros w'. apply handle_kept_calls.
    intros e He. repeat (apply elem_of_cons in He as [->|He]); cbn; auto.
    by apply elem_of_nil in He. }
  assert (∀ w', handle_kept p w' w' (Lib <$> [EKill p])) as C2.
  { intros w'. apply handle_kept_calls.
    intros e ->%list_elem_of_singleton. cbn. auto. }
  destruct (p_alive (process_of w1 p)) eqn:Ealive; cbn [final log].
  - exact (handle_kept_trans p w w1 w1 _ _ K1 (C1 w1)).
  - pose proof (handle_kept_trans p w1 w2 w2 _ _ K2 (C2 w2)) as K2'.
    pose proof (handle_kept_trans p w1 w1 w2 _ _ (C1 w1) K2') as K12.
    pose proof (handle_kept_trans p w w1 w2 _ _ K1 K12) as K3.
    destruct (p_args (process_of w p)) as [|c cmd] eqn:Ecmd; cbn [final log].
    + exact K3.
    + intros Hp.
      assert (p < length w1)%nat as Hp1 by (unfold w1; by rewrite length_alter).
      assert (p_alive (process_of w2 p) = false) as Hdead.
      { unfold w2. by rewrite process_of_alter. }
      assert (p_args (process_of w2 p) = c :: cmd) as Hargs.
      { unfold w2, w1. rewrite !process_of_alter; [done|done|].
        by rewrite length_alter. }
      pose proof (handle_kept_spawn p w2 (h_heeds_term H (c :: cmd)) Hdead) as K4.
      cbn zeta in K4. rewrite Hargs in K4.
      exact (handle_kept_trans p w w2 _ _ _ K3 K4 Hp).
Qed.

Ltac handle p := keeps_with (handle_kept_refl p) (handle_kept_trans p).

Lemma handle_emit (p : nat) (e : event) :
  target e = None ∨ target e = Some p → is_popen e = false →
  keeps (handle_kept p) (emit e).
Proof.
  intros Ht Hn w. apply (handle_kept_calls p w [e]).
  intros e' ->%list_elem_of_singleton. done.
Qed.

Lemma handle_mark (p : nat) (s : step) :
  step_arg s = None ∨ step_arg s = Some (VProc p) →
  keeps (handle_kept p) (mark s).
Proof.
  intros Hs w Hp. cbn. split_and!; try done.
  - intros s' [= ->]%list_elem_of_singleton. done.
  - intros e He%list_elem_of_singleton. done.
  - intros q cmd He%list_elem_of_singleton. done.
  - intros q Hq. lia.
Qed.

Lemma handle_signal_process (p : nat) (f : process → process) :
  (∀ pr, p_args (f pr) = p_args pr) →
  (∀ pr, p_alive pr = false → p_alive (f pr) = false) →
  keeps (handle_kept p) (signal_process p f).
Proof. intros Hargs Hdead w. exact (handle_kept_alter p f w Hargs Hdead). Qed.

Lemma handle_check_cmd (p : nat) (cmd : value) : keeps (handle_kept p) (check_cmd cmd).
Proof.
  unfold check_cmd. destruct cmd; handle p.
  destruct (as_strings l) as [[|]|]; handle p.
Qed.

Lemma handle_subprocess_run (p : nat) (cmd : value) :
  keeps (handle_kept p) (subprocess_run cmd).
Proof.
  unfold subprocess_run.
  apply (keeps_bind _ (handle_kept_trans p)); [apply handle_check_cmd|intros c].
  apply (keeps_bind _ (handle_kept_trans p)); [|intros _; apply (keeps_ret _ (handle_kept_refl p))].
  apply handle_emit; [by left|done].
Qed.

Lemma handle_send_signal (H : host) (p : nat) (signal : Z) :
  keeps (handle_kept p) (proc_send_signal H (VProc p) signal).
Proof.
  unfold proc_send_signal.
  apply (keeps_bind _ (handle_kept_trans p)); [by apply handle_emit; [right|]|intros _].
  apply (keeps_bind _ (handle_kept_trans p));
    [apply (keeps_get_world _ (handle_kept_refl p))|intros w].
  destruct (p_alive (process_of w p)); [|apply (keeps_ret _ (handle_kept_refl p))].
  apply (keeps_bind _ (handle_kept_trans p));
    [apply (keeps_lift _ (handle_kept_refl p))|intros goes_on].
  apply handle_signal_process; [apply deliver_args|apply deliver_dead].
Qed.

Lemma handle_kill (p : nat) : keeps (handle_kept p) (proc_kill (VProc p)).
Proof.
  unfold proc_kill.
  apply (keeps_bind _ (handle_kept_trans p));
    [|intros _; by apply handle_signal_process].
  apply handle_emit; [by right|done].
Qed.

Lemma handle_call_fun (H : host) (p : nat) (f : callable) :
  own_function f = true → keeps (handle_kept p) (call_fun H f (VProc p)).
Proof.
  induction f; intros Hown; cbn [call_fun].
  - apply (keeps_ret _ (handle_kept_refl p)).
  - apply (keeps_bind _ (handle_kept_trans p)); [by apply IHf|intros c].
    apply handle_subprocess_run.
  - apply (keeps_ret _ (handle_kept_refl p)).
  - apply (keeps_bind _ (handle_kept_trans p)); [apply handle_send_signal|intros _].
    apply (keeps_ret _ (handle_kept_refl p)).
  - apply handle_kept_hard_restart.
  - apply handle_subprocess_run.
  - unfold pre_reload_kill_proc.
    apply (keeps_bind _ (handle_kept_trans p)); [apply handle_kill|intros _].
    apply (keeps_ret _ (handle_kept_refl p)).
  - apply (keeps_ret _ (handle_kept_refl p)).
  - done.
Qed.

Lemma handle_call (H : host) (p : nat) (f : value) :
  own_hook f = true → keeps (handle_kept p) (call H f (VProc p)).
Proof.
  destruct f; intros Hown; cbn [call];
    try apply (keeps_raise _ (handle_kept_refl p)).
  by apply handle_call_fun.
Qed.

Lemma handle_index_str (p : nat) (args : gmap string value) (key : string) :
  keeps (handle_kept p) (bind (dict_index args key) as_str).
Proof.
  apply (keeps_bind _ (handle_kept_trans p)).
  - unfold dict_index. destruct (args !! key); handle p.
  - intros a. unfold as_str. destruct a; handle p.
Qed.

Lemma handle_call_pandoc (H : host) (p : nat) (path output : string) (args : list string) :
  keeps (handle_kept p) (call_pandoc H path output args).
Proof.
  unfold call_pandoc.
  apply (keeps_bind _ (handle_kept_trans p)); [apply (keeps_lift _ (handle_kept_refl p))|intros f].
  apply (keeps_bind _ (handle_kept_trans p)); [apply handle_emit; [by left|done]|intros _].
  apply (keeps_bind _ (handle_kept_trans p)); [|intros _; apply (keeps_ret _ (handle_kept_refl p))].
  destruct (negb _); [apply handle_emit; [by left|done]|apply (keeps_ret _ (handle_kept_refl p))].
Qed.

Lemma handle_reload_sequence (H : host) (p : nat) (args : gmap string value)
    (pandoc_args : list string) (pre_reload_file reload_file : value) (t : tick) :
  own_hook pre_reload_file = true → own_hook reload_file = true →
  keeps (handle_kept p)
        (reload_sequence H args pandoc_args pre_reload_file reload_file (VProc p) t).
Proof.
  intros Hpre Hrel. unfold reload_sequence.
  apply (keeps_bind _ (handle_kept_trans p)); [apply handle_mark; by right|intros _].
  apply (keeps_bind _ (handle_kept_trans p)).
  { apply (keeps_interruptible _ (handle_kept_refl p)). by apply handle_call. }
  intros _.
  apply (keeps_bind _ (handle_kept_trans p)); [apply handle_mark; by left|intros _].
  apply (keeps_bind _ (handle_kept_trans p)).
  { apply (keeps_interruptible _ (handle_kept_refl p)).
    apply (keeps_bind _ (handle_kept_trans p)); [apply handle_index_str|intros f].
    apply (keeps_bind _ (handle_kept_trans p)); [apply handle_index_str|intros o].
    apply handle_call_pandoc. }
  intros _.
  apply (keeps_bind _ (handle_kept_trans p)); [apply handle_mark; by right|intros _].
  apply (keeps_bind _ (handle_kept_trans p)).
  { apply (keeps_interruptible _ (handle_kept_refl p)). by apply handle_call. }
  intros _. apply (keeps_ret _ (handle_kept_refl p)).
Qed.

Lemma handle_loop_body (H : host) (p : nat) (args : gmap string value)
    (pandoc_args : list string) (pre_reload_file reload_file : value)
    (t : tick) (pre : option stat_result) :
  own_hook pre_reload_file = true → own_hook reload_file = true →
  keeps (handle_kept p)
        (loop_body H args pandoc_args pre_reload_file reload_file (VProc p) t pre).
Proof.
  intros Hpre Hrel. unfold loop_body.
  apply (keeps_bind _ (handle_kept_trans p)); [apply handle_index_str|intros f].
  apply (keeps_bind _ (handle_kept_trans p)).
  { unfold os_stat.
    apply (keeps_bind _ (handle_kept_trans p)); [apply handle_emit; [by left|done]|intros _].
    apply (keeps_lift _ (handle_kept_refl p)). }
  intros cur. destruct (decide (Some cur ≠ pre)); [|apply (keeps_ret _ (handle_kept_refl p))].
  apply (keeps_bind _ (handle_kept_trans p)); [|intros _; apply (keeps_ret _ (handle_kept_refl p))].
  apply (keeps_try_except _ (handle_kept_trans p));
    [by apply handle_reload_sequence|apply (keeps_ret _ (handle_kept_refl p))].
Qed.

Lemma elem_of_steps (s : step) (l : list entry) : s ∈ steps l ↔ Enter s ∈ l.
Proof.
  unfold steps. rewrite list_elem_of_omap. split.
  - intros ([e|s'] & He & Hs); [done|]. by simplify_eq/=.
  - intros He. by exists (Enter s).
Qed.

Lemma elem_of_calls (e : event) (l : list entry) : e ∈ calls l ↔ Lib e ∈ l.
Proof.
  unfold calls. rewrite list_elem_of_omap. split.
  - intros ([e'|s] & He & Hs); [|done]. by simplify_eq/=.
  - intros He. by exists (Lib e).
Qed.

(** C9. [hard_restart] hands nothing back: when it completes it returns
    [None], the process of the handle is dead, and the relaunched viewer
    is a new process under a new id. In the watch loop with
    [hard_restart] as the reload function (and a pre-reload function of
    the program), the handle [p] of the loop never changes: every
    pre-reload and reload step is handed [p], every terminate, wait, kill
    or signal of the loop acts on [p], and each relaunched viewer has a
    different id, is never acted on (it is still alive, with the first
    viewer's command line, at the end) while [p] is dead from the first
    completed restart on. *)
Theorem hard_restart_keeps_stale_handle (H : host) (args : gmap string value)
    (pandoc_args : list string) (pre_reload_file : value) (p : nat)
    (ticks : list tick) (pre : option stat_result) (w : world) :
  own_hook pre_reload_file = true →
  (p < length w)%nat →
  let o := run_ticks (loop_body H args pandoc_args pre_reload_file
                                (VFun HardRestart) (VProc p)) ticks pre w in
  (∀ w0 v,
     (p < length w0)%nat →
     res (hard_restart H (VProc p) w0) = Ok v →
     let w' := final (hard_restart H (VProc p) w0) in
     let cmd := p_args (process_of w0 p) in
     v = VNone ∧
     p_alive (process_of w' p) = false ∧
     length w0 ≠ p ∧
     w' !! length w0 = Some (Process cmd true (h_heeds_term H cmd))) ∧
  (∀ s, s ∈ steps (log o) → step_arg s = None ∨ step_arg s = Some (VProc p)) ∧
  (∀ e, e ∈ calls (log o) → target e = None ∨ target e = Some p) ∧
  (∀ q cmd,
     EPopen q cmd ∈ calls (log o) →
     q ≠ p ∧ cmd = p_args (process_of w p) ∧
     (∃ heeds, final o !! q = Some (Process cmd true heeds)) ∧
     p_alive (process_of (final o) p) = false).
Proof.
  intros Hown Hp o.
  assert (handle_kept p w (final o) (log o)) as K.
  { apply (keeps_run_ticks _ (handle_kept_refl p) (handle_kept_trans p)).
    intros t s. by apply handle_loop_body. }
  destruct (K Hp) as (L & O & A & D & S & T & P & N).
  split_and!.
  - intros w0 v Hp0. rewrite hard_restart_eq. cbn zeta.
    destruct (p_alive (process_of (alter (terminated) p w0) p)); [done|].
    destruct (p_args (process_of w0 p)) as [|c cmd]; [done|].
    cbn [res final]. intros [= <-].
    assert (length (alter (killed) p (alter (terminated) p w0)) = length w0)
      as Hlen by (by rewrite !length_alter).
    split_and!.
    + done.
    + rewrite process_of_app, process_of_alter; [done|by rewrite length_alter|lia].
    + lia.
    + rewrite <- Hlen at 1. by rewrite list_lookup_middle.
  - intros s Hs%elem_of_steps. by apply S.
  - intros e He%elem_of_calls. by apply T.
  - intros q cmd He%elem_of_calls. destruct (P q cmd He) as (Hr & -> & Hd).
    split_and!; [lia|done|by apply N|done].
Qed.

Lemma hard_restart_keeps_stale_handle_witness :
  let H := Example.linux Example.rc_hard_restart true in
  let args := vars (Example.pvc false) in
  let w := [Process Example.viewer true true] in
  let o := run_ticks (loop_body H args [] (VFun LambdaNone) (VFun HardRestart) (VProc 0))
                     [Example.poll 1; Example.poll 2] None w in
  own_hook (VFun LambdaNone) = true ∧
  (0 < length w)%nat ∧
  (∃ heeds, final o !! 2%nat = Some (Process Example.viewer true heeds)) ∧
  p_alive (process_of (final o) 0) = false.
Proof.
  intros H args w o.
  assert (own_hook (VFun LambdaNone) = true) as Hown by reflexivity.
  assert (0 < length w)%nat as Hp by (cbn; lia).
  split_and!; [done|done| |].
  all: destruct (hard_restart_keeps_stale_handle H args [] (VFun LambdaNone) 0
                   [Example.poll 1; Example.poll 2] None w Hown Hp)
         as (_ & _ & _ & Hnew);
       destruct (Hnew 2%nat Example.viewer) as (_ & _ & Halive & Hdead);
       [apply list_elem_of_In; vm_compute; tauto|done].
Defined.

(** * Further properties *)

(** ** The rc files *)

Lemma load_rc_absent (H : host) (rc : string) (conf : config) (w : world) :
  h_isfile H (h_normalize_path H rc) = false →
  load_rc H rc conf w = Outcome (Ok conf) w [].
Proof. intros Hf. unfold load_rc, read_rc. rewrite Hf. reflexivity. Qed.

Lemma load_rc_read (H : host) (rc : string) (conf : config) (w : world)
    (r : result config) :
  h_isfile H (h_normalize_path H rc) = true →
  h_read_config H (h_normalize_path H rc) = r →
  load_rc H rc conf w
  = Outcome (match r with
             | Ok config => Ok (config ∪ conf)
             | Raise e => Raise e
             | Running => Running
             end) w [].
Proof.
  intros Hf Hr. unfold load_rc, read_rc. rewrite Hf, Hr.
  destruct r; reflexivity.
Qed.

Lemma lookup_overlay (config conf : config) (s : string) :
  (config ∪ conf) !! s = match config !! s with
                         | Some d => Some d
                         | None => conf !! s
                         end.
Proof.
  rewrite lookup_union. destruct (config !! s), (conf !! s); reflexivity.
Qed.

(** X1. [load_rc] leaves the settings as they are when the rc file is not
    a file, hands on the error of a file that cannot be read, and
    otherwise replaces whole sections: a section of the file stands for
    the section of the same name, options and all, and the other
    sections are kept. *)
Theorem load_rc_replaces_sections (H : host) (rc : string) (conf : config) (w : world) :
  let path := h_normalize_path H rc in
  (h_isfile H path = false → load_rc H rc conf w = Outcome (Ok conf) w []) ∧
  (∀ e, h_isfile H path = true → h_read_config H path = Raise e →
        load_rc H rc conf w = Outcome (Raise e) w []) ∧
  (∀ config, h_isfile H path = true → h_read_config H path = Ok config →
     ∃ conf', load_rc H rc conf w = Outcome (Ok conf') w [] ∧
       (∀ s, conf' !! s = match config !! s with
                          | Some d => Some d
                          | None => conf !! s
                          end) ∧
       (∀ s d key, config !! s = Some d →
                   (section ← conf' !! s; section !! key) = d !! key)).
Proof.
  intros path. split_and!.
  - apply load_rc_absent.
  - intros e Hf Hr. by rewrite (load_rc_read _ _ _ _ _ Hf Hr).
  - intros config Hf Hr. exists (config ∪ conf).
    rewrite (load_rc_read _ _ _ _ _ Hf Hr). split_and!; [done| |].
    + intros s. apply lookup_overlay.
    + intros s d key Hs. by rewrite lookup_overlay, Hs.
Qed.

Lemma load_rc_reads (H : host) (rc : string) (conf : config) (w : world) :
  rc_reads H rc →
  load_rc H rc conf w
  = Outcome (Ok (match rc_settings H rc with
                 | Some config => config ∪ conf
                 | None => conf
                 end)) w [].
Proof.
  intros Hr. unfold rc_settings.
  destruct (h_isfile H (h_normalize_path H rc)) eqn:Hf.
  - destruct (Hr Hf) as [config Hc]. rewrite (load_rc_read _ _ _ _ _ Hf Hc).
    by rewrite Hc.
  - by apply load_rc_absent.
Qed.

Lemma lookup_layer (H : host) (rc : string) (conf : config) (s : string) :
  match rc_settings H rc with
  | Some config => config ∪ conf
  | None => conf
  end !! s
  = match rc_section H rc s with
    | Some d => Some d
    | None => conf !! s
    end.
Proof.
  unfold rc_section. destruct (rc_settings H rc) as [config|]; cbn; [|done].
  apply lookup_overlay.
Qed.

(** X2. On a platform other than windows, when every default rc file that
    exists reads without error, [load_default_rc] ends without error and
    a later file of the search order stands before an earlier one,
    section by section: a section comes from the file of the home
    directory if it has it, else from [/usr/local/lib/panmk], else from
    [/usr/local/share/panmk], else from [/opt/local/share/panmk], else
    from the settings given. *)
Theorem default_rc_later_file_wins (H : host) (platform : string) (conf : config)
    (w : world) :
  platform ≠ "windows" →
  (∀ dir, dir ∈ ["/opt/local/share/panmk"; "/usr/local/share/panmk";
                 "/usr/local/lib/panmk"; "~"] → rc_reads H (default_rc H dir)) →
  ∃ conf',
    load_default_rc H platform conf w = Outcome (Ok conf') w [] ∧
    ∀ s, conf' !! s =
         match rc_section H (default_rc H "~") s with
         | Some d => Some d
         | None =>
           match rc_section H (default_rc H "/usr/local/lib/panmk") s with
           | Some d => Some d
           | None =>
             match rc_section H (default_rc H "/usr/local/share/panmk") s with
             | Some d => Some d
             | None =>
               match rc_section H (default_rc H "/opt/local/share/panmk") s with
               | Some d => Some d
               | None => conf !! s
               end
             end
           end
         end.
Proof.
  intros Hp Hreads.
  assert (rc_reads H (default_rc H "/opt/local/share/panmk")) as R1
    by (apply Hreads; set_solver).
  assert (rc_reads H (default_rc H "/usr/local/share/panmk")) as R2
    by (apply Hreads; set_solver).
  assert (rc_reads H (default_rc H "/usr/local/lib/panmk")) as R3
    by (apply Hreads; set_solver).
  assert (rc_reads H (default_rc H "~")) as R4 by (apply Hreads; set_solver).
  eexists. split.
  - unfold load_default_rc. destruct (decide (platform = "windows")); [done|].
    cbn [foldl]. fold (default_rc H "/opt/local/share/panmk").
    fold (default_rc H "/usr/local/share/panmk").
    fold (default_rc H "/usr/local/lib/panmk"). fold (default_rc H "~").
    rewrite !bind_assoc, bind_ret.
    rewrite (bind_returns _ _ _ _ (f_equal res (load_rc_reads _ _ _ _ R1))).
    rewrite (load_rc_reads _ _ _ _ R1). cbn [res final log app].
    rewrite (bind_returns _ _ _ _ (f_equal res (load_rc_reads _ _ _ _ R2))).
    rewrite (load_rc_reads _ _ _ _ R2). cbn [res final log app].
    rewrite (bind_returns _ _ _ _ (f_equal res (load_rc_reads _ _ _ _ R3))).
    rewrite (load_rc_reads _ _ _ _ R3). cbn [res final log app].
    rewrite (load_rc_reads _ _ _ _ R4). reflexivity.
  - intros s. by rewrite !lookup_layer.
Qed.

Lemma default_rc_later_file_wins_witness :
  let H := Example.linux Example.rc_loader true in
  "linux" ≠ "windows" ∧
  (∀ dir, dir ∈ ["/opt/local/share/panmk"; "/usr/local/share/panmk";
                 "/usr/local/lib/panmk"; "~"] → rc_reads H (default_rc H dir)) ∧
  ∃ conf', load_default_rc H "linux" ∅ [] = Outcome (Ok conf') [] [] ∧
           conf' !! "pdf" = Example.rc_loader !! "pdf".
Proof.
  intros H.
  assert ("linux" ≠ "windows") as Hp by done.
  assert (∀ dir, dir ∈ ["/opt/local/share/panmk"; "/usr/local/share/panmk";
                        "/usr/local/lib/panmk"; "~"] → rc_reads H (default_rc H dir))
    as Hreads.
  { intros dir _ _. by exists Example.rc_loader. }
  split_and!; [done|done|].
  destruct (default_rc_later_file_wins H "linux" ∅ [] Hp Hreads) as (conf' & Hload & Hs).
  exists conf'. split; [done|]. rewrite Hs. reflexivity.
Defined.

Lemma dict_get_some (d : gmap string value) (key : string) (v : value) :
  d !! key = Some v → dict_get d key = v.
Proof. intros Hk. unfold dict_get. by rewrite Hk. Qed.

Lemma truthy_str (s : string) : s ≠ "" → truthy (VStr s) = true.
Proof.
  intros Hs. cbn. destruct (String.eqb_spec s ""); [done|reflexivity].
Qed.

(** X3. An rc path given on the command line is the only rc file read:
    the rc stage of [main] is then [load_rc] on that path from empty
    settings, whatever the platform and whatever [--norc] says (so the
    default files, and the failure of their windows branch, are out of
    play); if the path is not a file, the settings stay empty and no
    error is raised. *)
Theorem explicit_rc_is_the_only_rc (H : host) (platform : string)
    (args : gmap string value) (rc : string) (w : world) :
  args !! "rc" = Some (VStr rc) →
  rc ≠ "" →
  load_conf H platform args w = load_rc H rc ∅ w ∧
  (h_isfile H (h_normalize_path H rc) = false →
   load_conf H platform args w = Outcome (Ok ∅) w []).
Proof.
  intros Hrc Hne.
  assert (load_conf H platform args w = load_rc H rc ∅ w) as Heq.
  { unfold load_conf. rewrite (dict_get_some _ _ _ Hrc), (truthy_str _ Hne).
    cbn [as_str]. exact (bind_ret rc (λ rc', load_rc H rc' ∅) w). }
  split; [done|]. intros Hf. rewrite Heq. by apply load_rc_absent.
Qed.

Lemma explicit_rc_is_the_only_rc_witness :
  let H := Posix.make "Windows" ∅ None true in
  let args := vars (CmdArgs false None false false true "p" (Some "my.rc") "out.pdf" "doc.md") in
  args !! "rc" = Some (VStr "my.rc") ∧
  "my.rc" ≠ "" ∧
  load_conf H "windows" args [] = Outcome (Ok ∅) [] [].
Proof.
  intros H args.
  assert (args !! "rc" = Some (VStr "my.rc")) as Hrc by reflexivity.
  assert ("my.rc" ≠ "") as Hne by done.
  split_and!; [done|done|].
  destruct (explicit_rc_is_the_only_rc H "windows" args "my.rc" [] Hrc Hne) as [_ Habs].
  apply Habs. reflexivity.
Defined.

(** ** The hooks *)

Lemma eval_hook_result (H : host) (d : gmap string string) (key : string)
    (default : value) (w : world) :
  eval_hook H d key default w
  = Outcome (match eval_answer H (option_text d key) with
             | Ok v => Ok (py_or v default)
             | Raise e => if is_Exception e then Ok default else Raise e
             | Running => Running
             end) w [].
Proof.
  unfold eval_hook, py_eval, try_except, bind, lift. cbn.
  destruct (eval_answer H (option_text d key)) as [v|e|]; cbn; [done| |done].
  by destruct (is_Exception e).
Qed.


(** X5. Whenever the resolution of the hooks ends without error,
    [load_file] has been assigned: the branch of [main] that leaves it
    unassigned (an extension that is [None]) is never taken, so no later
    use of [load_file] fails on an unassigned name. *)
Theorem load_file_always_assigned (H : host) (platform : string) (conf : config)
    (args : gmap string value) (w : world) (load_file : option value)
    (hooks : value * value) :
  res (resolve_hooks H platform conf args w) = Ok (load_file, hooks) →
  ∃ f, load_file = Some f ∧
       read_local "load_file" load_file w = Outcome (Ok f) w [].
Proof.
  unfold resolve_hooks. rewrite res_bind.
  destruct (res (bind (dict_index args "output") as_str w)) as [output|e|] eqn:Eo;
    [|done..].
  rewrite res_bind, output_ext_some. unfold resolve_load_file.
  set (ext := Str.drop 1 _).
  destruct (conf_section conf (Some ext)) as [d|].
  - rewrite res_bind, eval_hook_result. cbn [res final].
    destruct (eval_answer H (option_text d "load_file")) as [v|e|]; cbn [res];
      [| |done].
    + cbn [res final ret]. rewrite res_bind.
      destruct (res (resolve_reload_hooks _ _ _ _ _ _ _)); [|done..].
      cbn. intros [= <- <-]. eauto.
    + destruct (is_Exception e); [|done]. cbn [res final ret]. rewrite res_bind.
      destruct (res (resolve_reload_hooks _ _ _ _ _ _ _)); [|done..].
      cbn. intros [= <- <-]. eauto.
  - cbn [res final ret]. rewrite res_bind.
    destruct (res (resolve_reload_hooks _ _ _ _ _ _ _)); [|done..].
    cbn. intros [= <- <-]. eauto.
Qed.

Lemma load_file_always_assigned_witness :
  let H := Example.linux Example.rc_broken true in
  let args := vars (Example.pvc false) in
  res (resolve_hooks H "linux" Example.rc_broken args [])
  = Ok (Some (get_file_loader "linux"), (get_file_reloader "linux", VFun LambdaNone)) ∧
  ∃ f, Some (get_file_loader "linux") = Some f ∧
       read_local "load_file" (Some (get_file_loader "linux")) [] = Outcome (Ok f) [] [].
Proof.
  intros H args.
  assert (res (resolve_hooks H "linux" Example.rc_broken args [])
          = Ok (Some (get_file_loader "linux"),
                (get_file_reloader "linux", VFun LambdaNone))) as Hr by reflexivity.
  split; [done|].
  exact (load_file_always_assigned H "linux" Example.rc_broken args [] _ _ Hr).
Defined.



(** ** The viewer strategies *)

Lemma get_platform_known (system : string) : get_platform system ∈ known_platforms.
Proof.
  unfold get_platform.
  destruct (first_platform platforms (Str.lower system)) as [plat|] eqn:E.
  - apply first_platform_some in E as (i & Hi & _).
    apply list_elem_of_lookup_2, list_elem_of_In in Hi.
    apply list_elem_of_In. cbn in *. tauto.
  - apply list_elem_of_In. cbn. tauto.
Qed.

Lemma reloader_of_known (platform : string) :
  platform ∈ known_platforms →
  (∃ f, get_file_reloader platform = VFun f ∧
        (f = HardRestart ∨ f = SendSignal 29 ∨ f = SendSignal 1)) ∧
  (get_file_reloader platform = VFun HardRestart ↔ platform = "windows") ∧
  (get_file_reloader platform = VFun (SendSignal 29) ↔
   platform = "darwin" ∨ platform = "bsd").
Proof.
  intros Hk. apply list_elem_of_In in Hk. cbn in Hk.
  destruct Hk as [<-|[<-|[<-|[<-|[<-|[]]]]]].
  all: split_and!; [eexists; split; [reflexivity|auto]|..].
  all: split; intros Heq; vm_compute in Heq |- *;
    first [ reflexivity | discriminate Heq | by left | by right
          | destruct Heq as [Heq|Heq]; discriminate Heq ].
Qed.

(** X7. The reload strategy is defined for every host: whatever the
    operating-system name, [get_file_reloader] applied to the tag
    [get_platform] gives is a function, the hard restart exactly on
    windows and otherwise the sending of signal 29 (darwin, bsd) or
    signal 1 (linux, cygin). For a tag outside the five it gives [None],
    which fails with [TypeError] when called. *)
Theorem reloader_defined_for_every_host :
  (∀ system,
     get_platform system ∈ known_platforms ∧
     (∃ f, get_file_reloader (get_platform system) = VFun f ∧
           (f = HardRestart ∨ f = SendSignal 29 ∨ f = SendSignal 1)) ∧
     (get_file_reloader (get_platform system) = VFun HardRestart ↔
      get_platform system = "windows") ∧
     (get_file_reloader (get_platform system) = VFun (SendSignal 29) ↔
      get_platform system = "darwin" ∨ get_platform system = "bsd")) ∧
  (∀ platform,
     platform ∉ known_platforms →
     get_file_reloader platform = VNone ∧
     ∀ (H : host) x w,
       call H (get_file_reloader platform) x w = Outcome (Raise TypeError) w []).
Proof.
  split.
  - intros system. pose proof (get_platform_known system) as Hk.
    split; [done|]. by apply reloader_of_known.
  - intros platform Hn.
    assert (get_file_reloader platform = VNone) as Hr.
    { unfold get_file_reloader.
      destruct (decide (platform = "windows")) as [->|_].
      { exfalso. apply Hn, list_elem_of_In. cbn. tauto. }
      destruct (decide (platform ∈ ["darwin"; "bsd"])) as [Hin|_].
      { exfalso. apply Hn, list_elem_of_In. apply list_elem_of_In in Hin.
        cbn in *. tauto. }
      destruct (decide (platform ∈ ["linux"; "cygin"])) as [Hin|_]; [|done].
      exfalso. apply Hn, list_elem_of_In. apply list_elem_of_In in Hin.
      cbn in *. tauto. }
    split; [done|]. intros H x w. by rewrite Hr.
Qed.










(** ** How the watch ends *)

Lemma watch_result (H : host) (args : gmap string value) (pandoc_args : list string)
    (pre_reload_file reload_file proc : value) (ticks : list tick) (w : world) :
  let turns := run_ticks (loop_body H args pandoc_args pre_reload_file reload_file proc)
                         ticks None w in
  watch H args pandoc_args pre_reload_file reload_file proc ticks w
  = Outcome (match res turns with
             | Ok _ => Running
             | Raise e => if is_KeyboardInterrupt e then Ok tt else Raise e
             | Running => Running
             end) (final turns) (log turns).
Proof.
  intros turns. rewrite watch_no_sleep. unfold try_except, while_true, bind.
  fold turns. destruct turns as [[pre|e|] w' l]; cbn; try by rewrite ?app_nil_r.
  destruct (is_KeyboardInterrupt e); cbn; by rewrite ?app_nil_r.
Qed.

(** X11. The outer [try] of [continuous] returns normally only when a
    turn of the loop raised [KeyboardInterrupt]; any other exception of
    a turn comes out of it unchanged; and as long as no turn raises, it
    is still running. In every case the processes and the log are those
    of the turns, so nothing runs after the loop. *)
Theorem watch_returns_only_on_interrupt (H : host) (args : gmap string value)
    (pandoc_args : list string) (pre_reload_file reload_file proc : value)
    (ticks : list tick) (w : world) :
  let turns := run_ticks (loop_body H args pandoc_args pre_reload_file reload_file proc)
                         ticks None w in
  let o := watch H args pandoc_args pre_reload_file reload_file proc ticks w in
  (res o = Ok tt ↔ res turns = Raise KeyboardInterrupt) ∧
  (∀ e, res o = Raise e ↔ res turns = Raise e ∧ is_KeyboardInterrupt e = false) ∧
  (res o = Running ↔ (∃ pre, res turns = Ok pre) ∨ res turns = Running) ∧
  final o = final turns ∧
  log o = log turns.
Proof.
  intros turns o. subst o. rewrite watch_result. fold turns. cbn [res final log].
  split_and!; [| | |done|done].
  - destruct (res turns) as [pre|e|]; [done| |done].
    destruct e; cbn; split; (done || by intros [= ->]).
  - intros e. destruct (res turns) as [pre|e'|]; [by split; [|intros []]| |by split; [|intros []]].
    destruct (is_KeyboardInterrupt e') eqn:Ek.
    + split; [done|]. intros [[= ->] Hk]. congruence.
    + split; [by intros [= ->]|]. by intros [[= ->] _].
  - destruct (res turns) as [pre|e|]; [split; eauto| |split; eauto].
    destruct (is_KeyboardInterrupt e); split; try done.
    all: intros [[pre Hp]|Hr]; done.
Qed.

Lemma try_except_passed {A} (m h : M A) (catches : exn → bool) (w : world) (e : exn) :
  res (m w) = Raise e → catches e = false → try_except m catches h w = m w.
Proof. intros Hr Hc. unfold try_except. by rewrite Hr, Hc. Qed.

Lemma run_ticks_turn_raises {S} (body : tick → S → M S) (ticks1 ticks2 : list tick)
    (t : tick) (s s1 : S) (e : exn) (w : world) :
  res (run_ticks body ticks1 s w) = Ok s1 →
  res (body t s1 (final (run_ticks body ticks1 s w))) = Raise e →
  run_ticks body (ticks1 ++ t :: ticks2) s w
  = Outcome (Raise e) (final (body t s1 (final (run_ticks body ticks1 s w))))
            (log (run_ticks body ticks1 s w)
             ++ log (body t s1 (final (run_ticks body ticks1 s w)))).
Proof.
  intros H1 Ht. rewrite run_ticks_app, (bind_returns _ _ _ _ H1).
  cbn [run_ticks]. by rewrite (bind_raises _ _ _ _ Ht).
Qed.

(** X12. An exception other than [KeyboardInterrupt] ends a continuous
    session. A turn of the loop raises what [os.stat] raises (the source
    file is gone, say) and what the reload sequence raises; such an
    exception in a turn comes out of the outer [try] and of
    [continuous], the later polls never take place, and the session does
    not return an exit status. *)
Theorem exception_ends_the_session (H : host) (platform : string)
    (args : gmap string value) (pandoc_args : list string)
    (load_file pre_reload_file reload_file : value) (filename : string) :
  args !! "filename" = Some (VStr filename) →
  args !! "action" = Some (VStr "pvc") →
  let body := loop_body H args pandoc_args pre_reload_file reload_file in
  let seq := reload_sequence H args pandoc_args pre_reload_file reload_file in
  (∀ proc t pre e w,
     t_stat t = Raise e →
     body proc t pre w = Outcome (Raise e) w [Lib (EStat filename)]) ∧
  (∀ proc t pre cur e w,
     t_stat t = Ok cur → Some cur ≠ pre →
     res (seq proc t w) = Raise e → is_KeyboardInterrupt e = false →
     body proc t pre w
     = Outcome (Raise e) (final (seq proc t w))
               (Lib (EStat filename) :: log (seq proc t w))) ∧
  (∀ proc ticks1 t ticks2 pre e w,
     let start := first_launch H args pandoc_args load_file w in
     let turns := run_ticks (body proc) ticks1 None (final start) in
     res start = Ok proc →
     res turns = Ok pre →
     res (body proc t pre (final turns)) = Raise e →
     is_KeyboardInterrupt e = false →
     watch H args pandoc_args pre_reload_file reload_file proc
           (ticks1 ++ t :: ticks2) (final start)
     = Outcome (Raise e) (final (body proc t pre (final turns)))
               (log turns ++ log (body proc t pre (final turns))) ∧
     res (continuous H platform args pandoc_args load_file pre_reload_file
                     reload_file (ticks1 ++ t :: ticks2) w) = Raise e ∧
     res (run_action H platform args pandoc_args (Some load_file) pre_reload_file
                     reload_file (ticks1 ++ t :: ticks2) w) = Raise e).
Proof.
  intros Hf Ha body seq. split_and!.
  - intros proc t pre e w Hs. by apply loop_body_poll_raises.
  - intros proc t pre cur e w Hs Hd Hr Hk. unfold body.
    rewrite (loop_body_differs _ _ _ _ _ _ _ _ _ _ _ Hf Hs Hd). cbn zeta.
    by rewrite (try_except_passed _ _ _ _ _ Hr Hk), Hr.
  - intros proc ticks1 t ticks2 pre e w start turns Hstart Hturns Ht Hk.
    assert (watch H args pandoc_args pre_reload_file reload_file proc
              (ticks1 ++ t :: ticks2) (final start)
            = Outcome (Raise e) (final (body proc t pre (final turns)))
                      (log turns ++ log (body proc t pre (final turns)))) as Hw.
    { rewrite watch_result. cbn zeta. fold (body proc).
      rewrite (run_ticks_turn_raises _ _ _ _ _ _ _ _ Hturns Ht). cbn [res final log].
      by rewrite Hk. }
    assert (res (continuous H platform args pandoc_args load_file pre_reload_file
                   reload_file (ticks1 ++ t :: ticks2) w) = Raise e) as Hc.
    { unfold continuous. rewrite res_bind. fold start. rewrite Hstart. by rewrite Hw. }
    split_and!; [done|done|].
    rewrite (run_action_pvc _ _ _ _ _ _ _ _ _ Ha), res_bind. by rewrite Hc.
Qed.

Lemma exception_ends_the_session_witness :
  let H := Example.linux Example.rc_loader true in
  let args := vars (Example.pvc false) in
  let load_file := VFun (LoaderCmd ["xdg-open"]) in
  let gone := Tick (Raise FileNotFoundError) None in
  args !! "filename" = Some (VStr "doc.md") ∧
  args !! "action" = Some (VStr "pvc") ∧
  res (run_action H "linux" args [] (Some load_file) (VFun LambdaNone)
         (VFun (SendSignal 1)) ([Example.poll 1] ++ gone :: [Example.poll 2]) [])
  = Raise FileNotFoundError.
Proof.
  intros H args load_file gone.
  assert (args !! "filename" = Some (VStr "doc.md")) as Hf by reflexivity.
  assert (args !! "action" = Some (VStr "pvc")) as Ha by reflexivity.
  split_and!; [done..|].
  destruct (exception_ends_the_session H "linux" args [] load_file (VFun LambdaNone)
              (VFun (SendSignal 1)) "doc.md" Hf Ha) as (_ & _ & Hend).
  apply (Hend (VProc 0) [Example.poll 1] gone [Example.poll 2] (Some (stat_at 1))
              FileNotFoundError []); reflexivity.
Defined.

(** ** Polls and changes *)

Lemma deliver_exited (signal : Z) (goes_on : bool) (p : nat) (w : world) :
  p_alive (process_of w p) = false → alter (deliver signal goes_on) p w = w.
Proof.
  intros Hd. apply list_eq. intros i. rewrite list_lookup_alter.
  destruct (decide (p = i)) as [<-|]; [|done].
  unfold process_of in Hd. destruct (w !! p) as [[cmd alive heeds]|]; [|done].
  cbn in Hd. subst alive. unfold deliver, killed, terminated. cbn.
  by repeat case_match.
Qed.

Lemma deliver_keeps_args (signal : Z) (goes_on : bool) (p : nat) (w : world) :
  p_args (process_of (alter (deliver signal goes_on) p w) p) = p_args (process_of w p).
Proof.
  unfold process_of. rewrite list_lookup_alter_eq.
  destruct (w !! p); [apply deliver_args|done].
Qed.

Lemma send_signal_call (H : host) (signal : Z) (p : nat) (goes_on : bool) (w : world) :
  h_signal H (p_args (process_of w p)) signal = Ok goes_on →
  call H (VFun (SendSignal signal)) (VProc p) w
  = Outcome (Ok VNone) (alter (deliver signal goes_on) p w) [Lib (ESendSignal p signal)].
Proof.
  intros Hs. cbn [call call_fun]. unfold proc_send_signal, signal_process.
  rewrite bind_assoc, bind_emit, bind_assoc, bind_get_world.
  destruct (p_alive (process_of w p)) eqn:Ealive.
  - rewrite Hs. rewrite !bind_assoc. unfold lift, bind. cbn [res final log get_world put_world ret app].
    reflexivity.
  - rewrite bind_ret. cbn [res final log ret]. by rewrite deliver_exited.
Qed.

Lemma send_signal_call_raises (H : host) (signal : Z) (p : nat) (e : exn) (w : world) :
  p_alive (process_of w p) = true →
  h_signal H (p_args (process_of w p)) signal = Raise e →
  call H (VFun (SendSignal signal)) (VProc p) w
  = Outcome (Raise e) w [Lib (ESendSignal p signal)].
Proof.
  intros Halive Hs. cbn [call call_fun]. unfold proc_send_signal.
  rewrite bind_assoc, bind_emit, bind_assoc, bind_get_world, Halive, Hs.
  reflexivity.
Qed.

Lemma signal_sequence (H : host) (args : gmap string value) (pandoc_args : list string)
    (signal : Z) (p : nat) (t : tick) (filename output out : string)
    (goes_on : bool) (w : world) :
  args !! "filename" = Some (VStr filename) →
  args !! "output" = Some (VStr output) →
  h_format H output (fst (h_splitext H (h_basename H filename))) = Ok out →
  t_interrupt t = None →
  h_signal H (p_args (process_of w p)) signal = Ok goes_on →
  reload_sequence H args pandoc_args (VFun LambdaNone) (VFun (SendSignal signal))
                  (VProc p) t w
  = Outcome (Ok tt) (alter (deliver signal goes_on) p w)
      (Enter (PreReload (VFun LambdaNone) (VProc p)) :: Enter Recompile ::
       (Lib <$> pandoc_calls H (pandoc_cmd filename out pandoc_args)) ++
       [Enter (Reload (VFun (SendSignal signal)) (VProc p));
        Lib (ESendSignal p signal)]).
Proof.
  intros Hf Ho Hfmt Hi Hs. unfold reload_sequence. rewrite !(interruptible_none _ _ _ Hi).
  rewrite bind_mark.
  change (call H (VFun LambdaNone) (VProc p)) with (@ret value VNone).
  rewrite bind_ret, bind_mark.
  rewrite bind_assoc, (index_str _ _ _ _ _ Hf).
  rewrite bind_assoc, (index_str _ _ _ _ _ Ho).
  rewrite (bind_returns _ _ _ out); rewrite (call_pandoc_ok _ _ _ _ _ _ Hfmt); [|done].
  cbn [res final log]. rewrite bind_mark.
  rewrite (bind_returns _ _ _ VNone); rewrite (send_signal_call _ _ _ _ _ Hs); [|done].
  reflexivity.
Qed.

Lemma signal_sequence_raises (H : host) (args : gmap string value)
    (pandoc_args : list string) (signal : Z) (p : nat) (t : tick)
    (filename output out : string) (e : exn) (w : world) :
  args !! "filename" = Some (VStr filename) →
  args !! "output" = Some (VStr output) →
  h_format H output (fst (h_splitext H (h_basename H filename))) = Ok out →
  t_interrupt t = None →
  p_alive (process_of w p) = true →
  h_signal H (p_args (process_of w p)) signal = Raise e →
  reload_sequence H args pandoc_args (VFun LambdaNone) (VFun (SendSignal signal))
                  (VProc p) t w
  = Outcome (Raise e) w
      (Enter (PreReload (VFun LambdaNone) (VProc p)) :: Enter Recompile ::
       (Lib <$> pandoc_calls H (pandoc_cmd filename out pandoc_args)) ++
       [Enter (Reload (VFun (SendSignal signal)) (VProc p));
        Lib (ESendSignal p signal)]).
Proof.
  intros Hf Ho Hfmt Hi Halive Hs. unfold reload_sequence.
  rewrite !(interruptible_none _ _ _ Hi).
  rewrite bind_mark.
  change (call H (VFun LambdaNone) (VProc p)) with (@ret value VNone).
  rewrite bind_ret, bind_mark.
  rewrite bind_assoc, (index_str _ _ _ _ _ Hf).
  rewrite bind_assoc, (index_str _ _ _ _ _ Ho).
  rewrite (bind_returns _ _ _ out); rewrite (call_pandoc_ok _ _ _ _ _ _ Hfmt); [|done].
  cbn [res final log]. rewrite bind_mark.
  rewrite (bind_raises _ _ _ e);
    rewrite (send_signal_call_raises _ _ _ _ _ Halive Hs); [|done].
  reflexivity.
Qed.

Lemma last_seen_cons (pre : option stat_result) (cur : stat_result)
    (rest : list stat_result) :
  last_seen pre (cur :: rest) = last_seen (Some cur) rest.
Proof.
  unfold last_seen. destruct rest as [|next rest]; [done|].
  change (last (cur :: next :: rest)) with (last (next :: rest)).
  destruct (last (next :: rest)) eqn:E; [done|].
  by apply last_None in E.
Qed.

Lemma signal_turns (H : host) (args : gmap string value) (pandoc_args : list string)
    (signal : Z) (p : nat) (filename output out : string) (goes_on : bool)
    (obs : list stat_result) (pre : option stat_result) (w : world) :
  args !! "filename" = Some (VStr filename) →
  args !! "output" = Some (VStr output) →
  h_format H output (fst (h_splitext H (h_basename H filename))) = Ok out →
  h_signal H (p_args (process_of w p)) signal = Ok goes_on →
  let o := run_ticks (loop_body H args pandoc_args (VFun LambdaNone)
                                (VFun (SendSignal signal)) (VProc p))
                     (observe obs) pre w in
  res o = Ok (last_seen pre obs) ∧
  final o = Nat.iter (changes pre obs) (alter (deliver signal goes_on) p) w ∧
  steps (log o)
  = mjoin (replicate (changes pre obs)
             [PreReload (VFun LambdaNone) (VProc p); Recompile;
              Reload (VFun (SendSignal signal)) (VProc p)]) ∧
  filter (λ e, is_send_signal e = true) (calls (log o))
  = replicate (changes pre obs) (ESendSignal p signal) ∧
  filter (λ e, is_popen e = true) (calls (log o)) = [] ∧
  filter (λ e, is_run e = true) (calls (log o))
  = replicate (changes pre obs) (ERun (pandoc_cmd filename out pandoc_args)).
Proof.
  intros Hf Ho Hfmt. revert pre w.
  induction obs as [|cur obs IH]; intros pre w Hs; [done|].
  cbn [observe fmap list_fmap run_ticks]. fold (observe obs).
  rewrite last_seen_cons. cbn [changes].
  destruct (decide (Some cur = pre)) as [<-|Hd].
  - rewrite (bind_returns _ _ _ (Some cur));
      rewrite (loop_body_same _ _ _ _ _ _ (Tick (Ok cur) None) _ cur _ Hf eq_refl);
      [|done].
    cbn [res final log].
    destruct (IH (Some cur) w Hs) as (I1 & I2 & I3 & I4 & I5 & I6).
    split_and!; [done|done|..].
    + change ([Lib (EStat filename)] ++ ?l) with (Lib (EStat filename) :: l).
      by rewrite steps_lib_cons.
    + rewrite calls_app, filter_app, I4. reflexivity.
    + rewrite calls_app, filter_app, I5. reflexivity.
    + rewrite calls_app, filter_app, I6. reflexivity.
  - assert (Some cur ≠ pre) as Hd' by done.
    rewrite (bind_returns _ _ _ (Some cur));
      rewrite (loop_body_differs _ _ _ _ _ _ (Tick (Ok cur) None) _ cur _ _
                 Hf eq_refl Hd'); cbn zeta;
      rewrite (try_except_ok _ _ _ _ tt);
      rewrite (signal_sequence _ _ _ _ _ (Tick (Ok cur) None) _ _ _ _ _
                 Hf Ho Hfmt eq_refl Hs); try done.
    cbn [res final log].
    assert (h_signal H (p_args (process_of (alter (deliver signal goes_on) p w) p))
              signal = Ok goes_on) as Hs' by (by rewrite deliver_keeps_args).
    destruct (IH (Some cur) (alter (deliver signal goes_on) p w) Hs')
      as (I1 & I2 & I3 & I4 & I5 & I6).
    split_and!.
    + done.
    + rewrite I2. cbn [Nat.add]. by rewrite Nat.iter_succ_r.
    + rewrite steps_app, I3. cbn [Nat.add replicate mjoin list_join].
      rewrite steps_lib_cons, !steps_enter, steps_app, steps_lib. reflexivity.
    + rewrite calls_app, filter_app, I4. cbn [Nat.add replicate].
      change (calls (?a :: Enter ?s1 :: Enter ?s2 :: ?l))
        with (EStat filename :: calls l).
      rewrite calls_app, calls_lib. unfold pandoc_calls.
      destruct (String.eqb _ ""); reflexivity.
    + rewrite calls_app, filter_app, I5.
      change (calls (?a :: Enter ?s1 :: Enter ?s2 :: ?l))
        with (EStat filename :: calls l).
      rewrite calls_app, calls_lib. unfold pandoc_calls.
      destruct (String.eqb _ ""); reflexivity.
    + rewrite calls_app, filter_app, I6. cbn [Nat.add replicate].
      change (calls (?a :: Enter ?s1 :: Enter ?s2 :: ?l))
        with (EStat filename :: calls l).
      rewrite calls_app, calls_lib. unfold pandoc_calls.
      destruct (String.eqb _ ""); reflexivity.
Qed.

Lemma iter_alter_length (n : nat) (f : process → process) (p : nat) (w : world) :
  length (Nat.iter n (alter f p) w) = length w.
Proof.
  induction n as [|n IH]; [done|]. by rewrite Nat.iter_succ, length_alter.
Qed.

Lemma iter_alter_id (n : nat) (f : process → process) (p : nat) (w : world) :
  (∀ pr, f pr = pr) → Nat.iter n (alter f p) w = w.
Proof.
  intros Hid. induction n as [|n IH]; [done|]. rewrite Nat.iter_succ, IH.
  by apply list_alter_id.
Qed.

Lemma iter_alter_others (n : nat) (f : process → process) (p q : nat) (w : world) :
  q ≠ p → Nat.iter n (alter f p) w !! q = w !! q.
Proof.
  intros Hq. induction n as [|n IH]; [done|].
  rewrite Nat.iter_succ, list_lookup_alter_ne by done. exact IH.
Qed.

Lemma deliver_handled (signal : Z) (pr : process) :
  signal ≠ SIGKILL → signal ≠ SIGTERM → deliver signal true pr = pr.
Proof.
  intros Hk Ht. unfold deliver.
  destruct (Z.eqb_spec signal SIGKILL); [done|].
  destruct (Z.eqb_spec signal SIGTERM); [done|].
  destruct pr as [cmd alive heeds]. cbn. by rewrite andb_true_r.
Qed.

Lemma unhandled_stays_dead (signal : Z) (n : nat) (p : nat) (w : world) :
  signal ≠ SIGTERM →
  p_alive (process_of (Nat.iter (S n) (alter (deliver signal false) p) w) p) = false.
Proof.
  intros Ht. rewrite Nat.iter_succ. set (w' := Nat.iter n _ w). unfold process_of.
  rewrite list_lookup_alter_eq. destruct (w' !! p) as [pr|]; [|done]. cbn.
  unfold deliver. destruct (Z.eqb_spec signal SIGKILL); [done|].
  destruct (Z.eqb_spec signal SIGTERM); [done|]. cbn. apply andb_false_r.
Qed.

Lemma signal_turn_raises (H : host) (args : gmap string value)
    (pandoc_args : list string) (signal : Z) (p : nat)
    (filename output out : string) (e : exn) (cur : stat_result) (ticks : list tick)
    (pre : option stat_result) (w : world) :
  args !! "filename" = Some (VStr filename) →
  args !! "output" = Some (VStr output) →
  h_format H output (fst (h_splitext H (h_basename H filename))) = Ok out →
  p_alive (process_of w p) = true →
  h_signal H (p_args (process_of w p)) signal = Raise e →
  is_KeyboardInterrupt e = false →
  Some cur ≠ pre →
  run_ticks (loop_body H args pandoc_args (VFun LambdaNone)
               (VFun (SendSignal signal)) (VProc p))
            (Tick (Ok cur) None :: ticks) pre w
  = Outcome (Raise e) w
      (Lib (EStat filename) ::
       Enter (PreReload (VFun LambdaNone) (VProc p)) :: Enter Recompile ::
       (Lib <$> pandoc_calls H (pandoc_cmd filename out pandoc_args)) ++
       [Enter (Reload (VFun (SendSignal signal)) (VProc p));
        Lib (ESendSignal p signal)]).
Proof.
  intros Hf Ho Hfmt Halive Hs Hk Hd. cbn [run_ticks].
  pose proof (signal_sequence_raises H args pandoc_args signal p
                (Tick (Ok cur) None) filename output out e w
                Hf Ho Hfmt eq_refl Halive Hs) as Hseq.
  rewrite (bind_raises _ _ _ e);
    rewrite (loop_body_differs _ _ _ _ _ _ (Tick (Ok cur) None) _ cur _ _
               Hf eq_refl Hd); cbn zeta;
    (rewrite (try_except_passed _ _ _ _ e); [|by rewrite Hseq|done]);
    rewrite Hseq; done.
Qed.

(** X13. With no pre-reload action and reload by sending a signal, over
    polls that all succeed without interruption. When the number is a
    signal of the host, the loop runs the pre-reload, recompile, reload
    sequence once for each poll whose metadata differs from the poll
    before, and for no other poll: the steps entered are that many copies
    of the sequence, pandoc is run that many times, that many signals are
    sent, all to the handle of the loop, and the metadata kept at the end
    is the last one read. No process is launched and no other process is
    touched. A viewer that handles the signal is left as it was; a viewer
    that exits on it (the default action of [SIGHUP] and [SIGUSR1]) is
    dead from the first change on, and the loop goes on recompiling and
    signalling its handle. When the number is no signal of the host, the
    first change ends the loop with the error of [os.kill], after pandoc
    has run. *)
Theorem one_reload_per_change (H : host) (args : gmap string value)
    (pandoc_args : list string) (signal : Z) (p : nat)
    (filename output out : string) (obs : list stat_result)
    (pre : option stat_result) (w : world) :
  args !! "filename" = Some (VStr filename) →
  args !! "output" = Some (VStr output) →
  h_format H output (fst (h_splitext H (h_basename H filename))) = Ok out →
  let viewer := process_of w p in
  let body := loop_body H args pandoc_args (VFun LambdaNone)
                (VFun (SendSignal signal)) (VProc p) in
  (∀ goes_on,
     h_signal H (p_args viewer) signal = Ok goes_on →
     let o := run_ticks body (observe obs) pre w in
     res o = Ok (last_seen pre obs) ∧
     steps (log o)
     = mjoin (replicate (changes pre obs)
                [PreReload (VFun LambdaNone) (VProc p); Recompile;
                 Reload (VFun (SendSignal signal)) (VProc p)]) ∧
     filter (λ e, is_run e = true) (calls (log o))
     = replicate (changes pre obs) (ERun (pandoc_cmd filename out pandoc_args)) ∧
     filter (λ e, is_send_signal e = true) (calls (log o))
     = replicate (changes pre obs) (ESendSignal p signal) ∧
     filter (λ e, is_popen e = true) (calls (log o)) = [] ∧
     length (final o) = length w ∧
     (∀ q, q ≠ p → final o !! q = w !! q) ∧
     (goes_on = true → signal ≠ SIGKILL → signal ≠ SIGTERM → final o = w) ∧
     (goes_on = false → signal ≠ SIGTERM → (1 ≤ changes pre obs)%nat →
      p_alive (process_of (final o) p) = false)) ∧
  (∀ e cur rest,
     p_alive viewer = true →
     h_signal H (p_args viewer) signal = Raise e →
     is_KeyboardInterrupt e = false →
     Some cur ≠ pre →
     let o := run_ticks body (observe (cur :: rest)) pre w in
     res o = Raise e ∧
     final o = w ∧
     calls (log o)
     = EStat filename :: pandoc_calls H (pandoc_cmd filename out pandoc_args)
       ++ [ESendSignal p signal]).
Proof.
  intros Hf Ho Hfmt viewer body. split.
  - intros goes_on Hs o.
    destruct (signal_turns H args pandoc_args signal p filename output out goes_on
                obs pre w Hf Ho Hfmt Hs) as (I1 & I2 & I3 & I4 & I5 & I6).
    fold body in I1, I2, I3, I4, I5, I6. fold o in I1, I2, I3, I4, I5, I6.
    split_and!; [done..| | | |].
    + rewrite I2. apply iter_alter_length.
    + intros q Hq. rewrite I2. by apply iter_alter_others.
    + intros -> Hk Ht. rewrite I2. apply iter_alter_id. intros pr.
      by apply deliver_handled.
    + intros -> Ht Hn. rewrite I2. destruct (changes pre obs) as [|n]; [lia|].
      by apply unhandled_stays_dead.
  - intros e cur rest Halive Hs Hk Hd o. subst o. unfold body.
    cbn [observe fmap list_fmap]. fold (observe rest).
    rewrite (signal_turn_raises H args pandoc_args signal p filename output out e cur
               (observe rest) pre w Hf Ho Hfmt Halive Hs Hk Hd).
    cbn [res final log]. split_and!; [done|done|].
    change (calls (?a :: Enter ?s1 :: Enter ?s2 :: ?l))
      with (EStat filename :: calls l).
    by rewrite calls_app, calls_lib.
Qed.

Lemma one_reload_per_change_witness :
  let H := with_signal (Posix.host_of "Linux") no_handlers in
  let args := vars (Example.pvc false) in
  let w := [Process ["xdg-open"; "out.pdf"] true true] in
  let polls := observe [stat_at 1; stat_at 1; stat_at 2] in
  let hangup := run_ticks (loop_body H args [] (VFun LambdaNone) (VFun (SendSignal 1))
                             (VProc 0)) polls None w in
  let invalid := run_ticks (loop_body H args [] (VFun LambdaNone)
                              (VFun (SendSignal 1000)) (VProc 0)) polls None w in
  args !! "filename" = Some (VStr "doc.md") ∧
  args !! "output" = Some (VStr "out.pdf") ∧
  h_format H "out.pdf" (fst (h_splitext H (h_basename H "doc.md"))) = Ok "out.pdf" ∧
  res hangup = Ok (Some (stat_at 2)) ∧
  filter (λ e, is_send_signal e = true) (calls (log hangup))
  = [ESendSignal 0 1; ESendSignal 0 1] ∧
  p_alive (process_of (final hangup) 0) = false ∧
  res invalid = Raise OSError.
Proof.
  intros H args w polls hangup invalid.
  assert (args !! "filename" = Some (VStr "doc.md")) as Hf by reflexivity.
  assert (args !! "output" = Some (VStr "out.pdf")) as Ho by reflexivity.
  assert (h_format H "out.pdf" (fst (h_splitext H (h_basename H "doc.md"))) = Ok "out.pdf")
    as Hfmt by reflexivity.
  destruct (proj1 (one_reload_per_change H args [] 1 0 "doc.md" "out.pdf" "out.pdf"
                     [stat_at 1; stat_at 1; stat_at 2] None w Hf Ho Hfmt)
              false eq_refl)
    as (Hres & _ & _ & Hsig & _ & _ & _ & _ & Hdead).
  destruct (proj2 (one_reload_per_change H args [] 1000 0 "doc.md" "out.pdf" "out.pdf"
                     [] None w Hf Ho Hfmt)
              OSError (stat_at 1) [stat_at 1; stat_at 2] eq_refl eq_refl eq_refl
              ltac:(discriminate))
    as (Herr & _ & _).
  split_and!; [done..| | | |].
  - exact Hres.
  - exact Hsig.
  - apply Hdead; [done|done|]. vm_compute. lia.
  - exact Herr.
Defined.

(** ** When a hard restart completes *)

Lemma alter_same (f : process → process) (p : nat) (pr : process) (w : world) :
  w !! p = Some pr → f pr = pr → alter f p w = w.
Proof.
  intros Hp Hf. apply list_eq. intros i. rewrite list_lookup_alter.
  destruct (decide (p = i)) as [<-|]; [|done]. by rewrite Hp; cbn; rewrite Hf.
Qed.

(** X14. [hard_restart] on a process with a command line completes
    exactly when the process had already exited or exits on
    [terminate()] within the grace period, and raises [TimeoutExpired]
    exactly when it is alive and does not. When it completes, its library
    calls are terminate, wait with the five-second timeout, kill and the
    launch of the same command line as a new process, in that order; the
    old process is dead and there is one process more, alive. When it
    raises, its library calls are terminate and wait only: it neither
    kills nor launches, and the processes are as they were, the viewer
    still alive. *)
Theorem hard_restart_completes_iff (H : host) (p : nat) (pr : process) (w : world) :
  w !! p = Some pr →
  p_args pr ≠ [] →
  let o := hard_restart H (VProc p) w in
  (res o = Ok VNone ↔ p_alive pr = false ∨ p_heeds_term pr = true) ∧
  (res o = Raise TimeoutExpired ↔ p_alive pr = true ∧ p_heeds_term pr = false) ∧
  (res o = Ok VNone →
   calls (log o)
   = [ETerminate p; EWait p 5; EKill p; EPopen (length w) (p_args pr)] ∧
   length (final o) = S (length w) ∧
   p_alive (process_of (final o) p) = false ∧
   final o !! length w
   = Some (Process (p_args pr) true (h_heeds_term H (p_args pr)))) ∧
  (res o = Raise TimeoutExpired →
   calls (log o) = [ETerminate p; EWait p 5] ∧
   final o = w ∧
   p_alive (process_of (final o) p) = true).
Proof.
  intros Hp Hargs o. subst o. rewrite hard_restart_eq. cbn zeta.
  assert (p < length w)%nat as Hlt by (by eapply lookup_lt_Some).
  assert (process_of w p = pr) as Hpr by (unfold process_of; by rewrite Hp).
  rewrite process_of_alter, Hpr by done.
  destruct pr as [cmd alive heeds]. cbn in Hargs |- *.
  destruct cmd as [|c cmd]; [done|].
  assert (∀ w' : world, length w' = length w → p_alive (process_of w' p) = false →
            ∀ extra, p_alive (process_of (w' ++ extra) p) = false) as Hold.
  { intros w' Hlen Hd extra. rewrite process_of_app; [done|by rewrite Hlen]. }
  assert (p_alive (process_of (alter killed p (alter terminated p w)) p) = false)
    as Hdead.
  { rewrite process_of_alter; [done|by rewrite length_alter]. }
  assert (∀ new : process,
            (alter killed p (alter terminated p w) ++ [new]) !! length w = Some new)
    as Hnew.
  { intros new. rewrite lookup_app_r by (by rewrite !length_alter).
    by rewrite !length_alter, Nat.sub_diag. }
  destruct alive, heeds; cbn [res final log andb negb].
  all: split; [intuition (auto; discriminate)|].
  all: split; [intuition (auto; discriminate)|].
  all: split; [|try (intros Hx; discriminate Hx)].
  all: try (intros Hx; discriminate Hx).
  1, 3, 4: intros _; split_and!;
    [by rewrite !length_alter
    |by rewrite length_app, !length_alter, Nat.add_1_r
    |apply Hold; [by rewrite !length_alter|done]
    |apply Hnew].
  intros _. rewrite (alter_same terminated p _ w Hp eq_refl).
  split_and!; [done|done|by rewrite Hpr].
Qed.

Lemma hard_restart_completes_iff_witness :
  let H := Posix.host_of "Linux" in
  let pr := Process Example.viewer true true in
  let stubborn := Process Example.viewer true false in
  let o := hard_restart H (VProc 0) [pr] in
  let o' := hard_restart H (VProc 0) [stubborn] in
  [pr] !! 0%nat = Some pr ∧
  p_args pr ≠ [] ∧
  res o = Ok VNone ∧
  calls (log o) = [ETerminate 0; EWait 0 5; EKill 0; EPopen 1 Example.viewer] ∧
  res o' = Raise TimeoutExpired ∧
  calls (log o') = [ETerminate 0; EWait 0 5] ∧
  final o' = [stubborn].
Proof.
  intros H pr stubborn o o'.
  assert ([pr] !! 0%nat = Some pr) as Hp by reflexivity.
  assert (p_args pr ≠ []) as Hargs by done.
  destruct (hard_restart_completes_iff H 0 pr [pr] Hp Hargs) as (Hok & _ & Hcalls & _).
  assert (res o = Ok VNone) as Hres by (apply Hok; by right).
  assert ([stubborn] !! 0%nat = Some stubborn) as Hp' by reflexivity.
  destruct (hard_restart_completes_iff H 0 stubborn [stubborn] Hp' Hargs)
    as (_ & Hto & _ & Hquiet).
  assert (res o' = Raise TimeoutExpired) as Hres' by (by apply Hto).
  destruct (Hquiet Hres') as (Hc' & Hw' & _).
  split_and!; [done..| | | |].
  - by apply Hcalls.
  - exact Hres'.
  - exact Hc'.
  - exact Hw'.
Defined.

(** ** Sessions without a loop *)

Lemma vars_lookup (a : cmd_args) :
  vars a !! "cd" = Some (VBool (a_cd a)) ∧
  vars a !! "exec" = Some (opt_str (a_exec a)) ∧
  vars a !! "new-viewer" = Some (VBool (a_new_viewer a)) ∧
  vars a !! "norc" = Some (VBool (a_norc a)) ∧
  vars a !! "action" = Some (VStr (a_action a)) ∧
  vars a !! "rc" = Some (opt_str (a_rc a)) ∧
  vars a !! "output" = Some (VStr (a_output a)) ∧
  vars a !! "filename" = Some (VStr (a_filename a)) ∧
  vars a !! "args" = None.
Proof. destruct a. repeat split; reflexivity. Qed.







(** ** The arguments an rc file sets *)

Lemma main_with_rc (H : host) (a : cmd_args) (rc : string) (config : config)
    (pandoc_args : list string) (ticks : list tick) (w : world) :
  a_cd a = false → a_exec a = None → a_rc a = Some rc → rc ≠ "" →
  h_isfile H (h_normalize_path H rc) = true →
  h_read_config H (h_normalize_path H rc) = Ok config →
  let platform := get_platform (h_system H) in
  let args := (VStr <$> default ∅ (config !! "args")) ∪ vars a in
  main H a pandoc_args ticks w
  = bind (resolve_hooks H platform config args)
         (λ hooks, run_action H platform args pandoc_args (fst hooks)
                     (snd (snd hooks)) (fst (snd hooks)) ticks) w.
Proof.
  intros Hcd Hexec Hrc Hne Hfile Hread platform args.
  destruct (vars_lookup a) as (Lcd & Lexec & _ & _ & _ & Lrc & _ & _ & _).
  unfold main, load_conf. fold platform.
  rewrite (dict_get_some _ _ _ Lcd), (dict_get_some _ _ _ Lexec),
    (dict_get_some _ _ _ Lrc).
  rewrite Hcd, Hexec, Hrc. cbn [truthy is_not_none opt_str].
  rewrite !bind_ret.
  change (truthy (VStr rc)) with (negb (String.eqb rc "")).
  destruct (String.eqb_spec rc ""); [done|]. cbn [negb as_str].
  rewrite bind_assoc, bind_ret.
  pose proof (load_rc_read H rc ∅ w (Ok config) Hfile Hread) as Hload.
  cbn match in Hload. rewrite (right_id_L ∅ (∪)) in Hload.
  rewrite (bind_returns _ _ _ config); rewrite Hload; [|done].
  cbn [res final log app]. fold args. apply outcome_eta.
Qed.

Lemma resolve_hooks_no_section (H : host) (platform : string) (conf : config)
    (args : gmap string value) (output : string) (new_viewer : value) (w : world) :
  args !! "output" = Some (VStr output) →
  args !! "new-viewer" = Some new_viewer →
  conf_section conf (output_ext H output) = None →
  resolve_hooks H platform conf args w
  = Outcome
      (Ok (Some (get_file_loader platform),
           if truthy new_viewer
           then (get_file_loader platform, VFun PreReloadKillProc)
           else (get_file_reloader platform, VFun LambdaNone)))
      w [].
Proof.
  intros Ho Hnv Hsec. rewrite (resolve_hooks_eq _ _ _ _ _ _ Ho).
  rewrite output_ext_some in Hsec |- *.
  unfold resolve_load_file. rewrite Hsec, bind_ret.
  unfold resolve_reload_hooks. rewrite (dict_index_some _ _ _ Hnv), bind_assoc, bind_ret.
  destruct (truthy new_viewer); [reflexivity|]. rewrite Hsec. reflexivity.
Qed.

Lemma lookup_merged (sect : gmap string string) (cli : gmap string value) (key : string) :
  ((VStr <$> sect) ∪ cli) !! key
  = match sect !! key with
    | Some text => Some (VStr text)
    | None => cli !! key
    end.
Proof.
  rewrite lookup_union, lookup_fmap.
  destruct (sect !! key); cbn; by destruct (cli !! key).
Qed.

(** X4. In a session that reads an rc file (here one given with [--rc],
    no [--cd], no [-e]), the section [args] of the file overrides the
    command line: [main] resolves the hooks and runs the action on the
    command line's arguments with every key of the section replaced by
    the text of the file. So a compile-only session whose rc file sets
    [output] runs pandoc on the output path of the file, not on the one
    of the command line. The values of the section are texts, and a text
    that is not empty is true: any such text under [new-viewer]
    ([False] as well) turns the new-viewer mode on, and the session runs
    with the load function as reload hook and the kill function as
    pre-reload hook. *)
Theorem rc_args_override_command_line (H : host) (a : cmd_args) (rc : string)
    (config : config) (sect : gmap string string) (pandoc_args : list string)
    (ticks : list tick) (w : world) :
  a_cd a = false → a_exec a = None → a_rc a = Some rc → rc ≠ "" →
  h_isfile H (h_normalize_path H rc) = true →
  h_read_config H (h_normalize_path H rc) = Ok config →
  config !! "args" = Some sect →
  let platform := get_platform (h_system H) in
  let args := (VStr <$> sect) ∪ vars a in
  main H a pandoc_args ticks w
  = bind (resolve_hooks H platform config args)
         (λ hooks, run_action H platform args pandoc_args (fst hooks)
                     (snd (snd hooks)) (fst (snd hooks)) ticks) w ∧
  (∀ text out,
     sect !! "output" = Some text →
     sect !! "action" = None → sect !! "filename" = None →
     sect !! "new-viewer" = None →
     a_action a = "p" →
     conf_section config (output_ext H text) = None →
     h_format H text (fst (h_splitext H (h_basename H (a_filename a)))) = Ok out →
     main H a pandoc_args ticks w
     = Outcome (Ok 0) w
         (Lib <$> pandoc_calls H (pandoc_cmd (a_filename a) out pandoc_args))) ∧
  (∀ text output,
     sect !! "new-viewer" = Some text → text ≠ "" →
     args !! "output" = Some (VStr output) →
     main H a pandoc_args ticks w
     = bind (resolve_load_file H platform config (output_ext H output))
         (λ load_file,
            bind (read_local "load_file" load_file)
              (λ reload_file,
                 run_action H platform args pandoc_args load_file
                   (VFun PreReloadKillProc) reload_file ticks)) w).
Proof.
  intros Hcd Hexec Hrc Hne Hfile Hread Hsect platform args.
  pose proof (main_with_rc H a rc config pandoc_args ticks w Hcd Hexec Hrc Hne
                Hfile Hread) as Hmain.
  cbn zeta in Hmain. rewrite Hsect in Hmain.
  change (default ∅ (Some sect)) with sect in Hmain.
  fold platform in Hmain. fold args in Hmain.
  destruct (vars_lookup a) as (_ & _ & Lnv & _ & La & _ & Lo & Lf & _).
  split_and!.
  - exact Hmain.
  - intros text out Ho Hna Hnf Hnn Hact Hsec Hfmt.
    assert (args !! "output" = Some (VStr text)) as Ao
      by (unfold args; by rewrite lookup_merged, Ho).
    assert (args !! "action" = Some (VStr "p")) as Aa
      by (unfold args; by rewrite lookup_merged, Hna, La, Hact).
    assert (args !! "filename" = Some (VStr (a_filename a))) as Af
      by (unfold args; by rewrite lookup_merged, Hnf).
    assert (args !! "new-viewer" = Some (VBool (a_new_viewer a))) as An
      by (unfold args; by rewrite lookup_merged, Hnn).
    rewrite Hmain.
    pose proof (resolve_hooks_no_section H platform config args text _ w Ao An Hsec)
      as Hres.
    rewrite (bind_returns _ _ _ _ (f_equal res Hres)), Hres.
    cbn [res final log app fst snd].
    unfold run_action. rewrite (dict_index_some _ _ _ Aa), bind_ret.
    change (eq_str (VStr "p") "p") with true. cbn match.
    rewrite bind_assoc, (index_str _ _ _ _ _ Af).
    rewrite bind_assoc, (index_str _ _ _ _ _ Ao).
    rewrite bind_assoc.
    rewrite (bind_returns _ _ _ out); rewrite (call_pandoc_ok _ _ _ _ _ _ Hfmt); [|done].
    cbn. by rewrite app_nil_r.
  - intros text output Hnv Htext Ao.
    assert (args !! "new-viewer" = Some (VStr text)) as An
      by (unfold args; by rewrite lookup_merged, Hnv).
    rewrite Hmain. unfold resolve_hooks.
    rewrite bind_assoc, (index_str _ _ _ _ _ Ao).
    rewrite bind_assoc. apply bind_ext. intros load_file w1.
    unfold resolve_reload_hooks.
    rewrite !bind_assoc, (dict_index_some _ _ _ An), bind_ret, (truthy_str _ Htext).
    rewrite !bind_assoc. apply bind_ext. intros reload_file w2.
    rewrite bind_ret, bind_ret. reflexivity.
Qed.

Lemma rc_args_override_command_line_witness :
  let sect : gmap string string := {[ "output" := "{filename}.html" ]} in
  let conf : config := {[ "args" := sect ]} in
  let H := Posix.make "Linux" ∅ (Some ("my.rc", conf)) true in
  let a := CmdArgs false None false false false "p" (Some "my.rc") "out.pdf" "doc.md" in
  conf !! "args" = Some sect ∧
  main H a [] [] []
  = Outcome (Ok 0) [] [Lib (ERun ["pandoc"; "doc.md"; "-o"; "doc.html"])].
Proof.
  intros sect conf H a.
  assert (conf !! "args" = Some sect) as Hsect by reflexivity.
  split; [done|].
  destruct (rc_args_override_command_line H a "my.rc" conf sect [] [] []
              eq_refl eq_refl eq_refl ltac:(discriminate) eq_refl eq_refl Hsect)
    as (_ & Hout & _).
  exact (Hout "{filename}.html" "doc.html" eq_refl eq_refl eq_refl eq_refl eq_refl
           eq_refl eq_refl).
Defined.

(** ** The [-e] option *)

Lemma main_stages (H : host) (a : cmd_args) (pandoc_args : list string)
    (ticks : list tick) :
  main H a pandoc_args ticks
  = bind (cd_stage H (vars a))
         (λ _, bind (exec_stage (vars a))
                    (λ _, after_exec H (vars a) pandoc_args ticks)).
Proof. reflexivity. Qed.

Section SameBut.

Context (H : host) (key : string) (d1 d2 : gmap string value).
Hypothesis same : same_but key d1 d2.

Lemma dict_index_same (k : string) : k ≠ key → dict_index d1 k = dict_index d2 k.
Proof. intros Hk. unfold dict_index. by rewrite (same k Hk). Qed.

Lemma dict_get_same (k : string) : k ≠ key → dict_get d1 k = dict_get d2 k.
Proof. intros Hk. unfold dict_get. by rewrite (same k Hk). Qed.

Lemma same_but_union (m : gmap string value) : same_but key (m ∪ d1) (m ∪ d2).
Proof. intros k Hk. by rewrite !lookup_union, (same k Hk). Qed.

End SameBut.

Section SameButExec.

Context (H : host) (d1 d2 : gmap string value).
Hypothesis same : same_but "exec" d1 d2.

Lemma loop_body_same_but (pandoc_args : list string) :
  loop_body H d1 pandoc_args = loop_body H d2 pandoc_args.
Proof.
  unfold loop_body, reload_sequence.
  rewrite (dict_index_same "exec" d1 d2 same "filename"), 
    (dict_index_same "exec" d1 d2 same "output"); done.
Qed.

Lemma continuous_same_but (platform : string) (pandoc_args : list string) :
  continuous H platform d1 pandoc_args = continuous H platform d2 pandoc_args.
Proof.
  unfold continuous, first_launch, watch. rewrite loop_body_same_but.
  rewrite (dict_index_same "exec" d1 d2 same "filename"), 
    (dict_index_same "exec" d1 d2 same "output"); done.
Qed.

Lemma run_action_same_but (platform : string) (pandoc_args : list string) :
  run_action H platform d1 pandoc_args = run_action H platform d2 pandoc_args.
Proof.
  unfold run_action. rewrite continuous_same_but.
  rewrite (dict_index_same "exec" d1 d2 same "filename"), 
    (dict_index_same "exec" d1 d2 same "output"),
    (dict_index_same "exec" d1 d2 same "action"); done.
Qed.

Lemma resolve_hooks_same_but (platform : string) (conf : config) :
  resolve_hooks H platform conf d1 = resolve_hooks H platform conf d2.
Proof.
  unfold resolve_hooks, resolve_reload_hooks.
  rewrite (dict_index_same "exec" d1 d2 same "output"), 
    (dict_index_same "exec" d1 d2 same "new-viewer"); done.
Qed.

Lemma load_conf_same_but (platform : string) :
  load_conf H platform d1 = load_conf H platform d2.
Proof.
  unfold load_conf.
  rewrite (dict_get_same "exec" d1 d2 same "rc"), 
    (dict_get_same "exec" d1 d2 same "norc"); done.
Qed.

Lemma cd_stage_same_but : cd_stage H d1 = cd_stage H d2.
Proof.
  unfold cd_stage.
  rewrite (dict_get_same "exec" d1 d2 same "cd"), 
    (dict_index_same "exec" d1 d2 same "filename"); done.
Qed.

End SameButExec.

Lemma after_exec_same_but (H : host) (d1 d2 : gmap string value)
    (pandoc_args : list string) (ticks : list tick) (w : world) :
  same_but "exec" d1 d2 →
  after_exec H d1 pandoc_args ticks w = after_exec H d2 pandoc_args ticks w.
Proof.
  intros same. unfold after_exec. cbn zeta.
  rewrite (load_conf_same_but H d1 d2 same). apply bind_ext. intros conf w1.
  pose proof (same_but_union "exec" d1 d2 same (VStr <$> default ∅ (conf !! "args")))
    as same'.
  rewrite (resolve_hooks_same_but H _ _ same'). apply bind_ext. intros hooks w2.
  by rewrite (run_action_same_but H _ _ same').
Qed.

Lemma vars_same_but_exec (a : cmd_args) (code1 code2 : option string) :
  same_but "exec" (vars (set_exec a code1)) (vars (set_exec a code2)).
Proof.
  intros k Hk. unfold vars, set_exec. cbn [a_cd a_exec a_g a_new_viewer a_norc
    a_action a_rc a_output a_filename].
  rewrite !list_to_map_cons, !lookup_insert.
  repeat case_decide; done.
Qed.

(** X17. The code given with [-e] is never run. [main] reads
    [args.exec] when [args] is already a dict, which raises
    [AttributeError]; the handler prints the error and the session goes
    on. A session with [-e code] therefore has the result, the processes
    and the steps of the same session without [-e], whatever the code
    is, and its log is the other log with at most that one print
    added. *)
Theorem exec_option_runs_nothing (H : host) (a : cmd_args) (code : string)
    (pandoc_args : list string) (ticks : list tick) (w : world) :
  let with_e := main H (set_exec a (Some code)) pandoc_args ticks w in
  let without := main H (set_exec a None) pandoc_args ticks w in
  res with_e = res without ∧
  final with_e = final without ∧
  steps (log with_e) = steps (log without) ∧
  (log with_e = log without ∨
   ∃ before after,
     log with_e
     = before ++ Lib (EPrint "'dict' object has no attribute 'exec'") :: after ∧
     log without = before ++ after).
Proof.
  cbn zeta. rewrite !main_stages.
  pose proof (vars_same_but_exec a (Some code) None) as same.
  rewrite (cd_stage_same_but H _ _ same).
  set (cd := cd_stage H (vars (set_exec a None))).
  assert (exec_stage (vars (set_exec a (Some code)))
          = emit (EPrint "'dict' object has no attribute 'exec'")) as ->.
  { destruct a; reflexivity. }
  assert (exec_stage (vars (set_exec a None)) = ret tt) as ->.
  { destruct a; reflexivity. }
  destruct (cd w) as [[[]|e|] w1 l1] eqn:Ecd.
  - rewrite !(bind_returns cd _ w tt) by (by rewrite Ecd). rewrite Ecd.
    cbn [res final log]. rewrite bind_emit, bind_ret. cbn [res final log].
    rewrite (after_exec_same_but H _ _ pandoc_args ticks w1 same).
    set (rest := after_exec H (vars (set_exec a None)) pandoc_args ticks w1).
    split_and!; [done|done| |].
    + by rewrite !steps_app, steps_lib_cons.
    + right. by exists l1, (log rest).
  - rewrite !(bind_raises cd _ w e) by (by rewrite Ecd).
    split_and!; [done..|by left].
  - unfold bind. rewrite Ecd. split_and!; [done..|by left].
Qed.

(** ** A whole continuous session *)






(** ** The new-viewer mode over a whole run of polls *)

Lemma kill_call (p : nat) (w : world) :
  pre_reload_kill_proc (VProc p) w
  = Outcome (Ok VNone) (alter (killed) p w) [Lib (EKill p)].
Proof. reflexivity. Qed.

Lemma kill_sequence (H : host) (args : gmap string value) (pandoc_args : list string)
    (prefix : list string) (p : nat) (t : tick) (filename output out : string)
    (w : world) :
  args !! "filename" = Some (VStr filename) →
  args !! "output" = Some (VStr output) →
  h_format H output (fst (h_splitext H (h_basename H filename))) = Ok out →
  t_interrupt t = None →
  reload_sequence H args pandoc_args (VFun PreReloadKillProc) (VFun (LoaderCmd prefix))
                  (VProc p) t w
  = Outcome (Ok tt) (alter (killed) p w)
      (Enter (PreReload (VFun PreReloadKillProc) (VProc p)) :: Lib (EKill p) ::
       Enter Recompile ::
       (Lib <$> pandoc_calls H (pandoc_cmd filename out pandoc_args)) ++
       [Enter (Reload (VFun (LoaderCmd prefix)) (VProc p))]).
Proof.
  intros Hf Ho Hfmt Hi. unfold reload_sequence. rewrite !(interruptible_none _ _ _ Hi).
  cbn [call call_fun]. rewrite bind_mark.
  rewrite (bind_returns _ _ _ VNone); rewrite kill_call; [|done].
  cbn [res final log]. rewrite bind_mark.
  rewrite bind_assoc, (index_str _ _ _ _ _ Hf).
  rewrite bind_assoc, (index_str _ _ _ _ _ Ho).
  rewrite (bind_returns _ _ _ out); rewrite (call_pandoc_ok _ _ _ _ _ _ Hfmt); [|done].
  cbn [res final log]. rewrite bind_mark, bind_ret. reflexivity.
Qed.

Lemma kill_turns (H : host) (args : gmap string value) (pandoc_args : list string)
    (prefix : list string) (p : nat) (filename output out : string)
    (obs : list stat_result) (pre : option stat_result) (w : world) :
  args !! "filename" = Some (VStr filename) →
  args !! "output" = Some (VStr output) →
  h_format H output (fst (h_splitext H (h_basename H filename))) = Ok out →
  let o := run_ticks (loop_body H args pandoc_args (VFun PreReloadKillProc)
                                (VFun (LoaderCmd prefix)) (VProc p))
                     (observe obs) pre w in
  res o = Ok (last_seen pre obs) ∧
  final o = Nat.iter (changes pre obs) (alter (killed) p) w ∧
  steps (log o)
  = mjoin (replicate (changes pre obs)
             [PreReload (VFun PreReloadKillProc) (VProc p); Recompile;
              Reload (VFun (LoaderCmd prefix)) (VProc p)]) ∧
  filter (λ e, is_kill e = true) (calls (log o))
  = replicate (changes pre obs) (EKill p) ∧
  filter (λ e, is_popen e = true) (calls (log o)) = [] ∧
  filter (λ e, is_run e = true) (calls (log o))
  = replicate (changes pre obs) (ERun (pandoc_cmd filename out pandoc_args)).
Proof.
  intros Hf Ho Hfmt. revert pre w.
  induction obs as [|cur obs IH]; intros pre w; [done|].
  cbn [observe fmap list_fmap run_ticks]. fold (observe obs).
  rewrite last_seen_cons. cbn [changes].
  destruct (decide (Some cur = pre)) as [<-|Hd].
  - rewrite (bind_returns _ _ _ (Some cur));
      rewrite (loop_body_same _ _ _ _ _ _ (Tick (Ok cur) None) _ cur _ Hf eq_refl);
      [|done].
    cbn [res final log]. destruct (IH (Some cur) w) as (I1 & I2 & I3 & I4 & I5 & I6).
    split_and!; [done|done|..].
    + change ([Lib (EStat filename)] ++ ?l) with (Lib (EStat filename) :: l).
      by rewrite steps_lib_cons.
    + rewrite calls_app, filter_app, I4. reflexivity.
    + rewrite calls_app, filter_app, I5. reflexivity.
    + rewrite calls_app, filter_app, I6. reflexivity.
  - assert (Some cur ≠ pre) as Hd' by done.
    rewrite (bind_returns _ _ _ (Some cur));
      rewrite (loop_body_differs _ _ _ _ _ _ (Tick (Ok cur) None) _ cur _ _
                 Hf eq_refl Hd'); cbn zeta;
      rewrite (try_except_ok _ _ _ _ tt);
      rewrite (kill_sequence _ _ _ _ _ (Tick (Ok cur) None) _ _ _ _
                 Hf Ho Hfmt eq_refl); try done.
    cbn [res final log].
    destruct (IH (Some cur) (alter (killed) p w))
      as (I1 & I2 & I3 & I4 & I5 & I6).
    split_and!.
    + done.
    + rewrite I2. cbn [Nat.add]. by rewrite Nat.iter_succ_r.
    + rewrite steps_app, I3. cbn [Nat.add replicate mjoin list_join].
      rewrite steps_lib_cons, steps_enter, steps_lib_cons, !steps_enter, steps_app,
        steps_lib. reflexivity.
    + rewrite calls_app, filter_app, I4. cbn [Nat.add replicate].
      change (calls (?a :: Enter ?s1 :: Lib ?k :: Enter ?s2 :: ?l))
        with (EStat filename :: k :: calls l).
      rewrite calls_app, calls_lib. unfold pandoc_calls.
      destruct (String.eqb _ ""); reflexivity.
    + rewrite calls_app, filter_app, I5.
      change (calls (?a :: Enter ?s1 :: Lib ?k :: Enter ?s2 :: ?l))
        with (EStat filename :: k :: calls l).
      rewrite calls_app, calls_lib. unfold pandoc_calls.
      destruct (String.eqb _ ""); reflexivity.
    + rewrite calls_app, filter_app, I6. cbn [Nat.add replicate].
      change (calls (?a :: Enter ?s1 :: Lib ?k :: Enter ?s2 :: ?l))
        with (EStat filename :: k :: calls l).
      rewrite calls_app, calls_lib. unfold pandoc_calls.
      destruct (String.eqb _ ""); reflexivity.
Qed.

Lemma killed_stays_dead (n : nat) (p : nat) (w : world) :
  p_alive (process_of (Nat.iter (S n) (alter (killed) p) w) p) = false.
Proof.
  rewrite Nat.iter_succ. set (w' := Nat.iter n _ w). unfold process_of.
  rewrite list_lookup_alter_eq. by destruct (w' !! p).
Qed.

(** X19. With [--new-viewer] and a load function that builds the opener's
    command line, over polls that all succeed: at every poll whose
    metadata differs from the poll before the loop kills the process of
    its handle and recompiles, and the reload step calls the load function
    on the handle, which only builds a list. The loop launches no process
    and runs no command other than pandoc, however many changes there
    are; after the first change the viewer is dead for the rest of the
    session, and no other process is touched. *)
Theorem new_viewer_only_kills (H : host) (args : gmap string value)
    (pandoc_args : list string) (prefix : list string) (p : nat)
    (filename output out : string) (obs : list stat_result)
    (pre : option stat_result) (w : world) :
  args !! "filename" = Some (VStr filename) →
  args !! "output" = Some (VStr output) →
  h_format H output (fst (h_splitext H (h_basename H filename))) = Ok out →
  let o := run_ticks (loop_body H args pandoc_args (VFun PreReloadKillProc)
                                (VFun (LoaderCmd prefix)) (VProc p))
                     (observe obs) pre w in
  res o = Ok (last_seen pre obs) ∧
  steps (log o)
  = mjoin (replicate (changes pre obs)
             [PreReload (VFun PreReloadKillProc) (VProc p); Recompile;
              Reload (VFun (LoaderCmd prefix)) (VProc p)]) ∧
  filter (λ e, is_kill e = true) (calls (log o))
  = replicate (changes pre obs) (EKill p) ∧
  filter (λ e, is_popen e = true) (calls (log o)) = [] ∧
  filter (λ e, is_run e = true) (calls (log o))
  = replicate (changes pre obs) (ERun (pandoc_cmd filename out pandoc_args)) ∧
  length (final o) = length w ∧
  ((1 ≤ changes pre obs)%nat → p_alive (process_of (final o) p) = false) ∧
  (∀ q, q ≠ p → final o !! q = w !! q).
Proof.
  intros Hf Ho Hfmt o.
  destruct (kill_turns H args pandoc_args prefix p filename output out obs pre w
              Hf Ho Hfmt) as (I1 & I2 & I3 & I4 & I5 & I6).
  fold o in I1, I2, I3, I4, I5, I6.
  split_and!; [done..| | |].
  - rewrite I2. apply iter_alter_length.
  - intros Hn. rewrite I2. destruct (changes pre obs) as [|n]; [lia|].
    apply killed_stays_dead.
  - intros q Hq. rewrite I2. by apply iter_alter_others.
Qed.

Lemma new_viewer_only_kills_witness :
  let H := Posix.host_of "Linux" in
  let args := vars (Example.pvc true) in
  let w := [Process ["xdg-open"; "out.pdf"] true true] in
  let o := run_ticks (loop_body H args [] (VFun PreReloadKillProc)
                        (VFun (LoaderCmd ["xdg-open"])) (VProc 0))
                     (observe [stat_at 1; stat_at 2; stat_at 2]) None w in
  args !! "filename" = Some (VStr "doc.md") ∧
  args !! "output" = Some (VStr "out.pdf") ∧
  h_format H "out.pdf" (fst (h_splitext H (h_basename H "doc.md"))) = Ok "out.pdf" ∧
  filter (λ e, is_kill e = true) (calls (log o)) = [EKill 0; EKill 0] ∧
  filter (λ e, is_popen e = true) (calls (log o)) = [] ∧
  p_alive (process_of (final o) 0) = false.
Proof.
  intros H args w o.
  assert (args !! "filename" = Some (VStr "doc.md")) as Hf by reflexivity.
  assert (args !! "output" = Some (VStr "out.pdf")) as Ho by reflexivity.
  assert (h_format H "out.pdf" (fst (h_splitext H (h_basename H "doc.md"))) = Ok "out.pdf")
    as Hfmt by reflexivity.
  destruct (new_viewer_only_kills H args [] ["xdg-open"] 0 "doc.md" "out.pdf"
              "out.pdf" [stat_at 1; stat_at 2; stat_at 2] None w Hf Ho Hfmt)
    as (_ & _ & Hkill & Hpopen & _ & _ & Hdead & _).
  split_and!; [done..| | |].
  - exact Hkill.
  - exact Hpopen.
  - apply Hdead. vm_compute. lia.
Defined.

(** ** A default rc file that cannot be read *)

Ltac rc_ok R :=
  rewrite (bind_returns _ _ _ _ (f_equal res (load_rc_reads _ _ _ _ R))),
    (load_rc_reads _ _ _ _ R); cbn [res final log app].

Ltac rc_bad Hf Hr :=
  first [ rewrite (bind_raises _ _ _ _ (f_equal res (load_rc_read _ _ _ _ _ Hf Hr))),
            (load_rc_read _ _ _ _ _ Hf Hr)
        | rewrite (load_rc_read _ _ _ _ _ Hf Hr) ];
  reflexivity.

Lemma default_rc_read_error (H : host) (platform : string) (conf : config) (w : world)
    (i : nat) (dir : string) (e : exn) :
  platform ≠ "windows" →
  default_rc_dirs !! i = Some dir →
  (∀ j d, (j < i)%nat → default_rc_dirs !! j = Some d → rc_reads H (default_rc H d)) →
  h_isfile H (h_normalize_path H (default_rc H dir)) = true →
  h_read_config H (h_normalize_path H (default_rc H dir)) = Raise e →
  load_default_rc H platform conf w = Outcome (Raise e) w [].
Proof.
  intros Hp Hdir Hearlier Hf Hr.
  unfold load_default_rc. destruct (decide (platform = "windows")); [done|].
  cbn [foldl]. fold (default_rc H "/opt/local/share/panmk").
  fold (default_rc H "/usr/local/share/panmk").
  fold (default_rc H "/usr/local/lib/panmk"). fold (default_rc H "~").
  rewrite !bind_assoc, bind_ret.
  destruct i as [|[|[|[|i]]]]; cbn in Hdir; [| | | |done];
    injection Hdir as <-.
  - rc_bad Hf Hr.
  - pose proof (Hearlier 0%nat _ ltac:(lia) eq_refl) as R1.
    rc_ok R1. rc_bad Hf Hr.
  - pose proof (Hearlier 0%nat _ ltac:(lia) eq_refl) as R1.
    pose proof (Hearlier 1%nat _ ltac:(lia) eq_refl) as R2.
    rc_ok R1. rc_ok R2. rc_bad Hf Hr.
  - pose proof (Hearlier 0%nat _ ltac:(lia) eq_refl) as R1.
    pose proof (Hearlier 1%nat _ ltac:(lia) eq_refl) as R2.
    pose proof (Hearlier 2%nat _ ltac:(lia) eq_refl) as R3.
    rc_ok R1. rc_ok R2. rc_ok R3. rc_bad Hf Hr.
Qed.

(** X20. Outside windows, a default rc file that exists but cannot be
    read (the directories before it in the search order reading without
    error) ends [load_default_rc] with the error of the read: the files
    of the later directories are not looked at and no settings are
    returned. Nothing in [main] catches the error: a session that reads
    the default rc files (no [--rc], no [--norc]) ends with it before
    pandoc or any other command has been run. *)
Theorem unreadable_default_rc_ends_the_session (H : host) (conf : config) (w : world)
    (i : nat) (dir : string) (e : exn) :
  get_platform (h_system H) ≠ "windows" →
  default_rc_dirs !! i = Some dir →
  (∀ j d, (j < i)%nat → default_rc_dirs !! j = Some d → rc_reads H (default_rc H d)) →
  h_isfile H (h_normalize_path H (default_rc H dir)) = true →
  h_read_config H (h_normalize_path H (default_rc H dir)) = Raise e →
  load_default_rc H (get_platform (h_system H)) conf w = Outcome (Raise e) w [] ∧
  ∀ (a : cmd_args) (pandoc_args : list string) (ticks : list tick),
    a_cd a = false → a_exec a = None → a_rc a = None → a_norc a = false →
    main H a pandoc_args ticks w = Outcome (Raise e) w [].
Proof.
  intros Hp Hdir Hearlier Hf Hr. split.
  - by apply (default_rc_read_error H _ conf w i dir e).
  - intros a pandoc_args ticks Hcd Hexec Hrc Hnorc.
    destruct (vars_lookup a) as (Lcd & Lexec & _ & Lnorc & _ & Lrc & _ & _ & _).
    unfold main, load_conf.
    rewrite (dict_get_some _ _ _ Lcd), (dict_get_some _ _ _ Lexec),
      (dict_get_some _ _ _ Lrc), (dict_get_some _ _ _ Lnorc).
    rewrite Hcd, Hexec, Hrc, Hnorc. cbn [truthy is_not_none opt_str negb].
    rewrite !bind_ret.
    pose proof (default_rc_read_error H _ ∅ w i dir e Hp Hdir Hearlier Hf Hr) as Hload.
    rewrite (bind_raises _ _ _ _ (f_equal res Hload)), Hload. reflexivity.
Qed.

Lemma unreadable_default_rc_ends_the_session_witness :
  let e := UserError "MissingSectionHeaderError" in
  let H := with_unreadable (Example.linux Example.rc_loader true)
             "/usr/local/share/panmk/.panmk" e in
  main H (Example.pvc false) [] [Example.poll 1] [] = Outcome (Raise e) [] [].
Proof.
  intros e H.
  assert (∀ j d, (j < 1)%nat → default_rc_dirs !! j = Some d →
                 rc_reads H (default_rc H d)) as Hearlier.
  { intros j d Hj Hd. destruct j as [|j]; [|lia]. injection Hd as <-.
    intros Hfile. vm_compute in Hfile. discriminate Hfile. }
  refine (proj2 (unreadable_default_rc_ends_the_session H ∅ [] 1
                   "/usr/local/share/panmk" e _ eq_refl Hearlier eq_refl eq_refl)
            (Example.pvc false) [] [Example.poll 1] eq_refl eq_refl eq_refl eq_refl).
  vm_compute. discriminate.
Defined.

(** ** What can end the resolution of the hooks *)





(** ** The change of directory *)

(** X22. With [--cd], the change to the directory of the source file is
    the first thing a session does: it comes before the [-e] code, the
    rc files and pandoc. When it fails, the session ends with its error
    and nothing else has been done. *)
Theorem chdir_comes_first (H : host) (a : cmd_args) (pandoc_args : list string)
    (ticks : list tick) (w : world) :
  a_cd a = true →
  let dir := h_dirname H (a_filename a) in
  let o := main H a pandoc_args ticks w in
  (∃ rest, log o = Lib (EChdir dir) :: rest) ∧
  (∀ e, h_chdir H dir = Raise e → o = Outcome (Raise e) w [Lib (EChdir dir)]).
Proof.
  intros Hcd dir o. subst o. rewrite main_stages.
  destruct (vars_lookup a) as (Lcd & _ & _ & _ & _ & _ & _ & Lfile & _).
  unfold cd_stage. rewrite (dict_get_some _ _ _ Lcd), Hcd. cbn [truthy].
  rewrite bind_assoc, (index_str _ _ _ _ _ Lfile). fold dir.
  unfold os_chdir. rewrite bind_assoc, bind_emit. cbn [res final log]. split.
  - eauto.
  - intros e He. unfold lift. rewrite He. reflexivity.
Qed.

Lemma chdir_comes_first_witness :
  let H := Posix.host_of "Linux" in
  let a := CmdArgs true None false false true "p" None "out.pdf" "notes/doc.md" in
  ∃ rest, log (main H a [] [] []) = Lib (EChdir "notes") :: rest.
Proof.
  intros H a.
  exact (proj1 (chdir_comes_first H a [] [] [] eq_refl)).
Defined.
